(** * Mock chat assistant: rule matching, rule loading and session storage

    A shallow embedding of the decision logic of the repository:
    - [MessageMatcher] (rule loading, priority sort, exact matching,
      cross-tab storage listener),
    - [ChatManager.handleResponse] / [findImageAlternative] (modality
      fallback),
    - [StorageManager] (sessions kept in a single localStorage document),
    - [ChatManager] (the message pipeline, the special commands, loading and
      starting chats), [SidebarManager] (selecting, creating, deleting and
      clearing chats, date labels) and [App] (the send handler and the
      choice of the chat to resume).  What these classes draw on the page is
      not modelled; the calls they make on the UI manager are logged.

    Strings.  A JavaScript string is a sequence of UTF-16 code units.  The
    embedding uses [string], i.e. sequences of 8-bit code units, read as the
    code units U+0000..U+00FF.  On that range [trim], the regular expression
    class [\s] and [toLowerCase] are modelled exactly; [toUpperCase] is exact
    except for U+00B5 and U+00FF, whose upper-case forms lie outside the
    range and which the model leaves unchanged.

    Environment.  [JSON.parse] is not re-implemented: a stored document is
    represented by the outcome of parsing it.  [Date] and [Math.random] are
    inputs of the functions that call them.  [localStorage.setItem] is taken
    to succeed. *)

From Stdlib Require Import String Ascii List ZArith Lia Bool Arith.
From Stdlib Require Import Permutation Sorted.
From Stdlib Require Import Decimal DecimalString.
Import ListNotations.
Open Scope string_scope.

(** ** JavaScript string primitives used by the code *)

Module JS.

(** WhiteSpace and LineTerminator code units below U+0100: TAB, LF, VT, FF,
    CR, SP and NBSP.  This is the set removed by [trim] and matched by [\s]. *)
Definition is_ws (c : ascii) : bool :=
  let n := nat_of_ascii c in
  (((9 <=? n) && (n <=? 13)) || (n =? 32) || (n =? 160))%nat.

(** Code units with a distinct lower-case form: A-Z, U+00C0-U+00D6 and
    U+00D8-U+00DE; the lower-case form is 32 above. *)
Definition is_upper (c : ascii) : bool :=
  let n := nat_of_ascii c in
  (((65 <=? n) && (n <=? 90)) || ((192 <=? n) && (n <=? 214))
   || ((216 <=? n) && (n <=? 222)))%nat.

Definition lower_char (c : ascii) : ascii :=
  if is_upper c then ascii_of_nat (nat_of_ascii c + 32) else c.

(** Code units with an upper-case form 32 below: a-z, U+00E0-U+00F6 and
    U+00F8-U+00FE. *)
Definition is_lower (c : ascii) : bool :=
  let n := nat_of_ascii c in
  (((97 <=? n) && (n <=? 122)) || ((224 <=? n) && (n <=? 246))
   || ((248 <=? n) && (n <=? 254)))%nat.

(** [c.toUpperCase()] for a one-code-unit string; U+00DF becomes "SS".
    U+00B5 and U+00FF, whose capitals U+039C and U+0178 lie outside
    U+0000..U+00FF, are left unchanged: on these two the model differs from
    [toUpperCase]. *)
Definition upper_char (c : ascii) : string :=
  if is_lower c then String (ascii_of_nat (nat_of_ascii c - 32)) ""
  else if (nat_of_ascii c =? 223)%nat then "SS"
  else String c "".

Fixpoint toLowerCase (s : string) : string :=
  match s with
  | EmptyString => EmptyString
  | String c s' => String (lower_char c) (toLowerCase s')
  end.

Fixpoint trimStart (s : string) : string :=
  match s with
  | EmptyString => EmptyString
  | String c s' => if is_ws c then trimStart s' else s
  end.

Fixpoint trimEnd (s : string) : string :=
  match s with
  | EmptyString => EmptyString
  | String c s' =>
      match trimEnd s' with
      | EmptyString => if is_ws c then EmptyString else String c EmptyString
      | t => String c t
      end
  end.

Definition trim (s : string) : string := trimEnd (trimStart s).

(** [s.substring(0, n)] *)
Fixpoint take (n : nat) (s : string) : string :=
  match n, s with
  | S n', String c s' => String c (take n' s')
  | _, _ => EmptyString
  end.

(** [s.replace(/\s+/g, ' ')]: every maximal run of white space becomes one
    space.  [in_run] tells that the previous code unit was white space. *)
Fixpoint collapse_from (in_run : bool) (s : string) : string :=
  match s with
  | EmptyString => EmptyString
  | String c s' =>
      if is_ws c
      then (if in_run then collapse_from true s'
            else String " " (collapse_from true s'))
      else String c (collapse_from false s')
  end.

Definition collapse_ws (s : string) : string := collapse_from false s.

(** [s.charAt(0).toUpperCase() + s.slice(1)] *)
Definition capitalize (s : string) : string :=
  match s with
  | EmptyString => EmptyString
  | String c s' => upper_char c ++ s'
  end.

(** [s.includes(sub)] on strings *)
Fixpoint includes (s sub : string) : bool :=
  prefix sub s ||
  match s with
  | EmptyString => false
  | String _ s' => includes s' sub
  end.

(** Truthiness of a string: the empty string is the only falsy one. *)
Definition truthy (s : string) : bool := negb (s =? "").

(** [xs.slice(-n)] on arrays, for [n > 0]: the last [n] elements, or the
    whole array when it is shorter. *)
Definition slice_last {A : Type} (n : nat) (xs : list A) : list A :=
  skipn (length xs - n) xs.

End JS.

(** ** Response rules *)

(** The [match] field of a rule as [matchesRule] distinguishes it: a string
    (the wildcard is the string "*"), a legacy array of strings, or any other
    value (absent, number, ...). *)
Inductive MatchSpec : Type :=
| MString (m : string)
| MArray (terms : list string)
| MOther.

(** A rule record.  Optional fields are [None] when the property is absent
    from the object. *)
Record Rule : Type := mkRule {
  rmatch : MatchSpec;
  rtype : string;
  rvalue : string;
  caseSensitive : option bool;
  contains : option bool;
  priority : option Z;
  followup : option (list string)
}.

(** A response object [{type, value, followup}]. *)
Record Response : Type := mkResponse {
  resp_type : string;
  resp_value : string;
  resp_followup : option (list string)
}.

(** ** MessageMatcher *)

Module MessageMatcher.

(** [a.priority || 999]: an absent priority and the falsy number 0 both
    yield 999. *)
Definition effective_priority (r : Rule) : Z :=
  match priority r with
  | None => 999%Z
  | Some p => if (p =? 0)%Z then 999%Z else p
  end.

(** [Array.prototype.sort] with the comparator
    [(a, b) => (a.priority || 999) - (b.priority || 999)].  The comparator is
    a consistent ordering on integer keys and the sort is stable, which
    determines the result: it is computed here by stable insertion (an
    element goes in front of the elements that followed it in the array and
    do not compare below it). *)
Fixpoint insert_rule (r : Rule) (sorted : list Rule) : list Rule :=
  match sorted with
  | [] => [r]
  | x :: rest =>
      if (effective_priority r <=? effective_priority x)%Z
      then r :: x :: rest
      else x :: insert_rule r rest
  end.

Definition sortByPriority (rs : list Rule) : list Rule :=
  fold_right insert_rule [] rs.

(** The state of a matcher: its fields [rules] and [isLoaded], and the number
    of storage listeners it has registered on the window. *)
Record t : Type := mk {
  rules : list Rule;
  isLoaded : bool;
  listeners : nat
}.

(** [constructor()] *)
Definition new : t := mk [] false 0.

Definition fallbackRule (m v : string) (p : Z) (f : list string) : Rule :=
  mkRule (MString m) "text" v (Some false) (Some false) (Some p) (Some f).

(** [getFallbackRules()] *)
Definition getFallbackRules : list Rule :=
  [ fallbackRule "What kind of questions can you help with?"
      "I can assist California state employees with:
• Information about state employee benefits and resources
• Guidance on accessing government services
• General workplace policies and procedures
• Technical support for common issues
• Directions to relevant departments and contacts

I'm designed specifically to support state employees in their daily work."
      1
      [ "Can you help with technical issues?";
        "How do I access employee benefits information?";
        "What workplace policies can you explain?";
        "Can you provide department contact information?" ];
    fallbackRule "Can you provide information on state employee resources?"
      "California state employees have access to comprehensive benefits including:
• Health insurance through CalPERS
• Retirement planning and pension information
• Professional development opportunities
• Employee assistance programs
• Flexible work arrangements

For detailed information, I recommend visiting the CalHR website or contacting your HR department."
      2
      [ "How do I contact my HR department?";
        "What is CalPERS and how do I access it?";
        "Can you explain flexible work arrangements?";
        "What professional development is available?" ];
    fallbackRule "How do I access California state government services?"
      "California offers numerous online services for both employees and citizens:
• CA.gov portal for general services
• Employee self-service systems
• Benefits enrollment and management
• Training and certification programs
• Internal communication platforms

Most services are accessible through your employee portal or the main CA.gov website."
      3
      [ "How do I access the employee portal?";
        "What training programs are available?";
        "Can you help with benefits enrollment?";
        "Where do I find internal communications?" ];
    fallbackRule "What are your limitations as a state employee assistant?"
      "As a state employee assistant, I have several important limitations:
• I cannot access personal employee records or confidential information
• I cannot make official policy decisions or interpretations
• I cannot process transactions or make changes to your accounts
• I cannot provide legal advice or medical guidance
• I can only provide general information and guidance

For specific issues, please contact the appropriate department directly."
      4
      [ "Who should I contact for HR issues?";
        "How do I get official policy interpretations?";
        "Where can I access my employee records?";
        "What departments handle specific issues?" ];
    fallbackRule "Can you help with technical issues?"
      "For technical issues, I can provide basic troubleshooting guidance:
• Check your network connection
• Clear your browser cache and cookies
• Restart your computer if applications are slow
• Ensure you're using supported browsers (Chrome, Firefox, Edge)
• Contact your local IT support for hardware issues

For complex technical problems, please submit a ticket to your IT help desk."
      5
      [ "How do I contact IT support?";
        "What browsers are officially supported?";
        "How do I submit an IT help desk ticket?";
        "Can you help with specific software issues?" ];
    fallbackRule "*"
      "I'm sorry, I don't understand that request. I'm designed to help California state employees with specific topics. Please copy and paste one of the exact prompts from the suggestions below, or contact your administrator to add new approved prompts."
      999
      [ "What kind of questions can you help with?";
        "Can you provide information on state employee resources?";
        "How do I access California state government services?";
        "Can you help with technical issues?" ] ].

(** The [caseSensitive = false] default of the destructuring in
    [matchesRule]. *)
Definition caseSensitiveOf (r : Rule) : bool :=
  match caseSensitive r with
  | Some b => b
  | None => false
  end.

(** [caseSensitive ? s : s.toLowerCase()] *)
Definition prepare (cs : bool) (s : string) : string :=
  if cs then s else JS.toLowerCase s.

(** [matchesRule(input, rule)] *)
Definition matchesRule (input : string) (rule : Rule) : bool :=
  let cs := caseSensitiveOf rule in
  match rmatch rule with
  | MString m =>
      if m =? "*" then true
      else prepare cs input =? prepare cs m
  | MArray terms =>
      existsb (fun term => prepare cs input =? prepare cs term) terms
  | MOther => false
  end.

(** [findMatch(userInput)]; [None] is the JavaScript [null]. *)
Definition findMatch (mm : t) (userInput : string) : option Rule :=
  if negb (isLoaded mm) then None
  else
    let input := JS.trim userInput in
    if negb (JS.truthy input) then None
    else find (matchesRule input) (rules mm).

(** [getResponse(rule)] *)
Definition getResponse (rule : option Rule) : Response :=
  match rule with
  | None => mkResponse "text" "I didn't understand that. Please try again."
              (Some [])
  | Some r =>
      mkResponse (rtype r) (rvalue r)
        (Some (match followup r with Some f => f | None => [] end))
  end.

(** [processInput(userInput)] *)
Definition processInput (mm : t) (userInput : string) : Response :=
  getResponse (findMatch mm userInput).

(** [getAllRules()] *)
Definition getAllRules (mm : t) : list Rule := rules mm.

(** *** Loading *)

(** The outcome of [JSON.parse] on a stored text, as far as the code
    inspects the result. *)
Inductive Parsed : Type :=
| SyntaxError                 (* the text does not parse: an exception *)
| JNull                       (* the value null: [data.rules] throws *)
| JNoRules                    (* a non-null value whose [rules] is falsy or
                                 not an array *)
| JRules (rs : list Rule).    (* an object whose [rules] is the array [rs] *)

(** A localStorage item or an event's [newValue]: [Absent] is [null] or the
    empty string (both falsy), [Text p] a non-empty text that parses as
    [p]. *)
Inductive Item : Type :=
| Absent
| Text (p : Parsed).

(** What [fetch('assets/data/replies.json')] followed by [response.json()]
    does. *)
Inductive Fetched : Type :=
| NetworkError                (* [fetch] rejects *)
| HttpError                   (* [response.ok] is false *)
| Body (p : Parsed).          (* [response.json()] yields [p], or rejects
                                 when [p] is [SyntaxError] *)

Record Env : Type := mkEnv {
  chatRules : Item;           (* [localStorage.getItem('chatRules')] *)
  repliesJson : Fetched
}.

(** The sources [loadRules] touches, in order. *)
Inductive Source : Type := Override | FetchedDefault | Embedded.

Inductive Outcome (A : Type) : Type :=
| Done (a : A)
| Thrown.
Arguments Done {A} a.
Arguments Thrown {A}.

(** [setupStorageListener()] registers one more listener. *)
Definition setupStorageListener (mm : t) : t :=
  mk (rules mm) (isLoaded mm) (S (listeners mm)).

(** The three assignments that end each branch of [loadRules]. *)
Definition install (rs : list Rule) (mm : t) : t :=
  setupStorageListener (mk (sortByPriority rs) true (listeners mm)).

(** The body of the [try] block of [loadRules], with the sources it has
    touched.  Every exception is raised before the first assignment to
    [this], so nothing is half-done when it reaches the handler. *)
Definition loadRules_try (env : Env) (mm : t) : list Source * Outcome t :=
  match chatRules env with
  | Text SyntaxError => ([Override], Thrown)
  | Text JNull => ([Override], Thrown)
  | Text (JRules rs) => ([Override], Done (install rs mm))
  | Absent | Text JNoRules =>
      ([Override; FetchedDefault],
       match repliesJson env with
       | Body (JRules rs) => Done (install rs mm)
       | NetworkError | HttpError | Body _ => Thrown
       end)
  end.

(** [loadRules()]: the [try] block and its [catch] handler. *)
Definition loadRules (env : Env) (mm : t) : list Source * t :=
  match loadRules_try env mm with
  | (touched, Done mm') => (touched, mm')
  | (touched, Thrown) =>
      ((touched ++ [Embedded])%list, install getFallbackRules mm)
  end.

(** *** Cross-tab synchronisation *)

Record StorageEvent : Type := mkEvent {
  key : option string;
  newValue : Item
}.

(** The callback registered by [setupStorageListener]: the matcher it
    leaves behind and the notices it posts with
    [window.chatManager.showSystemMessage]; [chat] tells whether
    [window.chatManager] is set.  An exception of [JSON.parse] or of
    [data.rules] is caught by the callback, which then changes nothing. *)
Definition storageListener (chat : bool) (e : StorageEvent) (mm : t)
  : t * list string :=
  match key e, newValue e with
  | Some k, Text p =>
      if k =? "chatRules" then
        match p with
        | JRules rs =>
            (mk (sortByPriority rs) (isLoaded mm) (listeners mm),
             if chat then ["Chat rules updated from admin panel."] else [])
        | SyntaxError | JNull | JNoRules => (mm, [])
        end
      else (mm, [])
  | _, _ => (mm, [])
  end.

(** The matcher the callback leaves behind; it is the same with and without
    a chat manager. *)
Definition onStorage (e : StorageEvent) (mm : t) : t :=
  fst (storageListener true e mm).

(** A storage event reaches every registered listener in turn. *)
Definition dispatchStorage (e : StorageEvent) (mm : t) : t :=
  Nat.iter (listeners mm) (onStorage e) mm.

(** The same with the notices: every listener works on the matcher its
    predecessor left and posts its own notices. *)
Definition dispatchStorageNotices (chat : bool) (e : StorageEvent) (mm : t)
  : t * list string :=
  Nat.iter (listeners mm)
    (fun acc =>
       let (m, out) := storageListener chat e (fst acc) in
       (m, (snd acc ++ out)%list))
    (mm, []).

(** [reloadRules()] *)
Definition reloadRules (env : Env) (mm : t) : list Source * t :=
  loadRules env mm.

(** [isReady()] *)
Definition isReady (mm : t) : bool := isLoaded mm.

End MessageMatcher.

(** ** StorageManager *)

Module StorageManager.

(** A message as the callers build it: [{type, content}] for a user message,
    [{type, content, responseType, followup}] for an assistant message.  No
    caller passes an [id] or a [timestamp] of its own. *)
Record MessageIn : Type := mkIn {
  in_type : string;
  in_content : string;
  in_responseType : option string;
  in_followup : option (list string)
}.

Record Message : Type := mkMessage {
  msg_id : string;
  msg_timestamp : string;
  msg_type : string;
  msg_content : string;
  msg_responseType : option string;
  msg_followup : option (list string)
}.

Record Chat : Type := mkChat {
  chat_id : string;
  title : string;
  messages : list Message;
  created : string;
  updated : string;
  messageCount : nat
}.

Record Settings : Type := mkSettings {
  version : string;
  settings_created : string
}.

Record StorageData : Type := mkData {
  chats : list Chat;
  currentChatId : option string;
  settings : Settings
}.

(** The persisted document under [storageKey]: [None] when the item is
    missing or does not parse ([getStorageData()] returns [null]). *)
Definition Store : Type := option StorageData.

(** The values produced by [generateMessageId()] / [generateChatId()] and by
    the two [new Date().toISOString()] calls of one operation. *)
Record Fresh : Type := mkFresh {
  fresh_id : string;
  fresh_stamp : string;
  fresh_updated : string
}.

Definition maxChats : nat := 50.
Definition maxMessagesPerChat : nat := 100.

(** [getStorageData()] *)
Definition getStorageData (st : Store) : option StorageData := st.

(** [saveStorageData(data)].  [localStorage.setItem] is taken to succeed, so
    the document is replaced and the result is true; the handler for a
    failed write is outside the model. *)
Definition saveStorageData (data : StorageData) : Store * bool :=
  (Some data, true).

Definition has_id (chatId : string) (c : Chat) : bool := chat_id c =? chatId.

(** [xs.findIndex(p)], [None] standing for -1 *)
Fixpoint findIndex {A : Type} (p : A -> bool) (xs : list A) : option nat :=
  match xs with
  | [] => None
  | x :: rest =>
      if p x then Some 0
      else match findIndex p rest with
           | Some i => Some (S i)
           | None => None
           end
  end.

(** [xs.splice(i, 1)] for an index inside the array *)
Definition splice1 {A : Type} (i : nat) (xs : list A) : list A :=
  (firstn i xs ++ skipn (S i) xs)%list.

(** Writing through the object returned by [find]: the first element
    satisfying [p] is replaced by its image under [f]. *)
Fixpoint update_first {A : Type} (p : A -> bool) (f : A -> A) (xs : list A)
  : list A :=
  match xs with
  | [] => []
  | x :: rest => if p x then f x :: rest else x :: update_first p f rest
  end.

(** [generateChatTitle(content)] *)
Definition generateChatTitle (content : string) : string :=
  let title := JS.take 30 (JS.trim content) in
  let title := JS.collapse_ws title in
  let title := if (30 <? String.length content)%nat
               then title ++ "..." else title in
  let title := JS.capitalize title in
  if JS.truthy title then title else "New Chat".

(** [{id, timestamp, ...message}] *)
Definition withMeta (fr : Fresh) (message : MessageIn) : Message :=
  mkMessage (fresh_id fr) (fresh_stamp fr) (in_type message)
    (in_content message) (in_responseType message) (in_followup message).

(** The statements of [addMessageToChat] that mutate the chat found. *)
Definition appendToChat (fr : Fresh) (message : MessageIn) (chat : Chat)
  : Chat :=
  let msgs := (messages chat ++ [withMeta fr message])%list in
  let count := length msgs in
  let upd := fresh_updated fr in
  let ttl :=
    if (title chat =? "New Chat") && (in_type message =? "user")
       && JS.truthy (in_content message)
    then generateChatTitle (in_content message)
    else title chat in
  if (maxMessagesPerChat <? length msgs)%nat
  then
    let kept := JS.slice_last maxMessagesPerChat msgs in
    mkChat (chat_id chat) ttl kept (created chat) upd (length kept)
  else mkChat (chat_id chat) ttl msgs (created chat) upd count.

(** [createNewChat(title)]; the result is the new id, or [None] for
    [null]. *)
Definition createNewChat (st : Store) (ttl : option string) (fr : Fresh)
  : Store * option string :=
  let chat :=
    mkChat (fresh_id fr)
      (match ttl with
       | Some t => if JS.truthy t then t else "New Chat"
       | None => "New Chat"
       end)
      [] (fresh_stamp fr) (fresh_updated fr) 0 in
  match getStorageData st with
  | None => (st, None)
  | Some data =>
      let all := chat :: chats data in
      let all := if (maxChats <? length all)%nat
                 then firstn maxChats all else all in
      (fst (saveStorageData (mkData all (Some (fresh_id fr)) (settings data))),
       Some (fresh_id fr))
  end.

(** [getChat(chatId)] *)
Definition getChat (st : Store) (chatId : string) : option Chat :=
  match getStorageData st with
  | None => None
  | Some data => find (has_id chatId) (chats data)
  end.

(** [addMessageToChat(chatId, message)] *)
Definition addMessageToChat (st : Store) (chatId : string)
  (message : MessageIn) (fr : Fresh) : Store * bool :=
  match getStorageData st with
  | None => (st, false)
  | Some data =>
      match find (has_id chatId) (chats data) with
      | None => (st, false)
      | Some _ =>
          let data' :=
            mkData (update_first (has_id chatId) (appendToChat fr message)
                      (chats data))
                   (currentChatId data) (settings data) in
          (fst (saveStorageData data'), true)
      end
  end.

(** [deleteChat(chatId)] *)
Definition deleteChat (st : Store) (chatId : string) : Store * bool :=
  match getStorageData st with
  | None => (st, false)
  | Some data =>
      match findIndex (has_id chatId) (chats data) with
      | None => (st, false)
      | Some chatIndex =>
          let remaining := splice1 chatIndex (chats data) in
          let current :=
            match currentChatId data with
            | Some c => if c =? chatId then None else Some c
            | None => None
            end in
          (fst (saveStorageData (mkData remaining current (settings data))),
           true)
      end
  end.

(** [getCurrentChatId()] *)
Definition getCurrentChatId (st : Store) : option string :=
  match getStorageData st with
  | None => None
  | Some data => currentChatId data
  end.

(** [getAllChats()] *)
Definition getAllChats (st : Store) : list Chat :=
  match getStorageData st with
  | None => []
  | Some data => chats data
  end.

(** [initializeStorage()]; [now] is the creation stamp. *)
Definition initializeStorage (now : string) : Store :=
  fst (saveStorageData (mkData [] None (mkSettings "2.0" now))).

(** [init()], on a browser whose localStorage passes the write test. *)
Definition init (st : Store) (now : string) : Store * bool :=
  match getStorageData st with
  | None => (initializeStorage now, true)
  | Some _ => (st, true)
  end.

(** [clearAllChats()] *)
Definition clearAllChats (st : Store) : Store * bool :=
  match getStorageData st with
  | None => (st, false)
  | Some data =>
      (fst (saveStorageData (mkData [] None (settings data))), true)
  end.

(** [setCurrentChat(chatId)] *)
Definition setCurrentChat (st : Store) (chatId : string) : Store * bool :=
  match getStorageData st with
  | None => (st, false)
  | Some data =>
      (fst (saveStorageData (mkData (chats data) (Some chatId)
                               (settings data))),
       true)
  end.

End StorageManager.

(** ** ChatManager: response delivery *)

Module ChatManager.

Import MessageMatcher.

(** The part of a chat manager that [handleResponse] reads. *)
Record t : Type := mk {
  messageMatcher : MessageMatcher.t;
  isImageMode : bool;                   (* [uiManager.isInImageMode()] *)
  currentChatId : option string
}.

(** A computation that may raise a [TypeError]. *)
Inductive Exc (A : Type) : Type :=
| Ok (a : A)
| TypeError.
Arguments Ok {A} a.
Arguments TypeError {A}.

Definition bind {A B : Type} (c : Exc A) (k : A -> Exc B) : Exc B :=
  match c with
  | Ok a => k a
  | TypeError => TypeError
  end.

Notation "x <- c ;; k" := (bind c (fun x => k))
  (at level 61, c at next level, right associativity).

(** [rule.match.includes(kw)]: a substring test on a string, a membership
    test on an array, and a [TypeError] on a value without [includes]. *)
Definition match_includes (m : MatchSpec) (kw : string) : Exc bool :=
  match m with
  | MString s => Ok (JS.includes s kw)
  | MArray terms => Ok (existsb (String.eqb kw) terms)
  | MOther => TypeError
  end.

(** The predicate of the [filter] in [findImageAlternative]; [&&] and [||]
    evaluate their right operand only when needed. *)
Definition isGenericImageRule (rule : Rule) : Exc bool :=
  if rtype rule =? "image" then
    d <- match_includes (rmatch rule) "demo" ;;
    if (d : bool) then Ok true
    else match_includes (rmatch rule) "screenshot"
  else Ok false.

(** [xs.filter(p)] for a predicate that may throw. *)
Fixpoint filterE {A : Type} (p : A -> Exc bool) (xs : list A)
  : Exc (list A) :=
  match xs with
  | [] => Ok []
  | x :: rest =>
      b <- p x ;;
      kept <- filterE p rest ;;
      Ok (if (b : bool) then x :: kept else kept)
  end.

(** [findImageAlternative(userMessage)] *)
Definition findImageAlternative (cm : t) (userMessage : string)
  : Exc (option Response) :=
  let allRules := getAllRules (messageMatcher cm) in
  match find (fun rule => (rtype rule =? "image")
                          && matchesRule userMessage rule) allRules with
  | Some rule => Ok (Some (mkResponse "image" (rvalue rule) None))
  | None =>
      genericImageRules <- filterE isGenericImageRule allRules ;;
      match genericImageRules with
      | rule :: _ => Ok (Some (mkResponse "image" (rvalue rule) None))
      | [] => Ok None
      end
  end.

(** What [handleResponse] hands over: the arguments of
    [uiManager.addMessage] and the message object it stores. *)
Record Delivery : Type := mkDelivery {
  shown_value : string;
  shown_isImage : bool;
  shown_followup : option (list string);
  stored : StorageManager.MessageIn
}.

(** [handleResponse(response, originalMessage)], up to the construction of
    [assistantMessageObj]. *)
Definition deliver (cm : t) (response : Response) (originalMessage : string)
  : Exc Delivery :=
  choice <-
    (if isImageMode cm && (resp_type response =? "text") then
       imageResponse <- findImageAlternative cm originalMessage ;;
       match imageResponse with
       | Some alt => Ok (alt, true)
       | None => Ok (response, false)
       end
     else if resp_type response =? "image" then Ok (response, true)
     else Ok (response, false)) ;;
  let finalResponse := fst choice in
  let shouldShowImage := snd choice in
  let options_followup :=
    match resp_followup finalResponse with
    | Some (x :: f) => Some (x :: f)
    | _ => None
    end in
  Ok (mkDelivery (resp_value finalResponse) shouldShowImage options_followup
        (StorageManager.mkIn "assistant" (resp_value finalResponse)
           (Some (if shouldShowImage then "image" else "text"))
           (Some (match resp_followup finalResponse with
                  | Some f => f
                  | None => []
                  end)))).

(** [handleResponse(response, originalMessage)]: the delivery, and the
    session store after the message has been added to the current chat. *)
Definition handleResponse (cm : t) (st : StorageManager.Store)
  (fr : StorageManager.Fresh) (response : Response) (originalMessage : string)
  : Exc (Delivery * StorageManager.Store) :=
  d <- deliver cm response originalMessage ;;
  match currentChatId cm with
  | Some chatId =>
      if JS.truthy chatId
      then Ok (d, fst (StorageManager.addMessageToChat st chatId (stored d) fr))
      else Ok (d, st)
  | None => Ok (d, st)
  end.

(** *** Conversation state and the message pipeline *)

(** An entry of [messageHistory]; entries pushed while chatting carry no
    id, entries copied from a stored chat carry the id of the message. *)
Record HistoryEntry : Type := mkEntry {
  h_id : option string;
  h_type : string;
  h_content : string;
  h_responseType : option string;
  h_followup : option (list string);
  h_timestamp : string
}.

(** The calls made on the UI manager and on the chat area, in order.
    [AddMessage content type isImage followup] is
    [uiManager.addMessage(content, type, options)]. *)
Inductive UiCall : Type :=
| AddMessage (content type : string) (isImage : bool)
    (followup : option (list string))
| ShowLoading
| RemoveLoading
| Announce (text : string)
| FocusInput
| ClearChatUI
| SetSendButtonState (enabled : bool)
| ClearInput.

(** A chat manager at work: its fields, the session store it writes to,
    and the UI calls made so far. *)
Record Session : Type := mkSession {
  manager : t;
  isInitialized : bool;
  messageHistory : list HistoryEntry;
  store : StorageManager.Store;
  ui : list UiCall
}.

(** The values generated while one user message is processed: for the chat
    that may be created, for the stored user message and its history entry,
    for the stored reply and its history entry. *)
Record Ticks : Type := mkTicks {
  new_chat : StorageManager.Fresh;
  user_meta : StorageManager.Fresh;
  user_seen : string;
  reply_meta : StorageManager.Fresh;
  reply_seen : string
}.

(** Truthiness of an id that may be null. *)
Definition truthy_id (c : option string) : bool :=
  match c with
  | Some id => JS.truthy id
  | None => false
  end.

Definition with_current (s : Session) (c : option string)
  (st : StorageManager.Store) : Session :=
  mkSession (mk (messageMatcher (manager s)) (isImageMode (manager s)) c)
    (isInitialized s) (messageHistory s) st (ui s).

Definition log (s : Session) (calls : list UiCall) : Session :=
  mkSession (manager s) (isInitialized s) (messageHistory s) (store s)
    (ui s ++ calls)%list.

(** [showErrorMessage(m)] and [showSystemMessage(m)] *)
Definition showErrorMessage (s : Session) (m : string) : Session :=
  log s [AddMessage m "system" false None].

Definition showSystemMessage (s : Session) (m : string) : Session :=
  log s [AddMessage m "system" false None].

(** [storageManager.addMessageToChat(this.currentChatId, message)]: with a
    null id no chat is found and the store is left alone. *)
Definition addToCurrent (st : StorageManager.Store) (c : option string)
  (m : StorageManager.MessageIn) (fr : StorageManager.Fresh)
  : StorageManager.Store :=
  match c with
  | Some chatId => fst (StorageManager.addMessageToChat st chatId m fr)
  | None => st
  end.

(** The whole of [handleResponse(response, originalMessage)]: the message
    shown, the message stored, the history entry and the announcement.  The
    sidebar refresh after the store write only redraws and is left out. *)
Definition handleResponseAll (s : Session) (tk : Ticks)
  (response : Response) (originalMessage : string) : Exc Session :=
  r <- handleResponse (manager s) (store s) (reply_meta tk) response
         originalMessage ;;
  let d := fst r in
  Ok (mkSession (manager s) (isInitialized s)
        (messageHistory s
         ++ [mkEntry None "assistant" (shown_value d)
               (StorageManager.in_responseType (stored d))
               (StorageManager.in_followup (stored d))
               (reply_seen tk)])%list
        (snd r)
        (ui s
         ++ [AddMessage (shown_value d) "assistant" (shown_isImage d)
               (shown_followup d);
             Announce (if shown_isImage d
                       then "Assistant sent an image response"
                       else "Assistant: " ++ shown_value d)])%list).

(** [processUserMessage(userMessage)] *)
Definition processUserMessage (s : Session) (tk : Ticks)
  (userMessage : string) : Session :=
  if negb (isInitialized s) then s
  else
    let s1 :=
      if truthy_id (currentChatId (manager s)) then s
      else
        let created :=
          StorageManager.createNewChat (store s) None (new_chat tk) in
        with_current s (snd created) (fst created) in
    let st2 :=
      addToCurrent (store s1) (currentChatId (manager s1))
        (StorageManager.mkIn "user" userMessage None None) (user_meta tk) in
    let s2 :=
      mkSession (manager s1) (isInitialized s1)
        (messageHistory s1
         ++ [mkEntry None "user" userMessage None None (user_seen tk)])%list
        st2 (ui s1 ++ [ShowLoading])%list in
    let response := processInput (messageMatcher (manager s2)) userMessage in
    let s3 := log s2 [RemoveLoading] in
    match handleResponseAll s3 tk response userMessage with
    | Ok s4 => s4
    | TypeError =>
        showErrorMessage (log s3 [RemoveLoading])
          "Sorry, I encountered an error processing your message."
    end.

(** [clearChat()] *)
Definition clearChat (s : Session) : Session :=
  mkSession (manager s) (isInitialized s) [] (store s)
    (ui s ++ [ClearChatUI; FocusInput])%list.

(** A number as a template literal prints it. *)
Definition decimal (n : nat) : string :=
  NilEmpty.string_of_uint (Nat.to_uint n).

(** [handleSpecialCommand(command)] *)
Definition handleSpecialCommand (s : Session) (command : string)
  : Session * bool :=
  let lowerCommand := JS.trim (JS.toLowerCase command) in
  if lowerCommand =? "/clear" then
    (showSystemMessage (clearChat s) "Chat cleared.", true)
  else if lowerCommand =? "/help" then
    (showSystemMessage s
       "Available commands: /clear (clear chat), /history (show history), /rules (show matching rules)",
     true)
  else if lowerCommand =? "/history" then
    (showSystemMessage s
       (if (0 <? length (messageHistory s))%nat
        then "Message history (" ++ decimal (length (messageHistory s))
             ++ " messages)"
        else "No message history yet."),
     true)
  else if lowerCommand =? "/rules" then
    (showSystemMessage s
       ("Loaded "
        ++ decimal (length (getAllRules (messageMatcher (manager s))))
        ++ " matching rules."),
     true)
  else (s, false).

(** [processUserInput(userInput)] *)
Definition processUserInput (s : Session) (tk : Ticks) (userInput : string)
  : Session :=
  let trimmedInput := JS.trim userInput in
  if prefix "/" trimmedInput then
    let handled := handleSpecialCommand s trimmedInput in
    if snd handled then fst handled
    else processUserMessage s tk trimmedInput
  else processUserMessage s tk trimmedInput.

(** The history entry made of a stored message by [loadChat]. *)
Definition entry_of (m : StorageManager.Message) : HistoryEntry :=
  mkEntry (Some (StorageManager.msg_id m)) (StorageManager.msg_type m)
    (StorageManager.msg_content m) (StorageManager.msg_responseType m)
    (StorageManager.msg_followup m) (StorageManager.msg_timestamp m).

(** What [loadChat] shows for one stored message: user and assistant
    messages are shown, any other type is skipped. *)
Definition render (m : StorageManager.Message) : list UiCall :=
  if StorageManager.msg_type m =? "user" then
    [AddMessage (StorageManager.msg_content m) "user" false None]
  else if StorageManager.msg_type m =? "assistant" then
    [AddMessage (StorageManager.msg_content m) "assistant"
       (match StorageManager.msg_responseType m with
        | Some rt => rt =? "image"
        | None => false
        end)
       (Some (match StorageManager.msg_followup m with
              | Some f => f
              | None => []
              end))]
  else [].

(** [loadChat(chatId)] *)
Definition loadChat (s : Session) (chatId : string) : Session * bool :=
  match StorageManager.getChat (store s) chatId with
  | None => (s, false)
  | Some chat =>
      (mkSession
         (mk (messageMatcher (manager s)) (isImageMode (manager s))
            (Some chatId))
         (isInitialized s)
         (map entry_of (StorageManager.messages chat))
         (store s)
         (ui s
          ++ ClearChatUI :: flat_map render (StorageManager.messages chat))%list,
       true)
  end.

(** [startNewChat(chatId)]; the result is the current chat id. *)
Definition startNewChat (s : Session) (chatId : option string)
  (fr : StorageManager.Fresh) : Session * option string :=
  let chosen :=
    if truthy_id chatId then (store s, chatId)
    else StorageManager.createNewChat (store s) None fr in
  (mkSession
     (mk (messageMatcher (manager s)) (isImageMode (manager s))
        (snd chosen))
     (isInitialized s) [] (fst chosen)
     (ui s ++ [ClearChatUI; FocusInput])%list,
   snd chosen).

(** [getCurrentChatId()] *)
Definition getCurrentChatId (s : Session) : option string :=
  currentChatId (manager s).

End ChatManager.

(** ** UIManager: the pure parts *)

Module UIManager.

(** The height, in pixels, that [adjustInputHeight()] gives the input for a
    content of height [scrollHeight]. *)
Definition adjustInputHeight (scrollHeight : Z) : Z :=
  let minHeight := 44%Z in
  let maxHeight := 120%Z in
  Z.min (Z.max scrollHeight minHeight) maxHeight.

(** [getInputValue()] for an input field holding [value] *)
Definition getInputValue (value : string) : string := JS.trim value.

End UIManager.

(** ** SidebarManager *)

Module SidebarManager.

(** The sidebar with the chat manager attached to it by [init] and the
    store they work on.  Drawing the list of chats is not modelled. *)
Record t : Type := mk {
  session : ChatManager.Session;
  selectedChatId : option string;
  isCollapsed : bool
}.

Definition with_store (w : t) (st : StorageManager.Store) : t :=
  mk (ChatManager.mkSession (ChatManager.manager (session w))
        (ChatManager.isInitialized (session w))
        (ChatManager.messageHistory (session w)) st
        (ChatManager.ui (session w)))
     (selectedChatId w) (isCollapsed w).

(** [collapseSidebar()] and [expandSidebar()] *)
Definition collapseSidebar (w : t) : t :=
  mk (session w) (selectedChatId w) true.

Definition expandSidebar (w : t) : t :=
  mk (session w) (selectedChatId w) false.

(** [toggleSidebar()] *)
Definition toggleSidebar (w : t) : t :=
  if isCollapsed w then expandSidebar w else collapseSidebar w.

(** [handleResize()], for a window [innerWidth] pixels wide *)
Definition handleResize (w : t) (innerWidth : Z) : t :=
  if (768 <? innerWidth)%Z && isCollapsed w then expandSidebar w
  else if (innerWidth <=? 768)%Z && negb (isCollapsed w)
       then collapseSidebar w
       else w.

Definition collapse_on_mobile (w : t) (innerWidth : Z) : t :=
  if (innerWidth <=? 768)%Z then collapseSidebar w else w.

(** [selectChat(chatId)] *)
Definition selectChat (w : t) (innerWidth : Z) (chatId : string) : t :=
  match StorageManager.getChat (ChatManager.store (session w)) chatId with
  | None => w
  | Some _ =>
      let loaded := fst (ChatManager.loadChat (session w) chatId) in
      let w1 := mk loaded (Some chatId) (isCollapsed w) in
      let w2 :=
        with_store w1
          (fst (StorageManager.setCurrentChat (ChatManager.store loaded)
                  chatId)) in
      collapse_on_mobile w2 innerWidth
  end.

(** [createNewChat()] *)
Definition createNewChat (w : t) (innerWidth : Z)
  (fr : StorageManager.Fresh) : t :=
  let created :=
    StorageManager.createNewChat (ChatManager.store (session w)) None fr in
  let w1 := with_store w (fst created) in
  match snd created with
  | Some chatId =>
      if JS.truthy chatId
      then collapse_on_mobile (selectChat w1 innerWidth chatId) innerWidth
      else w1
  | None => w1
  end.

(** [deleteChat(chatId)] *)
Definition deleteChat (w : t) (innerWidth : Z) (chatId : string)
  (fr : StorageManager.Fresh) : t :=
  let deleted :=
    StorageManager.deleteChat (ChatManager.store (session w)) chatId in
  if snd deleted then
    let w1 := with_store w (fst deleted) in
    match selectedChatId w with
    | Some selected =>
        if chatId =? selected then createNewChat w1 innerWidth fr else w1
    | None => w1
    end
  else w.

(** [clearAllChats()] *)
Definition clearAllChats (w : t) (innerWidth : Z)
  (fr : StorageManager.Fresh) : t :=
  let cleared :=
    StorageManager.clearAllChats (ChatManager.store (session w)) in
  if snd cleared then
    let w1 := with_store w (fst cleared) in
    createNewChat (mk (session w1) None (isCollapsed w1)) innerWidth fr
  else w.

(** What [formatDate] prints: the time of day, "Yesterday", a number of
    days ago, or the calendar date. *)
Inductive DateLabel : Type :=
| TimeOfDay
| Yesterday
| DaysAgo (days : Z)
| CalendarDate.

(** [formatDate(dateString)] for a valid date; [date] and [now] are the two
    instants in milliseconds. *)
Definition formatDate (date now : Z) : DateLabel :=
  let diffMs := (now - date)%Z in
  let diffDays := (diffMs / (1000 * 60 * 60 * 24))%Z in
  if (diffDays =? 0)%Z then TimeOfDay
  else if (diffDays =? 1)%Z then Yesterday
  else if (diffDays <? 7)%Z then DaysAgo diffDays
  else CalendarDate.

(** [getSelectedChatId()] *)
Definition getSelectedChatId (w : t) : option string := selectedChatId w.

End SidebarManager.

(** ** App *)

Module App.

(** The send handler that [setupMessageHandling()] installs, for an input
    field holding [value]. *)
Definition handleSendMessage (s : ChatManager.Session)
  (tk : ChatManager.Ticks) (value : string) : ChatManager.Session :=
  let message := UIManager.getInputValue value in
  if negb (JS.truthy message) then s
  else
    ChatManager.processUserInput
      (ChatManager.log s
         [ChatManager.SetSendButtonState false;
          ChatManager.AddMessage message "user" false None;
          ChatManager.ClearInput])
      tk message.

(** [sidebarManager.selectChat(id)] for an id that may be null: null
    identifies no chat. *)
Definition selectIfAny (w : SidebarManager.t) (innerWidth : Z)
  (chatId : option string) : SidebarManager.t :=
  match chatId with
  | Some id => SidebarManager.selectChat w innerWidth id
  | None => w
  end.

Definition with_session (w : SidebarManager.t) (s : ChatManager.Session)
  : SidebarManager.t :=
  SidebarManager.mk s (SidebarManager.selectedChatId w)
    (SidebarManager.isCollapsed w).

(** [initializeChat()], on a browser whose localStorage passes the write
    test of [isAvailable()]. *)
Definition initializeChat (w : SidebarManager.t) (innerWidth : Z)
  (fr : StorageManager.Fresh) : SidebarManager.t :=
  let st := ChatManager.store (SidebarManager.session w) in
  let currentChatId := StorageManager.getCurrentChatId st in
  let allChats := StorageManager.getAllChats st in
  let resume (id : string) :=
    SidebarManager.selectChat
      (with_session w
         (fst (ChatManager.loadChat (SidebarManager.session w) id)))
      innerWidth id in
  let otherwise :=
    match allChats with
    | mostRecentChat :: _ => resume (StorageManager.chat_id mostRecentChat)
    | [] =>
        let started :=
          ChatManager.startNewChat (SidebarManager.session w) None fr in
        selectIfAny (with_session w (fst started)) innerWidth (snd started)
    end in
  match currentChatId with
  | Some id =>
      if JS.truthy id
         && match StorageManager.getChat st id with
            | Some _ => true
            | None => false
            end
      then resume id
      else otherwise
  | None => otherwise
  end.

End App.

(** ** Vocabulary of the properties *)

(** Two code units are the same letter when they are equal or one is the
    lower-case form of the other. *)
Definition same_letter (a b : ascii) : bool :=
  Ascii.eqb a b
  || (JS.is_upper a && Ascii.eqb b (JS.lower_char a))
  || (JS.is_upper b && Ascii.eqb a (JS.lower_char b)).

(** Two strings differ by letter case only. *)
Fixpoint eq_upto_case (s t : string) : bool :=
  match s, t with
  | EmptyString, EmptyString => true
  | String a s', String b t' => same_letter a b && eq_upto_case s' t'
  | _, _ => false
  end.

(** A string made of white space only. *)
Fixpoint all_ws (s : string) : bool :=
  match s with
  | EmptyString => true
  | String c s' => JS.is_ws c && all_ws s'
  end.

(** [a] occurs inside [b] and is not the whole of it. *)
Definition strict_substring (a b : string) : bool :=
  JS.includes b a && negb (a =? b).

(** The input as [findMatch] compares it against a rule that is not case
    sensitive. *)
Definition normalize (input : string) : string :=
  JS.toLowerCase (JS.trim input).

Definition isWildcard (r : Rule) : bool :=
  match rmatch r with
  | MString m => m =? "*"
  | _ => false
  end.

(** The match text of a rule contains [kw]: a string match as a substring,
    a legacy list in one of its entries; a rule without a match text
    contains nothing. *)
Definition match_text_contains (m : MatchSpec) (kw : string) : bool :=
  match m with
  | MString s => JS.includes s kw
  | MArray terms => existsb (fun term => JS.includes term kw) terms
  | MOther => false
  end.

(** The priority of a rule as the specification reads it: the stored
    integer, and 999 when it is absent. *)
Definition declared_priority (r : Rule) : Z :=
  match priority r with
  | Some p => p
  | None => 999%Z
  end.

(** The contexts whose matcher has loaded its rules: the result of a
    [loadRules] call, possibly followed by storage events. *)
Inductive Running : MessageMatcher.t -> Prop :=
| running_loaded (env : MessageMatcher.Env) (mm0 : MessageMatcher.t) :
    Running (snd (MessageMatcher.loadRules env mm0))
| running_event (e : MessageMatcher.StorageEvent) (mm : MessageMatcher.t) :
    Running mm -> Running (MessageMatcher.dispatchStorage e mm).

(** One call [addMessageToChat(chatId, message)] together with the values
    it generates. *)
Record AppendCall : Type := mkCall {
  call_chat : string;
  call_message : StorageManager.MessageIn;
  call_fresh : StorageManager.Fresh
}.

(** The store after a sequence of [addMessageToChat] calls. *)
Fixpoint run_appends (st : StorageManager.Store) (calls : list AppendCall)
  : StorageManager.Store :=
  match calls with
  | [] => st
  | c :: rest =>
      run_appends
        (fst (StorageManager.addMessageToChat st (call_chat c)
                (call_message c) (call_fresh c)))
        rest
  end.

(** What a chat is expected to keep of a message sent to it: the type, the
    content, the response type and the follow-up prompts as they were
    passed, under the id and the timestamp generated for it. *)
Definition stored_message (fr : StorageManager.Fresh)
  (m : StorageManager.MessageIn) : StorageManager.Message :=
  StorageManager.mkMessage
    (StorageManager.fresh_id fr) (StorageManager.fresh_stamp fr)
    (StorageManager.in_type m) (StorageManager.in_content m)
    (StorageManager.in_responseType m) (StorageManager.in_followup m).

(** The messages that a sequence of calls sends to the chat [chatId], in
    order. *)
Definition sent_to (chatId : string) (calls : list AppendCall)
  : list StorageManager.Message :=
  map (fun c => stored_message (call_fresh c) (call_message c))
      (filter (fun c => call_chat c =? chatId) calls).

(** Ascending order of a key along a list. *)
Definition ascending (k : Rule -> Z) (rs : list Rule) : Prop :=
  StronglySorted (fun a b => (k a <= k b)%Z) rs.

(** The built-in apology of [getResponse]. *)
Definition apology : Response :=
  mkResponse "text" "I didn't understand that. Please try again." (Some []).

(** One mutating call on the session store. *)
Inductive StoreOp : Type :=
| OpCreate (ttl : option string) (fr : StorageManager.Fresh)
| OpAppend (chatId : string) (m : StorageManager.MessageIn)
    (fr : StorageManager.Fresh)
| OpDelete (chatId : string)
| OpClear
| OpSetCurrent (chatId : string).

Definition apply_op (st : StorageManager.Store) (op : StoreOp)
  : StorageManager.Store :=
  match op with
  | OpCreate ttl fr => fst (StorageManager.createNewChat st ttl fr)
  | OpAppend chatId m fr =>
      fst (StorageManager.addMessageToChat st chatId m fr)
  | OpDelete chatId => fst (StorageManager.deleteChat st chatId)
  | OpClear => fst (StorageManager.clearAllChats st)
  | OpSetCurrent chatId => fst (StorageManager.setCurrentChat st chatId)
  end.

Definition run_ops (st : StorageManager.Store) (ops : list StoreOp)
  : StorageManager.Store :=
  fold_left apply_op ops st.

(** A chat within its limits: the count mirrors the message list, which
    holds at most [maxMessagesPerChat] messages. *)
Definition chat_bounded (c : StorageManager.Chat) : Prop :=
  StorageManager.messageCount c = length (StorageManager.messages c)
  /\ length (StorageManager.messages c) <= StorageManager.maxMessagesPerChat.

(** A store within its limits. *)
Definition bounded (st : StorageManager.Store) : Prop :=
  match st with
  | None => True
  | Some data =>
      length (StorageManager.chats data) <= StorageManager.maxChats
      /\ Forall chat_bounded (StorageManager.chats data)
  end.

(** Every white-space code unit of the string is a plain space, and no two
    spaces are adjacent. *)
Fixpoint single_spaced (s : string) : bool :=
  match s with
  | EmptyString => true
  | String c s' =>
      (negb (JS.is_ws c) || Ascii.eqb c " ")
      && match s' with
         | String d _ => negb (JS.is_ws c && JS.is_ws d)
         | EmptyString => true
         end
      && single_spaced s'
  end.

(** The small letters a-z, U+00E0-U+00F6 and U+00F8-U+00FE: the code units
    whose capital is the code unit 32 below. *)
Definition small_letter (c : ascii) : bool :=
  let n := nat_of_ascii c in
  (((97 <=? n) && (n <=? 122)) || ((224 <=? n) && (n <=? 246))
   || ((248 <=? n) && (n <=? 254)))%nat.

(** The code units whose upper-case form lies outside U+0000..U+00FF: the
    micro sign U+00B5 and U+00FF. *)
Definition capital_out_of_range (c : ascii) : bool :=
  ((nat_of_ascii c =? 181) || (nat_of_ascii c =? 255))%nat.

(** [s] does not start with white space. *)
Definition starts_non_ws (s : string) : bool :=
  match s with
  | EmptyString => true
  | String c _ => negb (JS.is_ws c)
  end.

(** [s] ends with the three dots of an ellipsis. *)
Definition ends_with_ellipsis (s : string) : Prop :=
  exists t, s = t ++ "...".

(** The announcement that follows a delivery. *)
Definition announcement (d : ChatManager.Delivery) : ChatManager.UiCall :=
  ChatManager.Announce
    (if ChatManager.shown_isImage d then "Assistant sent an image response"
     else "Assistant: " ++ ChatManager.shown_value d).

(** The user message as [processUserMessage] stores it, and the history
    entries of a user message and of a reply. *)
Definition user_in (msg : string) : StorageManager.MessageIn :=
  StorageManager.mkIn "user" msg None None.

Definition user_entry (tk : ChatManager.Ticks) (msg : string)
  : ChatManager.HistoryEntry :=
  ChatManager.mkEntry None "user" msg None None (ChatManager.user_seen tk).

Definition reply_entry (tk : ChatManager.Ticks) (d : ChatManager.Delivery)
  : ChatManager.HistoryEntry :=
  ChatManager.mkEntry None "assistant" (ChatManager.shown_value d)
    (StorageManager.in_responseType (ChatManager.stored d))
    (StorageManager.in_followup (ChatManager.stored d))
    (ChatManager.reply_seen tk).

(** ** Sample data *)

Module Sample.

Import MessageMatcher.

(** A matcher that has loaded [rs] as they stand. *)
Definition ready (rs : list Rule) : MessageMatcher.t :=
  MessageMatcher.mk rs true 1.

Definition literal (m v : string) (p : option Z) : Rule :=
  mkRule (MString m) "text" v None None p None.

(** A rule whose match starts with a space, and one whose match is empty. *)
Definition padded_rule : Rule := literal " hi" "hello" (Some 1%Z).
Definition empty_rule : Rule := literal "" "nothing" (Some 1%Z).

(** Two rules for the same prompt, with priorities 0 and 5. *)
Definition zero_rule : Rule := literal "hi" "zero" (Some 0%Z).
Definition five_rule : Rule := literal "hi" "five" (Some 5%Z).

(** The embedded rules, by position. *)
Definition technical_rule : Rule := nth 4 getFallbackRules empty_rule.
Definition catch_all_rule : Rule := nth 5 getFallbackRules empty_rule.

(** A context that loaded its rules from an override holding [zero_rule]
    and [five_rule], in that order. *)
Definition zero_five_matcher : MessageMatcher.t :=
  snd (loadRules (mkEnv (Text (JRules [zero_rule; five_rule])) NetworkError)
         MessageMatcher.new).

(** A context that fell back to the embedded rules. *)
Definition fallback_matcher : MessageMatcher.t :=
  snd (loadRules (mkEnv Absent NetworkError) MessageMatcher.new).

(** An image rule that neither matches a prompt of the embedded rules nor
    mentions a generic keyword, and a context in image mode that loaded it
    together with the embedded rules. *)
Definition chart_rule : Rule :=
  mkRule (MString "Show me the org chart") "image" "assets/images/org.png"
    (Some false) (Some false) (Some 6%Z) (Some []).

Definition image_mode_manager : ChatManager.t :=
  ChatManager.mk
    (snd (loadRules
            (mkEnv (Text (JRules (chart_rule :: getFallbackRules)))
               NetworkError)
            MessageMatcher.new))
    true (Some "chat_1").

(** A session store with a fresh chat, which is current, and an older
    one. *)
Definition fresh_chat : StorageManager.Chat :=
  StorageManager.mkChat "chat_1" "New Chat" []
    "2024-01-02T10:00:00.000Z" "2024-01-02T10:00:00.000Z" 0.

Definition older_chat : StorageManager.Chat :=
  StorageManager.mkChat "chat_0" "Benefits"
    [StorageManager.mkMessage "msg_0" "2024-01-01T09:00:00.000Z" "user"
       "How do I access employee benefits information?" None None]
    "2024-01-01T09:00:00.000Z" "2024-01-01T09:00:00.000Z" 1.

Definition store : StorageManager.Store :=
  Some (StorageManager.mkData [fresh_chat; older_chat] (Some "chat_1")
          (StorageManager.mkSettings "2.0" "2024-01-01T08:00:00.000Z")).

Definition fresh : StorageManager.Fresh :=
  StorageManager.mkFresh "msg_1" "2024-01-02T10:01:00.000Z"
    "2024-01-02T10:01:00.001Z".

Definition hello : StorageManager.MessageIn :=
  StorageManager.mkIn "user" "Hello there, how are you doing today?"
    None None.

(** A chat that holds 100 numbered messages, a store with this chat and
    the older one, and three calls: two to the full chat with one to the
    older chat in between. *)
Definition numbered (i : nat) : StorageManager.Message :=
  StorageManager.mkMessage ("msg_" ++ ChatManager.decimal i)
    "2024-01-03T09:00:00.000Z" "user"
    ("Question " ++ ChatManager.decimal i) None None.

Definition full_chat : StorageManager.Chat :=
  StorageManager.mkChat "chat_9" "Question 0" (map numbered (seq 0 100))
    "2024-01-03T09:00:00.000Z" "2024-01-03T09:00:00.000Z" 100.

Definition full_store : StorageManager.Store :=
  Some (StorageManager.mkData [full_chat; older_chat] (Some "chat_9")
          (StorageManager.mkSettings "2.0" "2024-01-01T08:00:00.000Z")).

Definition reply : StorageManager.MessageIn :=
  StorageManager.mkIn "assistant" "I am fine." (Some "text") (Some []).

Definition later : StorageManager.Fresh :=
  StorageManager.mkFresh "msg_101" "2024-01-03T10:01:00.000Z"
    "2024-01-03T10:01:00.001Z".

Definition latest : StorageManager.Fresh :=
  StorageManager.mkFresh "msg_102" "2024-01-03T10:02:00.000Z"
    "2024-01-03T10:02:00.001Z".

Definition calls : list AppendCall :=
  [mkCall "chat_9" hello fresh; mkCall "chat_0" hello fresh;
   mkCall "chat_9" reply later].

(** A catch-all with the best priority, and a context that loaded it
    after the technical-issues rule. *)
Definition eager_catch_all : Rule :=
  mkRule (MString "*") "text" "Anything else?" None None (Some 1%Z) None.

Definition shadowing_matcher : MessageMatcher.t :=
  snd (loadRules
         (mkEnv (Text (JRules [technical_rule; eager_catch_all]))
            NetworkError)
         MessageMatcher.new).

(** A rule with a legacy array match, one of whose terms is an asterisk. *)
Definition legacy_rule : Rule :=
  mkRule (MArray ["Hello"; "*"]) "text" "Hi!" None None (Some 2%Z) None.

(** A chat manager in text mode on the embedded rules, at work on the
    sample store with the fresh chat as its current chat, and the values
    generated while it processes one message. *)
Definition session : ChatManager.Session :=
  ChatManager.mkSession
    (ChatManager.mk fallback_matcher false (Some "chat_1"))
    true [] store [].

Definition ticks : ChatManager.Ticks :=
  ChatManager.mkTicks
    (StorageManager.mkFresh "chat_2" "2024-01-02T10:02:00.000Z"
       "2024-01-02T10:02:00.001Z")
    fresh "2024-01-02T10:01:00.002Z"
    (StorageManager.mkFresh "msg_2" "2024-01-02T10:01:00.400Z"
       "2024-01-02T10:01:00.401Z")
    "2024-01-02T10:01:00.402Z".

(** An image rule without a match, and a chat manager in image mode that
    runs on it and on the embedded rules. *)
Definition matchless_rule : Rule :=
  mkRule MOther "image" "assets/images/none.png" None None (Some 7%Z) None.

Definition failing_session : ChatManager.Session :=
  ChatManager.mkSession
    (ChatManager.mk
       (snd (loadRules
               (mkEnv (Text (JRules (matchless_rule :: getFallbackRules)))
                  NetworkError)
               MessageMatcher.new))
       true (Some "chat_1"))
    true [] store [].

(** A chat manager that has no current chat yet, and one that works
    without a store. *)
Definition idle_session : ChatManager.Session :=
  ChatManager.mkSession (ChatManager.mk fallback_matcher false None)
    true [] store [].

Definition storeless_session : ChatManager.Session :=
  ChatManager.mkSession (ChatManager.mk fallback_matcher false None)
    true [] None [].

(** An image rule with a generic keyword, and a chat manager in image mode
    that runs on it and on the embedded rules. *)
Definition demo_rule : Rule :=
  mkRule (MString "Show me a demo") "image" "assets/images/demo.png"
    None None (Some 8%Z) (Some ["Show me a demo"]).

Definition demo_manager : ChatManager.t :=
  ChatManager.mk
    (snd (loadRules
            (mkEnv (Text (JRules (demo_rule :: getFallbackRules)))
               NetworkError)
            MessageMatcher.new))
    true (Some "chat_1").

(** The sidebar of the sample session, on a wide window. *)
Definition sidebar : SidebarManager.t :=
  SidebarManager.mk session (Some "chat_1") false.

End Sample.

(** ** Facts about the string primitives *)

Section StringFacts.

Import JS.

Ltac each_code_unit c :=
  destruct c as [[] [] [] [] [] [] [] []].

Lemma lower_char_idem (c : ascii) : lower_char (lower_char c) = lower_char c.
Proof. each_code_unit c; reflexivity. Qed.

Lemma lower_char_fixes_non_upper (c : ascii) :
  is_upper c = false -> lower_char c = c.
Proof. unfold lower_char; intros ->; reflexivity. Qed.

(** Lower-casing is injective on the code units it changes. *)
Lemma lower_char_undo (c : ascii) :
  is_upper c = true ->
  ascii_of_nat (nat_of_ascii (lower_char c) - 32) = c.
Proof. each_code_unit c; intros H; try reflexivity; discriminate H. Qed.

Lemma same_letter_lower (a b : ascii) :
  same_letter a b = true <-> lower_char a = lower_char b.
Proof.
  unfold same_letter; split.
  - intros H.
    apply orb_true_iff in H as [H | H];
      [apply orb_true_iff in H as [H | H] |].
    + apply Ascii.eqb_eq in H; now subst.
    + apply andb_true_iff in H as [_ H]; apply Ascii.eqb_eq in H.
      subst b; now rewrite lower_char_idem.
    + apply andb_true_iff in H as [_ H]; apply Ascii.eqb_eq in H.
      subst a; now rewrite lower_char_idem.
  - intros H.
    destruct (is_upper a) eqn:Ua; destruct (is_upper b) eqn:Ub; simpl.
    + assert (a = b) as ->.
      { rewrite <- (lower_char_undo a Ua), <- (lower_char_undo b Ub).
        now rewrite H. }
      now rewrite Ascii.eqb_refl.
    + rewrite (lower_char_fixes_non_upper b Ub) in H.
      rewrite H, Ascii.eqb_refl. now rewrite orb_true_r.
    + rewrite (lower_char_fixes_non_upper a Ua) in H.
      rewrite <- H, Ascii.eqb_refl. now rewrite !orb_true_r.
    + rewrite (lower_char_fixes_non_upper a Ua),
        (lower_char_fixes_non_upper b Ub) in H.
      subst b. now rewrite Ascii.eqb_refl.
Qed.

(** Strings that differ by letter case only are those with the same
    lower-case form. *)
Lemma eq_upto_case_lower (s t : string) :
  eq_upto_case s t = true <-> toLowerCase s = toLowerCase t.
Proof.
  revert t; induction s as [| a s IH]; intros [| b t]; simpl;
    try (split; [discriminate | discriminate]); try tauto.
  rewrite andb_true_iff, same_letter_lower, IH.
  split.
  - intros [-> ->]; reflexivity.
  - intros H; injection H; auto.
Qed.

Lemma toLowerCase_length (s : string) :
  String.length (toLowerCase s) = String.length s.
Proof. induction s; simpl; congruence. Qed.

Lemma truthy_true (s : string) : truthy s = true <-> s <> "".
Proof.
  unfold truthy. rewrite negb_true_iff. split.
  - intros H ->. discriminate H.
  - intros H. apply String.eqb_neq. exact H.
Qed.

Lemma prefix_length (a b : string) :
  prefix a b = true ->
  String.length a <= String.length b
  /\ (String.length a = String.length b -> a = b).
Proof.
  revert b; induction a as [| x a IH]; intros [| y b]; simpl;
    try discriminate.
  - intros _. split; [lia | reflexivity].
  - intros _. split; [lia | discriminate].
  - destruct (Ascii.ascii_dec x y) as [-> | _]; [| discriminate].
    intros H. destruct (IH b H) as [Hle Heq].
    split; [lia |]. intros E. f_equal. apply Heq. lia.
Qed.

Lemma includes_length (b a : string) :
  includes b a = true ->
  String.length a <= String.length b
  /\ (String.length a = String.length b -> a = b).
Proof.
  induction b as [| y b IH]; simpl; rewrite orb_true_iff.
  - intros [H | H]; [now apply (prefix_length a "") | discriminate].
  - intros [H | H]; [now apply (prefix_length a (String y b)) |].
    destruct (IH H) as [Hle _]. split; lia.
Qed.

(** A strict substring is strictly shorter. *)
Lemma strict_substring_shorter (a b : string) :
  strict_substring a b = true -> String.length a < String.length b.
Proof.
  unfold strict_substring. rewrite andb_true_iff, negb_true_iff.
  intros [Hi Hne]. apply String.eqb_neq in Hne.
  destruct (includes_length b a Hi) as [Hle Heq].
  destruct (Nat.eq_dec (String.length a) (String.length b)) as [E | E];
    [now elim Hne; apply Heq | lia].
Qed.

(** *** Trimming *)

Lemma trimStart_all_ws (pad : string) :
  all_ws pad = true -> trimStart pad = "".
Proof.
  induction pad as [| c pad IH]; simpl; [reflexivity |].
  intros H; apply andb_true_iff in H as [-> H]; auto.
Qed.

Lemma trimEnd_all_ws (pad : string) :
  all_ws pad = true -> trimEnd pad = "".
Proof.
  induction pad as [| c pad IH]; simpl; [reflexivity |].
  intros H; apply andb_true_iff in H as [-> H]. now rewrite IH.
Qed.

Lemma trimStart_app_ws_l (pad s : string) :
  all_ws pad = true -> trimStart (pad ++ s) = trimStart s.
Proof.
  induction pad as [| c pad IH]; simpl; [reflexivity |].
  intros H; apply andb_true_iff in H as [-> H]; auto.
Qed.

Lemma trimEnd_app_ws_r (s pad : string) :
  all_ws pad = true -> trimEnd (s ++ pad) = trimEnd s.
Proof.
  intros H; induction s as [| c s IH]; simpl.
  - now apply trimEnd_all_ws.
  - now rewrite IH.
Qed.

Lemma trim_app_ws_r (s pad : string) :
  all_ws pad = true -> trim (s ++ pad) = trim s.
Proof.
  intros H; unfold trim; induction s as [| c s IH]; simpl.
  - now rewrite trimStart_all_ws.
  - destruct (is_ws c); [exact IH |].
    change (String c (s ++ pad)) with (String c s ++ pad).
    now apply trimEnd_app_ws_r.
Qed.

(** White space around a text does not survive [trim]. *)
Lemma trim_padded (pad1 s pad2 : string) :
  all_ws pad1 = true -> all_ws pad2 = true ->
  trim (pad1 ++ s ++ pad2) = trim s.
Proof.
  intros H1 H2.
  transitivity (trim (s ++ pad2)).
  - unfold trim. now rewrite trimStart_app_ws_l.
  - now apply trim_app_ws_r.
Qed.

End StringFacts.

(** ** Facts about the priority sort *)

Section SortFacts.

Import MessageMatcher.

Lemma insert_rule_perm (r : Rule) (l : list Rule) :
  Permutation (insert_rule r l) (r :: l).
Proof.
  induction l as [| x l IH]; simpl; [apply Permutation_refl |].
  destruct (effective_priority r <=? effective_priority x)%Z.
  - apply Permutation_refl.
  - eapply perm_trans; [apply perm_skip, IH | apply perm_swap].
Qed.

(** Sorting keeps exactly the rules it was given. *)
Lemma sortByPriority_perm (rs : list Rule) :
  Permutation (sortByPriority rs) rs.
Proof.
  induction rs as [| r rs IH]; simpl; [constructor |].
  eapply perm_trans; [apply insert_rule_perm | now apply perm_skip].
Qed.

Lemma sortByPriority_In (rs : list Rule) (r : Rule) :
  In r (sortByPriority rs) <-> In r rs.
Proof.
  split; apply Permutation_in;
    [| apply Permutation_sym]; apply sortByPriority_perm.
Qed.

Lemma insert_rule_ascending (r : Rule) (l : list Rule) :
  ascending effective_priority l ->
  ascending effective_priority (insert_rule r l).
Proof.
  unfold ascending.
  induction 1 as [| x l Hl IH Hx]; simpl.
  - repeat constructor.
  - destruct (Z.leb_spec (effective_priority r) (effective_priority x)).
    + constructor; [now constructor |].
      constructor; [assumption |].
      eapply Forall_impl; [| exact Hx]. simpl; intros; lia.
    + constructor; [assumption |].
      eapply Permutation_Forall;
        [apply Permutation_sym, insert_rule_perm |].
      constructor; [lia | assumption].
Qed.

(** The sorted rule list is in ascending order of [priority || 999]. *)
Lemma sortByPriority_ascending (rs : list Rule) :
  ascending effective_priority (sortByPriority rs).
Proof.
  induction rs as [| r rs IH]; simpl.
  - constructor.
  - now apply insert_rule_ascending.
Qed.

Lemma insert_rule_filter (k : Z) (r : Rule) (l : list Rule) :
  filter (fun x => (effective_priority x =? k)%Z) (insert_rule r l)
  = filter (fun x => (effective_priority x =? k)%Z) (r :: l).
Proof.
  induction l as [| x l IH]; [reflexivity |].
  simpl insert_rule.
  destruct (Z.leb_spec (effective_priority r) (effective_priority x));
    [reflexivity |].
  simpl in *. rewrite IH.
  destruct (Z.eqb_spec (effective_priority x) k),
    (Z.eqb_spec (effective_priority r) k); try reflexivity; lia.
Qed.

(** The sort is stable: rules with the same key keep their order. *)
Lemma sortByPriority_stable (k : Z) (rs : list Rule) :
  filter (fun x => (effective_priority x =? k)%Z) (sortByPriority rs)
  = filter (fun x => (effective_priority x =? k)%Z) rs.
Proof.
  induction rs as [| r rs IH]; [reflexivity |].
  simpl sortByPriority. rewrite insert_rule_filter. simpl. now rewrite IH.
Qed.

Lemma filter_key_In (k : Z) (x : Rule) (l : list Rule) :
  In x (filter (fun y => (MessageMatcher.effective_priority y =? k)%Z) l) ->
  In x l.
Proof. intros H. now apply filter_In in H. Qed.

(** A stable sort has one possible result: two lists in ascending order of
    the key that list the rules of every key in the same order are equal.
    So whatever algorithm the engine's [sort] runs, it returns what
    [sortByPriority] computes. *)
Lemma stable_sort_unique (l1 l2 : list Rule) :
  ascending effective_priority l1 ->
  ascending effective_priority l2 ->
  (forall k, filter (fun y => (effective_priority y =? k)%Z) l1
             = filter (fun y => (effective_priority y =? k)%Z) l2) ->
  l1 = l2.
Proof.
  unfold ascending. intros S1. revert l2.
  induction S1 as [| x l1 S1 IH Hx]; intros l2 S2 Hf.
  - destruct l2 as [| y l2]; [reflexivity |].
    specialize (Hf (effective_priority y)). simpl in Hf.
    rewrite Z.eqb_refl in Hf. discriminate.
  - destruct S2 as [| y l2 S2 Hy].
    + specialize (Hf (effective_priority x)). simpl in Hf.
      rewrite Z.eqb_refl in Hf. discriminate.
    + rewrite Forall_forall in Hx, Hy.
      assert (Hxy : (effective_priority y <= effective_priority x)%Z).
      { pose proof (Hf (effective_priority x)) as E. simpl in E.
        rewrite Z.eqb_refl in E.
        destruct (Z.eqb_spec (effective_priority y) (effective_priority x));
          [lia |].
        apply Hy, (filter_key_In (effective_priority x)).
        rewrite <- E. now left. }
      assert (Hyx : (effective_priority x <= effective_priority y)%Z).
      { pose proof (Hf (effective_priority y)) as E. simpl in E.
        rewrite Z.eqb_refl in E.
        destruct (Z.eqb_spec (effective_priority x) (effective_priority y));
          [lia |].
        apply Hx, (filter_key_In (effective_priority y)).
        rewrite E. now left. }
      assert (Exy : x = y).
      { pose proof (Hf (effective_priority x)) as E. simpl in E.
        rewrite Z.eqb_refl in E.
        replace (effective_priority y =? effective_priority x)%Z
          with true in E by (symmetry; apply Z.eqb_eq; lia).
        now injection E. }
      subst y. f_equal. apply IH; [exact S2 |].
      intros k. specialize (Hf k). simpl in Hf.
      destruct (effective_priority x =? k)%Z; [now injection Hf | exact Hf].
Qed.

Corollary sortByPriority_unique (rs sorted : list Rule) :
  ascending effective_priority sorted ->
  (forall k, filter (fun y => (effective_priority y =? k)%Z) sorted
             = filter (fun y => (effective_priority y =? k)%Z) rs) ->
  sorted = sortByPriority rs.
Proof.
  intros Hs Hf. apply stable_sort_unique;
    [exact Hs | apply sortByPriority_ascending |].
  intros k. now rewrite sortByPriority_stable.
Qed.

(** The first hit of a search along an ascending list has the least key
    among all hits. *)
Lemma find_ascending_least (k : Rule -> Z) (p : Rule -> bool)
  (l : list Rule) (r : Rule) :
  ascending k l -> find p l = Some r ->
  forall r', In r' l -> p r' = true -> (k r <= k r')%Z.
Proof.
  unfold ascending.
  induction 1 as [| x l Hl IH Hx]; simpl; [discriminate |].
  intros Hf r' Hin Hp.
  destruct (p x) eqn:Px.
  - injection Hf as <-. destruct Hin as [<- | Hin]; [lia |].
    rewrite Forall_forall in Hx. now apply Hx.
  - destruct Hin as [<- | Hin]; [congruence |]. now apply IH.
Qed.

Lemma effective_priority_declared (r : Rule) :
  priority r <> Some 0%Z -> effective_priority r = declared_priority r.
Proof.
  unfold effective_priority, declared_priority.
  destruct (priority r) as [p |]; [| reflexivity].
  intros H. destruct (Z.eqb_spec p 0); [subst; congruence | reflexivity].
Qed.

End SortFacts.

(** ** Facts about matching *)

Section MatchFacts.

Import MessageMatcher.

Lemma matchesRule_literal (input : string) (r : Rule) (m : string) :
  rmatch r = MString m -> m <> "*" ->
  matchesRule input r
  = (prepare (caseSensitiveOf r) input =? prepare (caseSensitiveOf r) m).
Proof.
  intros Hm Hstar. unfold matchesRule. rewrite Hm.
  apply String.eqb_neq in Hstar. now rewrite Hstar.
Qed.

Lemma matchesRule_wildcard (input : string) (r : Rule) :
  isWildcard r = true -> matchesRule input r = true.
Proof.
  unfold isWildcard, matchesRule.
  destruct (rmatch r) as [m | |]; try discriminate.
  now intros ->.
Qed.

Lemma findMatch_ready (mm : t) (input : string) :
  isLoaded mm = true -> JS.trim input <> "" ->
  findMatch mm input = find (matchesRule (JS.trim input)) (rules mm).
Proof.
  intros Hl Hne. unfold findMatch. rewrite Hl. simpl.
  apply truthy_true in Hne. now rewrite Hne.
Qed.

Lemma findMatch_sound (mm : t) (input : string) (r : Rule) :
  findMatch mm input = Some r ->
  In r (rules mm) /\ matchesRule (JS.trim input) r = true.
Proof.
  unfold findMatch.
  destruct (negb (isLoaded mm)); [discriminate |].
  destruct (negb (JS.truthy (JS.trim input))); [discriminate |].
  apply find_some.
Qed.

Lemma find_first (p : Rule -> bool) (pre post : list Rule) (r : Rule) :
  (forall x, In x pre -> p x = false) -> p r = true ->
  find p (pre ++ r :: post)%list = Some r.
Proof.
  intros Hpre Hr. induction pre as [| x pre IH]; simpl.
  - now rewrite Hr.
  - rewrite (Hpre x (or_introl eq_refl)). apply IH.
    intros y Hy. apply Hpre. now right.
Qed.

Lemma find_exists (p : Rule -> bool) (l : list Rule) (r : Rule) :
  In r l -> p r = true -> exists r0, find p l = Some r0.
Proof.
  intros Hin Hp. destruct (find p l) as [r0 |] eqn:F; [now exists r0 |].
  now rewrite (find_none _ _ F r Hin) in Hp.
Qed.

End MatchFacts.

(** ** Exact matching (C1) *)

Section ExactMatch.

Import MessageMatcher.

(** C1, as stated, fails: a rule that is not case sensitive and whose match
    is the literal " hi" is not found for the input " hi", which is its match
    letter for letter, because only the input is trimmed; and a rule whose
    match is the empty string is not found for the empty input, because an
    input that is empty after trimming is answered with no match at all. *)
Lemma C1_untrimmed_or_empty_match_not_found :
  (caseSensitiveOf Sample.padded_rule = false
   /\ rmatch Sample.padded_rule = MString " hi"
   /\ eq_upto_case " hi" " hi" = true
   /\ findMatch (Sample.ready [Sample.padded_rule]) " hi" = None)
  /\ (caseSensitiveOf Sample.empty_rule = false
      /\ rmatch Sample.empty_rule = MString ""
      /\ eq_upto_case "" "" = true
      /\ findMatch (Sample.ready [Sample.empty_rule]) "" = None).
Proof. repeat split; reflexivity. Qed.

(** C1, amended.  Take a rule of a loaded set that is not case sensitive and
    whose match is a literal string other than the wildcard.  For every
    input made of a non-empty text without white space at its ends that
    equals the match, as stored, up to letter case, with any white space
    around it, the rule matches and [findMatch] finds a match; it returns
    this very rule when no earlier rule of the set matches.  For every input
    whose trimmed, lower-cased form is a strict substring or a strict
    superstring of the match, taken lower-cased or as stored, the rule does
    not match and [findMatch] does not return it. *)
Theorem C1_exact_match_of_literal_rule :
  forall (mm : MessageMatcher.t) (pre post : list Rule) (r : Rule)
         (m : string),
    isLoaded mm = true ->
    rules mm = (pre ++ r :: post)%list ->
    rmatch r = MString m -> m <> "*" ->
    caseSensitiveOf r = false ->
    (forall pad1 core pad2 : string,
        all_ws pad1 = true -> all_ws pad2 = true ->
        core <> "" -> JS.trim core = core ->
        eq_upto_case core m = true ->
        matchesRule (JS.trim (pad1 ++ core ++ pad2)) r = true
        /\ findMatch mm (pad1 ++ core ++ pad2) <> None
        /\ ((forall x, In x pre -> matchesRule core x = false) ->
            findMatch mm (pad1 ++ core ++ pad2) = Some r))
    /\ (forall input : string,
           strict_substring (normalize input) (JS.toLowerCase m) = true
           \/ strict_substring (JS.toLowerCase m) (normalize input) = true
           \/ strict_substring (normalize input) m = true
           \/ strict_substring m (normalize input) = true ->
           matchesRule (JS.trim input) r = false
           /\ findMatch mm input <> Some r).
Proof.
  intros mm pre post r m Hl Hrules Hm Hstar Hcs. split.
  - intros pad1 core pad2 H1 H2 Hne Htrim Heq.
    assert (Ht : JS.trim (pad1 ++ core ++ pad2) = core)
      by (now rewrite trim_padded).
    assert (Hr : matchesRule core r = true).
    { rewrite (matchesRule_literal _ _ _ Hm Hstar), Hcs. simpl.
      apply String.eqb_eq. now apply eq_upto_case_lower. }
    rewrite (findMatch_ready mm _ Hl), Ht, Hrules by (now rewrite Ht).
    repeat split.
    + exact Hr.
    + destruct (find_exists (matchesRule core) (pre ++ r :: post) r)
        as [r0 ->]; [apply in_elt | exact Hr | discriminate].
    + intros Hpre. now apply find_first.
  - intros input Hsub.
    assert (Hno : matchesRule (JS.trim input) r = false).
    { rewrite (matchesRule_literal _ _ _ Hm Hstar), Hcs. simpl.
      apply String.eqb_neq. intros E.
      assert (El : String.length (normalize input) = String.length m).
      { unfold normalize. now rewrite E, toLowerCase_length. }
      pose proof (toLowerCase_length m) as Em.
      destruct Hsub as [H | [H | [H | H]]];
        apply strict_substring_shorter in H; lia. }
    split; [exact Hno |].
    intros Hf. apply findMatch_sound in Hf as [_ Hf]. congruence.
Qed.

(** The technical-issues prompt, in capitals and with white space around
    it, is answered by its rule; a fragment of the prompt is not. *)
Lemma C1_exact_match_witness :
  findMatch Sample.fallback_matcher "  CAN YOU HELP WITH TECHNICAL ISSUES? "
  = Some Sample.technical_rule
  /\ findMatch Sample.fallback_matcher "Can you help"
     <> Some Sample.technical_rule.
Proof.
  destruct (C1_exact_match_of_literal_rule Sample.fallback_matcher
              (firstn 4 getFallbackRules) [Sample.catch_all_rule]
              Sample.technical_rule "Can you help with technical issues?"
              eq_refl eq_refl eq_refl) as [Hpos Hneg].
  - discriminate.
  - reflexivity.
  - split.
    + apply (Hpos "  " "CAN YOU HELP WITH TECHNICAL ISSUES?" " ");
        try reflexivity; [discriminate |].
      intros x [<- | [<- | [<- | [<- | []]]]]; reflexivity.
    + apply (Hneg "Can you help"). left. reflexivity.
Defined.

End ExactMatch.

(** ** Priority precedence (C2) and catch-all coverage (C3) *)

Section Precedence.

Import MessageMatcher.

(** Among the rules that match an input, [findMatch] on a sorted set returns
    one whose [priority || 999] is least. *)
Lemma findMatch_least_effective_priority
  (rs : list Rule) (mm : MessageMatcher.t) (input : string) (r : Rule) :
  rules mm = sortByPriority rs ->
  findMatch mm input = Some r ->
  forall r', In r' rs -> matchesRule (JS.trim input) r' = true ->
             (effective_priority r <= effective_priority r')%Z.
Proof.
  intros Hrules Hf r' Hin Hp.
  unfold findMatch in Hf.
  destruct (negb (isLoaded mm)); [discriminate |].
  destruct (negb (JS.truthy (JS.trim input))); [discriminate |].
  rewrite Hrules in Hf.
  eapply find_ascending_least; eauto using sortByPriority_ascending.
  now apply sortByPriority_In.
Qed.

(** When no rule of the set carries the priority 0, the rule returned has
    the least declared priority among the matching rules, so of two matching
    rules with distinct priorities the one with the higher value is never
    returned. *)
Lemma findMatch_precedence_without_zero
  (rs : list Rule) (mm : MessageMatcher.t) (input : string)
  (r lo hi : Rule) :
  (forall x, In x rs -> priority x <> Some 0%Z) ->
  rules mm = sortByPriority rs ->
  findMatch mm input = Some r ->
  In lo rs -> matchesRule (JS.trim input) lo = true ->
  (declared_priority lo < declared_priority hi)%Z ->
  (declared_priority r <= declared_priority lo)%Z /\ r <> hi.
Proof.
  intros Hnz Hrules Hf Hlo Hmlo Hlt.
  pose proof (findMatch_least_effective_priority rs mm input r Hrules Hf
                lo Hlo Hmlo) as Hle.
  assert (Hr : In r rs).
  { apply findMatch_sound in Hf as [Hr _]. rewrite Hrules in Hr.
    now apply sortByPriority_In. }
  rewrite !effective_priority_declared in Hle by auto.
  split; [exact Hle |]. intros ->. lia.
Qed.

(** C2, as stated, fails for the priority 0.  Both sample rules match the
    input "hi"; [zero_rule] has the numerically lower priority (0 against
    5), yet after loading the set [findMatch] returns [five_rule]: the sort
    key [priority || 999] reads the priority 0 as 999. *)
Lemma C2_priority_zero_is_sorted_last :
  matchesRule "hi" Sample.zero_rule = true
  /\ matchesRule "hi" Sample.five_rule = true
  /\ declared_priority Sample.zero_rule = 0%Z
  /\ declared_priority Sample.five_rule = 5%Z
  /\ rules Sample.zero_five_matcher = [Sample.five_rule; Sample.zero_rule]
  /\ findMatch Sample.zero_five_matcher "hi" = Some Sample.five_rule.
Proof. repeat split; reflexivity. Qed.

(** C2, amended.  Read the priority of a rule as its stored integer, and as
    999 when it is absent or 0.  For every loaded, sorted rule set and every
    input that is not empty after trimming, if two rules of the set both
    match the input and their priorities differ, [findMatch] returns a
    matching rule whose priority is at most the lower of the two, hence not
    the rule with the higher value; it returns the rule with the lower value
    when these two are the only rules that match. *)
Theorem C2_priority_precedence :
  forall (rs : list Rule) (mm : MessageMatcher.t) (input : string)
         (lo hi : Rule),
    isLoaded mm = true ->
    rules mm = sortByPriority rs ->
    JS.trim input <> "" ->
    In lo rs -> In hi rs ->
    matchesRule (JS.trim input) lo = true ->
    matchesRule (JS.trim input) hi = true ->
    (effective_priority lo < effective_priority hi)%Z ->
    exists r,
      findMatch mm input = Some r
      /\ matchesRule (JS.trim input) r = true
      /\ (effective_priority r <= effective_priority lo)%Z
      /\ r <> hi
      /\ ((forall x, In x rs -> matchesRule (JS.trim input) x = true ->
                     x = lo \/ x = hi) -> r = lo).
Proof.
  intros rs mm input lo hi Hl Hrules Hne Hlo Hhi Mlo Mhi Hlt.
  destruct (find_exists (matchesRule (JS.trim input)) (rules mm) lo)
    as [r Hr]; [rewrite Hrules; now apply sortByPriority_In | exact Mlo |].
  rewrite <- (findMatch_ready mm input Hl Hne) in Hr.
  exists r.
  pose proof (findMatch_least_effective_priority rs mm input r Hrules Hr
                lo Hlo Mlo) as Hle.
  destruct (findMatch_sound mm input r Hr) as [Hin Hm].
  rewrite Hrules in Hin. apply (proj1 (sortByPriority_In _ _)) in Hin.
  assert (Hneq : r <> hi) by (intros ->; lia).
  repeat split; try assumption.
  intros Honly. destruct (Honly r Hin Hm); [assumption | contradiction].
Qed.

(** On the embedded rules the technical-issues prompt matches its own rule
    (priority 5) and the catch-all (priority 999), and nothing else; the
    rule of priority 5 is returned. *)
Lemma C2_priority_precedence_witness :
  exists r,
    findMatch Sample.fallback_matcher "Can you help with technical issues?"
    = Some r
    /\ r = Sample.technical_rule.
Proof.
  destruct (C2_priority_precedence getFallbackRules Sample.fallback_matcher
              "Can you help with technical issues?"
              Sample.technical_rule Sample.catch_all_rule)
    as [r [Hf [_ [_ [_ Honly]]]]];
    try reflexivity; try discriminate; try (simpl; tauto).
  exists r. split; [exact Hf |]. apply Honly.
  intros x [<- | [<- | [<- | [<- | [<- | [<- | []]]]]]] Hx;
    try discriminate Hx; auto.
Defined.

Lemma find_agree (p q : Rule -> bool) (l : list Rule) :
  (forall x, In x l -> p x = q x) -> find p l = find q l.
Proof.
  induction l as [| x l IH]; simpl; [reflexivity |].
  intros H. rewrite (H x (or_introl eq_refl)).
  destruct (q x); [reflexivity |]. apply IH. intros y Hy. apply H. now right.
Qed.

(** C3.  In a loaded rule set that contains a wildcard rule, an input that
    is not empty after trimming and that differs, under each rule's own case
    normalization, from every literal match of the set (the terms of legacy
    array matches included) is answered with the wildcard rule, the first
    one in stored order; the result is never null. *)
Theorem C3_catch_all_coverage :
  forall (mm : MessageMatcher.t) (input : string) (w : Rule),
    isLoaded mm = true ->
    In w (rules mm) -> rmatch w = MString "*" ->
    JS.trim input <> "" ->
    (forall r m, In r (rules mm) -> rmatch r = MString m -> m <> "*" ->
        prepare (caseSensitiveOf r) (JS.trim input)
        <> prepare (caseSensitiveOf r) m) ->
    (forall r terms term, In r (rules mm) -> rmatch r = MArray terms ->
        In term terms ->
        prepare (caseSensitiveOf r) (JS.trim input)
        <> prepare (caseSensitiveOf r) term) ->
    exists w', findMatch mm input = Some w'
               /\ rmatch w' = MString "*"
               /\ find isWildcard (rules mm) = Some w'.
Proof.
  intros mm input w Hl Hw Hstar Hne Hlit Harr.
  rewrite (findMatch_ready mm input Hl Hne).
  assert (Hagree : forall x, In x (rules mm) ->
                     matchesRule (JS.trim input) x = isWildcard x).
  { intros x Hx. unfold matchesRule, isWildcard.
    destruct (rmatch x) as [m | terms |] eqn:Ex; [| | reflexivity].
    - destruct (String.eqb_spec m "*") as [| Hm]; [reflexivity |].
      apply String.eqb_neq. eauto.
    - destruct (existsb _ terms) eqn:Eb; [| reflexivity].
      apply existsb_exists in Eb as [term [Hin Eb]].
      apply String.eqb_eq in Eb. now apply (Harr x terms term) in Eb. }
  rewrite (find_agree _ _ _ Hagree).
  destruct (find_exists isWildcard (rules mm) w Hw) as [w' Hw'].
  { unfold isWildcard. now rewrite Hstar. }
  exists w'. repeat split; [exact Hw' | | exact Hw'].
  apply find_some in Hw' as [_ Hw']. unfold isWildcard in Hw'.
  destruct (rmatch w') as [m | |]; try discriminate.
  apply String.eqb_eq in Hw'. now subst.
Qed.

(** An unknown prompt sent to the embedded rules gets the catch-all rule. *)
Lemma C3_catch_all_witness :
  exists w', findMatch Sample.fallback_matcher " What time is it? " = Some w'
             /\ rmatch w' = MString "*"
             /\ find isWildcard (rules Sample.fallback_matcher) = Some w'.
Proof.
  apply (C3_catch_all_coverage Sample.fallback_matcher " What time is it? "
           Sample.catch_all_rule eq_refl).
  - simpl. tauto.
  - reflexivity.
  - discriminate.
  - intros r m [<- | [<- | [<- | [<- | [<- | [<- | []]]]]]] Hm Hs;
      injection Hm as <-; discriminate.
  - intros r terms term [<- | [<- | [<- | [<- | [<- | [<- | []]]]]]] Hm;
      discriminate Hm.
Defined.

End Precedence.

(** ** Loading (C4) and cross-tab synchronisation (C5) *)

Section Loading.

Import MessageMatcher.

Lemma install_spec (rs : list Rule) (mm : MessageMatcher.t) :
  rules (install rs mm) = sortByPriority rs
  /\ isLoaded (install rs mm) = true
  /\ listeners (install rs mm) = S (listeners mm).
Proof. repeat split. Qed.

(** [loadRules] always terminates normally with a loaded matcher, one more
    listener, and rules in ascending order of [priority || 999]. *)
Lemma loadRules_always_ready (env : Env) (mm : MessageMatcher.t) :
  let mm' := snd (loadRules env mm) in
  isLoaded mm' = true
  /\ listeners mm' = S (listeners mm)
  /\ ascending effective_priority (rules mm').
Proof.
  assert (H : exists rs, snd (loadRules env mm) = install rs mm).
  { unfold loadRules, loadRules_try.
    destruct env as [[| [| | | rs]] [| | [| | | rs']]]; simpl;
      eauto. }
  destruct H as [rs ->]. simpl. repeat split.
  apply sortByPriority_ascending.
Qed.

(** An override that holds a rules array is the only source touched. *)
Lemma loadRules_override (rs : list Rule) (f : Fetched)
  (mm : MessageMatcher.t) :
  loadRules (mkEnv (Text (JRules rs)) f) mm = ([Override], install rs mm).
Proof. reflexivity. Qed.

(** Without an override, or with one that parses but holds no rules array,
    the fetched document is used when it holds a rules array. *)
Lemma loadRules_fetched (item : Item) (rs : list Rule)
  (mm : MessageMatcher.t) :
  item = Absent \/ item = Text JNoRules ->
  loadRules (mkEnv item (Body (JRules rs))) mm
  = ([Override; FetchedDefault], install rs mm).
Proof. intros [-> | ->]; reflexivity. Qed.

(** Without a usable override and without a usable fetched document, the
    embedded rules are used. *)
Lemma loadRules_embedded (item : Item) (f : Fetched)
  (mm : MessageMatcher.t) :
  item = Absent \/ item = Text JNoRules ->
  (forall rs, f <> Body (JRules rs)) ->
  loadRules (mkEnv item f) mm
  = ([Override; FetchedDefault; Embedded], install getFallbackRules mm).
Proof.
  intros Hi Hf.
  destruct f as [| | [| | | rs]]; try (now elim (Hf rs));
    destruct Hi as [-> | ->]; reflexivity.
Qed.

(** C4 fails on the code for an override whose text does not parse.  The
    exception of [JSON.parse] is raised inside the one [try] block, so the
    handler installs the embedded rules at once: the fetched default source
    is never attempted, although it holds a rules array. *)
Theorem C4_unparseable_override_skips_fetched_default :
  forall (rs : list Rule) (mm : MessageMatcher.t),
    loadRules (mkEnv (Text SyntaxError) (Body (JRules rs))) mm
    = ([Override; Embedded], install getFallbackRules mm).
Proof. reflexivity. Qed.

Lemma onStorage_idem (e : StorageEvent) (mm : MessageMatcher.t) :
  onStorage e (onStorage e mm) = onStorage e mm.
Proof.
  unfold onStorage, storageListener.
  destruct (key e) as [k |]; [| reflexivity].
  destruct (newValue e) as [| p]; [reflexivity |].
  destruct (k =? "chatRules"); [| reflexivity].
  destruct p; reflexivity.
Qed.

Lemma dispatchStorage_once (e : StorageEvent) (mm : MessageMatcher.t) :
  listeners mm <> 0 -> dispatchStorage e mm = onStorage e mm.
Proof.
  unfold dispatchStorage.
  destruct (listeners mm) as [| n]; [congruence |]. intros _.
  induction n as [| n IH]; [reflexivity |].
  change (Nat.iter (S (S n)) (onStorage e) mm)
    with (onStorage e (Nat.iter (S n) (onStorage e) mm)).
  now rewrite IH, onStorage_idem.
Qed.

(** A notification for the rules key whose payload holds a rules array
    replaces the rule set of a listening context by the payload's rules,
    sorted by [priority || 999]; nothing else of the context changes. *)
Lemma dispatchStorage_replaces (rs : list Rule) (mm : MessageMatcher.t) :
  listeners mm <> 0 ->
  dispatchStorage (mkEvent (Some "chatRules") (Text (JRules rs))) mm
  = MessageMatcher.mk (sortByPriority rs) (isLoaded mm) (listeners mm).
Proof. intros H. now rewrite dispatchStorage_once. Qed.

Lemma ascending_declared (l : list Rule) :
  (forall x, In x l -> priority x <> Some 0%Z) ->
  ascending effective_priority l -> ascending declared_priority l.
Proof.
  unfold ascending. intros Hnz.
  induction 1 as [| x l Hl IH Hx]; constructor.
  - apply IH. intros y Hy. apply Hnz. now right.
  - rewrite Forall_forall in *. intros y Hy.
    rewrite <- !effective_priority_declared;
      [now apply Hx | apply Hnz; now right | apply Hnz; now left].
Qed.

(** When no rule of the payload carries the priority 0, the new rule set is
    in ascending order of the declared priorities. *)
Lemma dispatchStorage_ascending_without_zero
  (rs : list Rule) (mm : MessageMatcher.t) :
  listeners mm <> 0 ->
  (forall x, In x rs -> priority x <> Some 0%Z) ->
  ascending declared_priority
    (rules (dispatchStorage
              (mkEvent (Some "chatRules") (Text (JRules rs))) mm)).
Proof.
  intros H Hnz. rewrite dispatchStorage_replaces by exact H. simpl.
  apply ascending_declared.
  - intros x Hx. apply Hnz. now apply sortByPriority_In.
  - apply sortByPriority_ascending.
Qed.

Lemma Running_listens (mm : MessageMatcher.t) :
  Running mm -> listeners mm <> 0 /\ isLoaded mm = true.
Proof.
  induction 1 as [env mm0 | e mm _ [IHl IHr]].
  - destruct (loadRules_always_ready env mm0) as [H1 [H2 _]].
    rewrite H2. split; [discriminate | exact H1].
  - rewrite (dispatchStorage_once e mm IHl). unfold onStorage, storageListener.
    destruct (key e) as [k |]; [| tauto].
    destruct (newValue e) as [| p]; [tauto |].
    destruct (k =? "chatRules"); [| tauto].
    destruct p; simpl; tauto.
Qed.

(** C5, as stated, fails for a payload with a rule of priority 0.  The
    context that runs on the embedded rules receives the payload
    [zero_rule; five_rule]; its rule set becomes [five_rule; zero_rule],
    which holds the payload's rules and none of the old ones but is not in
    ascending order of priority (5 comes before 0). *)
Lemma C5_sync_priority_zero_not_ascending :
  Running Sample.fallback_matcher
  /\ rules (dispatchStorage
              (mkEvent (Some "chatRules")
                 (Text (JRules [Sample.zero_rule; Sample.five_rule])))
              Sample.fallback_matcher)
     = [Sample.five_rule; Sample.zero_rule]
  /\ ~ ascending declared_priority [Sample.five_rule; Sample.zero_rule].
Proof.
  split; [apply running_loaded |].
  split; [reflexivity |].
  intros H. inversion H as [| a l _ Hall]; subst.
  inversion Hall as [| b l' Hle _]; subst.
  vm_compute in Hle. now apply Hle.
Qed.

(** C5, amended.  Read the priority of a rule as its stored integer, and as
    999 when it is absent or 0.  For every context whose matcher has loaded
    rules and every notification for the rules key whose payload holds a
    rules array, the notification turns the context, in one step, into the
    same context with its rule set replaced by the stable priority sort of
    the payload's rules: the new set is a rearrangement of the payload's
    rules (so every rule in it comes from the payload, whatever the prior
    set was), it is in ascending order of priority, and rules of equal
    priority keep the order they have in the payload. *)
Theorem C5_sync_replaces_rule_set :
  forall (mm : MessageMatcher.t) (payload : list Rule),
    Running mm ->
    let mm' := dispatchStorage
                 (mkEvent (Some "chatRules") (Text (JRules payload))) mm in
    mm' = MessageMatcher.mk (sortByPriority payload) (isLoaded mm)
            (listeners mm)
    /\ Permutation (getAllRules mm') payload
    /\ (forall r, In r (getAllRules mm') -> In r payload)
    /\ ascending effective_priority (getAllRules mm')
    /\ (forall k,
          filter (fun x => (effective_priority x =? k)%Z) (getAllRules mm')
          = filter (fun x => (effective_priority x =? k)%Z) payload).
Proof.
  intros mm payload Hrun mm'.
  assert (E : mm' = MessageMatcher.mk (sortByPriority payload) (isLoaded mm)
                      (listeners mm)).
  { apply dispatchStorage_replaces. now apply Running_listens. }
  rewrite E. unfold getAllRules. simpl. repeat split.
  - apply sortByPriority_perm.
  - intros r. apply sortByPriority_In.
  - apply sortByPriority_ascending.
  - intros k. apply sortByPriority_stable.
Qed.

(** The context that runs on the embedded rules receives a payload of two
    rules and holds exactly these two afterwards. *)
Lemma C5_sync_witness :
  getAllRules
    (dispatchStorage
       (mkEvent (Some "chatRules")
          (Text (JRules [Sample.five_rule; Sample.padded_rule])))
       Sample.fallback_matcher)
  = [Sample.padded_rule; Sample.five_rule].
Proof.
  destruct (C5_sync_replaces_rule_set Sample.fallback_matcher
              [Sample.five_rule; Sample.padded_rule]
              (running_loaded (mkEnv Absent NetworkError) MessageMatcher.new))
    as [E _].
  rewrite E. reflexivity.
Defined.

End Loading.

(** ** Modality fallback (C6) *)

Section Modality.

Import MessageMatcher ChatManager.

Lemma filterE_none (p : Rule -> Exc bool) (l : list Rule) :
  (forall x, In x l -> p x = Ok false) -> filterE p l = Ok [].
Proof.
  induction l as [| x l IH]; simpl; [reflexivity |].
  intros H. rewrite (H x (or_introl eq_refl)). simpl.
  rewrite IH; [reflexivity |]. intros y Hy. apply H. now right.
Qed.

(** Without a matching image rule and without a generic image rule,
    [findImageAlternative] returns null. *)
Lemma findImageAlternative_none (cm : ChatManager.t) (userMessage : string) :
  (forall x, In x (getAllRules (messageMatcher cm)) -> rtype x = "image" ->
             matchesRule userMessage x = false) ->
  (forall x, In x (getAllRules (messageMatcher cm)) -> rtype x = "image" ->
             match_includes (rmatch x) "demo" = Ok false
             /\ match_includes (rmatch x) "screenshot" = Ok false) ->
  findImageAlternative cm userMessage = Ok None.
Proof.
  intros Hmatch Hgen. unfold findImageAlternative.
  destruct (find _ (getAllRules (messageMatcher cm))) as [x |] eqn:F.
  - apply find_some in F as [Hin F]. apply andb_true_iff in F as [Ht Hm].
    apply String.eqb_eq in Ht. rewrite (Hmatch x Hin Ht) in Hm. discriminate.
  - rewrite filterE_none; [reflexivity |].
    intros x Hin. unfold isGenericImageRule.
    destruct (String.eqb_spec (rtype x) "image") as [Ht | _];
      [| reflexivity].
    destruct (Hgen x Hin Ht) as [-> ->]. reflexivity.
Qed.

(** C6, as stated, fails on a rule set that holds an image rule without a
    match text.  The context runs in image mode on the embedded rules and
    such a rule.  The technical-issues prompt is matched by a text rule, no
    image rule matches it and no image rule has a match text that contains
    "demo" or "screenshot"; yet the search for an image alternative calls
    [rule.match.includes] on the rule without a match and raises a
    [TypeError]: the response of the text rule is not delivered, and
    [processUserMessage] shows the error message in its place. *)
Lemma C6_image_rule_without_match_breaks_fallback :
  let cm := manager Sample.failing_session in
  let msg := "Can you help with technical issues?" in
  isImageMode cm = true
  /\ findMatch (messageMatcher cm) msg = Some Sample.technical_rule
  /\ rtype Sample.technical_rule = "text"
  /\ (forall x, In x (getAllRules (messageMatcher cm)) -> rtype x = "image" ->
        matchesRule msg x = false
        /\ match_text_contains (rmatch x) "demo" = false
        /\ match_text_contains (rmatch x) "screenshot" = false)
  /\ handleResponse cm Sample.store Sample.fresh
       (processInput (messageMatcher cm) msg) msg
     = TypeError
  /\ ui (processUserMessage Sample.failing_session Sample.ticks msg)
     = [ShowLoading; RemoveLoading; RemoveLoading;
        AddMessage "Sorry, I encountered an error processing your message."
          "system" false None].
Proof.
  repeat split; try reflexivity;
    destruct H as [<- | [<- | [<- | [<- | [<- | [<- | [<- | []]]]]]]];
    try discriminate H0; reflexivity.
Qed.

(** C6.  In image mode, when the rule matched for the user's message has
    type text, no image rule of the set matches the message, and every
    image rule has a match text (a string or a legacy list) on which
    [includes] finds neither "demo" nor "screenshot", [handleResponse]
    delivers the response of the matched text rule as it stands: its value,
    shown as text, with its follow-up prompts; the stored assistant message
    has response type text, the same value and the same follow-up. *)
Theorem C6_modality_fallback_keeps_text_response :
  forall (cm : ChatManager.t) (st : StorageManager.Store)
         (fr : StorageManager.Fresh) (userMessage : string) (r : Rule),
    isImageMode cm = true ->
    findMatch (messageMatcher cm) userMessage = Some r ->
    rtype r = "text" ->
    (forall x, In x (getAllRules (messageMatcher cm)) -> rtype x = "image" ->
               matchesRule userMessage x = false) ->
    (forall x, In x (getAllRules (messageMatcher cm)) -> rtype x = "image" ->
               match_includes (rmatch x) "demo" = Ok false
               /\ match_includes (rmatch x) "screenshot" = Ok false) ->
    let response := processInput (messageMatcher cm) userMessage in
    let prompts := match followup r with Some f => f | None => [] end in
    response = mkResponse "text" (rvalue r) (Some prompts)
    /\ exists st',
        handleResponse cm st fr response userMessage
        = Ok (mkDelivery (rvalue r) false
                (match prompts with [] => None | _ => Some prompts end)
                (StorageManager.mkIn "assistant" (rvalue r) (Some "text")
                   (Some prompts)),
              st').
Proof.
  intros cm st fr userMessage r Hmode Hfind Htype Hmatch Hgen response prompts.
  assert (Hresp : response = mkResponse "text" (rvalue r) (Some prompts)).
  { unfold response, processInput. rewrite Hfind. simpl. now rewrite Htype. }
  split; [exact Hresp |].
  unfold handleResponse, deliver. rewrite Hresp, Hmode. simpl.
  rewrite (findImageAlternative_none cm userMessage Hmatch Hgen). simpl.
  assert (Hopt : match prompts with [] => None | x :: f => Some (x :: f) end
                 = match prompts with [] => None | _ :: _ => Some prompts end)
    by (destruct prompts; reflexivity).
  rewrite Hopt.
  destruct (ChatManager.currentChatId cm) as [chatId |]; [| eauto].
  destruct (JS.truthy chatId); eauto.
Qed.

(** In image mode the technical-issues prompt is answered in text: the only
    image rule of the set is about something else. *)
Lemma C6_modality_fallback_witness :
  exists st',
    handleResponse Sample.image_mode_manager Sample.store Sample.fresh
      (processInput (messageMatcher Sample.image_mode_manager)
         "Can you help with technical issues?")
      "Can you help with technical issues?"
    = Ok (mkDelivery (rvalue Sample.technical_rule) false
            (followup Sample.technical_rule)
            (StorageManager.mkIn "assistant" (rvalue Sample.technical_rule)
               (Some "text") (followup Sample.technical_rule)),
          st').
Proof.
  destruct (C6_modality_fallback_keeps_text_response
              Sample.image_mode_manager Sample.store Sample.fresh
              "Can you help with technical issues?" Sample.technical_rule
              eq_refl eq_refl eq_refl) as [_ H].
  - intros x [<- | [<- | [<- | [<- | [<- | [<- | [<- | []]]]]]]] Ht;
      try discriminate Ht; reflexivity.
  - intros x [<- | [<- | [<- | [<- | [<- | [<- | [<- | []]]]]]]] Ht;
      try discriminate Ht; split; reflexivity.
  - exact H.
Defined.

End Modality.

(** ** Session store (C7 - C10) *)

Section Sessions.

Import StorageManager.

(** *** Lists *)

Lemma slice_last_length {A : Type} (n : nat) (xs : list A) :
  length (JS.slice_last n xs) = Nat.min n (length xs).
Proof. unfold JS.slice_last. rewrite length_skipn. lia. Qed.

Lemma slice_last_short {A : Type} (n : nat) (xs : list A) :
  length xs <= n -> JS.slice_last n xs = xs.
Proof.
  intros H. unfold JS.slice_last.
  replace (length xs - n) with 0 by lia. reflexivity.
Qed.

(** Cutting to the last [n] elements before appending more does not change
    what the last [n] elements are afterwards. *)
Lemma slice_last_app {A : Type} (n : nat) (xs ys : list A) :
  JS.slice_last n (JS.slice_last n xs ++ ys)%list
  = JS.slice_last n (xs ++ ys)%list.
Proof.
  destruct (Nat.le_gt_cases (length xs) n) as [H | H].
  - now rewrite (slice_last_short n xs H).
  - unfold JS.slice_last.
    rewrite !length_app, !skipn_app, skipn_skipn, !length_skipn.
    f_equal; f_equal; lia.
Qed.

Lemma find_split {A : Type} (p : A -> bool) (l : list A) (x : A) :
  find p l = Some x ->
  exists pre post,
    l = (pre ++ x :: post)%list
    /\ (forall y, In y pre -> p y = false)
    /\ p x = true
    /\ findIndex p l = Some (length pre).
Proof.
  induction l as [| a l IH]; simpl; [discriminate |].
  destruct (p a) eqn:Pa.
  - intros H; injection H as <-. exists [], l. simpl. tauto.
  - intros H. destruct (IH H) as [pre [post [E [Hpre [Px Hi]]]]].
    exists (a :: pre), post. simpl. rewrite Hi, E. repeat split; auto.
    intros y [<- | Hy]; auto.
Qed.

Lemma splice1_middle {A : Type} (pre post : list A) (x : A) :
  splice1 (length pre) (pre ++ x :: post)%list = (pre ++ post)%list.
Proof.
  unfold splice1.
  rewrite firstn_app, skipn_app, Nat.sub_diag, firstn_all.
  replace (S (length pre) - length pre) with 1 by lia.
  rewrite skipn_all2 by lia. simpl. now rewrite app_nil_r.
Qed.

Lemma find_update_first {A : Type} (p : A -> bool) (f : A -> A)
  (l : list A) :
  (forall x, p (f x) = p x) ->
  find p (update_first p f l) = option_map f (find p l).
Proof.
  intros Hf. induction l as [| a l IH]; simpl; [reflexivity |].
  destruct (p a) eqn:Pa; simpl.
  - now rewrite Hf, Pa.
  - now rewrite Pa.
Qed.

Lemma find_update_other {A : Type} (p q : A -> bool) (f : A -> A)
  (l : list A) :
  (forall x, q (f x) = q x) ->
  (forall x, p x = true -> q x = false) ->
  find q (update_first p f l) = find q l.
Proof.
  intros Hf Hpq. induction l as [| a l IH]; simpl; [reflexivity |].
  destruct (p a) eqn:Pa; simpl.
  - now rewrite Hf, (Hpq a Pa).
  - now rewrite IH.
Qed.

(** *** One append *)

Lemma appendToChat_id (fr : Fresh) (m : MessageIn) (c : Chat) :
  chat_id (appendToChat fr m c) = chat_id c.
Proof.
  unfold appendToChat.
  destruct (maxMessagesPerChat <? _)%nat; reflexivity.
Qed.

Lemma appendToChat_messages (fr : Fresh) (m : MessageIn) (c : Chat) :
  messages (appendToChat fr m c)
  = JS.slice_last maxMessagesPerChat (messages c ++ [withMeta fr m])%list
  /\ messageCount (appendToChat fr m c)
     = length (messages (appendToChat fr m c)).
Proof.
  unfold appendToChat.
  destruct (Nat.ltb_spec maxMessagesPerChat
              (length (messages c ++ [withMeta fr m])%list)) as [H | H];
    simpl; split; try reflexivity.
  now rewrite slice_last_short.
Qed.

Lemma appendToChat_title (fr : Fresh) (m : MessageIn) (c : Chat) :
  title (appendToChat fr m c)
  = if (title c =? "New Chat") && (in_type m =? "user")
       && JS.truthy (in_content m)
    then generateChatTitle (in_content m)
    else title c.
Proof.
  unfold appendToChat.
  destruct (maxMessagesPerChat <? _)%nat; reflexivity.
Qed.

(** An append to a stored chat succeeds and rewrites that chat only. *)
Lemma addMessageToChat_found (st : Store) (chatId : string)
  (m : MessageIn) (fr : Fresh) (c : Chat) :
  getChat st chatId = Some c ->
  snd (addMessageToChat st chatId m fr) = true
  /\ getChat (fst (addMessageToChat st chatId m fr)) chatId
     = Some (appendToChat fr m c).
Proof.
  unfold getChat, addMessageToChat, getStorageData.
  destruct st as [data |]; [| discriminate].
  intros H. rewrite H. simpl. split; [reflexivity |].
  rewrite find_update_first, H; [reflexivity |].
  intros x. unfold has_id. now rewrite appendToChat_id.
Qed.

Lemma addMessageToChat_other (st : Store) (chatId other : string)
  (m : MessageIn) (fr : Fresh) :
  other <> chatId ->
  getChat (fst (addMessageToChat st other m fr)) chatId = getChat st chatId.
Proof.
  intros Hneq. unfold getChat, addMessageToChat, getStorageData.
  destruct st as [data |]; [| reflexivity].
  destruct (find (has_id other) (chats data)); [| reflexivity].
  simpl. apply find_update_other.
  - intros x. unfold has_id. now rewrite appendToChat_id.
  - unfold has_id. intros x Hx. apply String.eqb_eq in Hx.
    apply String.eqb_neq. congruence.
Qed.

(** The chat after a sequence of calls and one more call to it. *)
Lemma run_appends_messages :
  forall (calls : list AppendCall) (st : Store) (chatId : string)
         (chat : Chat) (m : MessageIn) (fr : Fresh),
    getChat st chatId = Some chat ->
    let result := addMessageToChat (run_appends st calls) chatId m fr in
    snd result = true
    /\ exists chat',
        getChat (fst result) chatId = Some chat'
        /\ messages chat'
           = JS.slice_last maxMessagesPerChat
               (messages chat ++ sent_to chatId calls ++ [withMeta fr m])%list
        /\ messageCount chat' = length (messages chat').
Proof.
  induction calls as [| c calls IH]; intros st chatId chat m fr Hchat result.
  - destruct (addMessageToChat_found st chatId m fr chat Hchat) as [Hok Hget].
    split; [exact Hok |]. exists (appendToChat fr m chat).
    destruct (appendToChat_messages fr m chat) as [Hm Hc].
    repeat split; assumption.
  - unfold result. simpl run_appends.
    destruct (String.eqb_spec (call_chat c) chatId) as [E | E].
    + destruct (addMessageToChat_found st (call_chat c) (call_message c)
                  (call_fresh c) chat) as [_ Hget]; [now rewrite E |].
      rewrite E in Hget at 2.
      destruct (IH _ chatId _ m fr Hget) as [Hok [chat' [G [Hm Hc]]]].
      split; [exact Hok |]. exists chat'. repeat split; try assumption.
      rewrite Hm. destruct (appendToChat_messages (call_fresh c)
                              (call_message c) chat) as [-> _].
      rewrite slice_last_app. unfold sent_to. simpl.
      apply String.eqb_eq in E. rewrite E. simpl.
      now rewrite <- app_assoc.
    + pose proof (addMessageToChat_other st chatId (call_chat c)
                    (call_message c) (call_fresh c) E) as Hget.
      rewrite Hchat in Hget.
      destruct (IH _ chatId _ m fr Hget) as [Hok [chat' [G [Hm Hc]]]].
      split; [exact Hok |]. exists chat'. repeat split; try assumption.
      rewrite Hm. unfold sent_to. simpl.
      apply String.eqb_neq in E. now rewrite E.
Qed.

(** A list that ends with [kept] ends with its last [length kept]
    elements. *)
Lemma app_tail_skipn {A : Type} (l dropped kept : list A) :
  l = (dropped ++ kept)%list -> kept = skipn (length l - length kept) l.
Proof.
  intros ->. rewrite length_app.
  replace (length dropped + length kept - length kept) with (length dropped)
    by lia.
  rewrite skipn_app, Nat.sub_diag, skipn_all. reflexivity.
Qed.

(** C7.  Take a stored session and any sequence of [addMessageToChat] calls,
    to this session or to others, followed by one more call to this
    session.  That call succeeds.  Let the history be the messages the
    session held at the start followed by the messages sent to it since, in
    order, each with the type and content it was sent with.  Afterwards the
    session holds an end piece of the history: the history is some dropped
    messages followed by the messages held, which number 100, or all of the
    history when that is shorter; so what is dropped is the oldest, and
    the message just sent is the last one held.  [messageCount] is the
    length of the message list. *)
Theorem C7_session_keeps_most_recent_messages :
  forall (calls : list AppendCall) (st : Store) (chatId : string)
         (chat : Chat) (m : MessageIn) (fr : Fresh),
    getChat st chatId = Some chat ->
    let result := addMessageToChat (run_appends st calls) chatId m fr in
    let history :=
      (messages chat ++ sent_to chatId calls ++ [stored_message fr m])%list in
    snd result = true
    /\ exists (chat' : Chat) (dropped : list Message),
        getChat (fst result) chatId = Some chat'
        /\ history = (dropped ++ messages chat')%list
        /\ length (messages chat') = Nat.min 100 (length history)
        /\ length (messages chat') <= 100
        /\ (exists earlier,
              messages chat' = (earlier ++ [stored_message fr m])%list)
        /\ messageCount chat' = length (messages chat').
Proof.
  intros calls st chatId chat m fr Hchat result history.
  destruct (run_appends_messages calls st chatId chat m fr Hchat)
    as [Hok [chat' [G [Hm Hc]]]].
  change (withMeta fr m) with (stored_message fr m) in Hm.
  fold history in Hm.
  split; [exact Hok |].
  exists chat', (firstn (length history - maxMessagesPerChat) history).
  assert (Hsplit : history
                   = (firstn (length history - maxMessagesPerChat) history
                      ++ messages chat')%list).
  { rewrite Hm. unfold JS.slice_last. now rewrite firstn_skipn. }
  assert (Hlen : length (messages chat') = Nat.min 100 (length history)).
  { rewrite Hm, slice_last_length. reflexivity. }
  split; [exact G |]. split; [exact Hsplit |]. split; [exact Hlen |].
  split; [lia |]. split; [| exact Hc].
  exists (skipn (length history - maxMessagesPerChat)
            (messages chat ++ sent_to chatId calls)%list).
  rewrite Hm. unfold JS.slice_last, history.
  rewrite app_assoc, skipn_app.
  replace (length ((messages chat ++ sent_to chatId calls)
                   ++ [stored_message fr m])%list
           - maxMessagesPerChat
           - length (messages chat ++ sent_to chatId calls)%list)
    with 0; [reflexivity |].
  rewrite length_app. simpl. unfold maxMessagesPerChat. lia.
Qed.

(** The full session receives three messages, the other session one in
    between.  The three oldest of its 100 messages are dropped, the three
    new ones are the last it holds, and it still counts 100 messages. *)
Lemma C7_session_bounds_witness :
  exists chat',
    getChat (fst (addMessageToChat
                    (run_appends Sample.full_store Sample.calls)
                    "chat_9" Sample.hello Sample.latest)) "chat_9"
    = Some chat'
    /\ messages chat'
       = (map Sample.numbered (seq 3 97)
          ++ [mkMessage "msg_1" "2024-01-02T10:01:00.000Z" "user"
                "Hello there, how are you doing today?" None None;
              mkMessage "msg_101" "2024-01-03T10:01:00.000Z" "assistant"
                "I am fine." (Some "text") (Some []);
              mkMessage "msg_102" "2024-01-03T10:02:00.000Z" "user"
                "Hello there, how are you doing today?" None None])%list
    /\ messageCount chat' = 100.
Proof.
  destruct (C7_session_keeps_most_recent_messages Sample.calls
              Sample.full_store "chat_9" Sample.full_chat Sample.hello
              Sample.latest eq_refl)
    as [_ [chat' [dropped [G [Hh [Hlen [_ [_ Hc]]]]]]]].
  exists chat'. split; [exact G |].
  rewrite Hc, Hlen. split; [| reflexivity].
  rewrite (app_tail_skipn _ _ _ Hh), Hlen. reflexivity.
Defined.

(** *** Title derivation *)

(** C8, as stated, fails: the title derived from the sample message keeps
    the first 30 characters, "Hello there, how are you doing", before the
    ellipsis, not the first 29. *)
Lemma C8_title_keeps_thirty_characters :
  title Sample.fresh_chat = "New Chat"
  /\ generateChatTitle "Hello there, how are you doing today?"
     = "Hello there, how are you doing..."
  /\ option_map title
       (getChat (fst (addMessageToChat Sample.store "chat_1" Sample.hello
                        Sample.fresh)) "chat_1")
     = Some "Hello there, how are you doing..."
  /\ option_map title
       (getChat (fst (addMessageToChat Sample.store "chat_1" Sample.hello
                        Sample.fresh)) "chat_1")
     <> Some "Hello there, how are you doin...".
Proof. repeat split; try reflexivity. discriminate. Qed.

(** C8, amended.  Appending a user message with the content "Hello there,
    how are you doing today?" (37 characters) to a stored session still
    titled "New Chat" sets the title of the session to "Hello there, how are
    you doing..." : the first 30 characters followed by an ellipsis, with a
    capital first letter. *)
Theorem C8_title_of_first_user_message :
  forall (st : Store) (chatId : string) (chat : Chat) (fr : Fresh),
    getChat st chatId = Some chat ->
    title chat = "New Chat" ->
    let content := "Hello there, how are you doing today?" in
    let result := addMessageToChat st chatId (mkIn "user" content None None)
                    fr in
    snd result = true
    /\ exists chat',
        getChat (fst result) chatId = Some chat'
        /\ title chat' = "Hello there, how are you doing..."
        /\ title chat' = (JS.take 30 content ++ "...")%string
        /\ String.length content = 37.
Proof.
  intros st chatId chat fr Hchat Htitle content result.
  destruct (addMessageToChat_found st chatId (mkIn "user" content None None)
              fr chat Hchat) as [Hok Hget].
  split; [exact Hok |]. eexists. split; [exact Hget |].
  rewrite appendToChat_title, Htitle. repeat split.
Qed.

Lemma C8_title_witness :
  exists chat',
    getChat (fst (addMessageToChat Sample.store "chat_1" Sample.hello
                    Sample.fresh)) "chat_1" = Some chat'
    /\ title chat' = "Hello there, how are you doing...".
Proof.
  destruct (C8_title_of_first_user_message Sample.store "chat_1"
              Sample.fresh_chat Sample.fresh eq_refl eq_refl)
    as [_ [chat' [G [T _]]]].
  exists chat'. split; [exact G | exact T].
Defined.

(** *** Unknown sessions *)

(** C9.  When the session id identifies no stored session (the collection
    has no session with this id, or there is no readable collection),
    [addMessageToChat] returns false and the persisted collection is the one
    it was: no message is added, and no title, timestamp or count changes. *)
Theorem C9_unknown_session_is_refused :
  forall (st : Store) (chatId : string) (m : MessageIn) (fr : Fresh),
    getChat st chatId = None ->
    addMessageToChat st chatId m fr = (st, false).
Proof.
  intros st chatId m fr. unfold getChat, addMessageToChat, getStorageData.
  destruct st as [data |]; [| reflexivity].
  now intros ->.
Qed.

Lemma C9_unknown_session_witness :
  getChat Sample.store "chat_9" = None
  /\ addMessageToChat Sample.store "chat_9" Sample.hello Sample.fresh
     = (Sample.store, false).
Proof.
  split; [reflexivity |].
  apply (C9_unknown_session_is_refused Sample.store "chat_9" Sample.hello
           Sample.fresh).
  reflexivity.
Defined.

(** *** Deleting a session *)

(** C10.  For the id of a stored session, [deleteChat] succeeds and removes
    that session, the first one with this id, from the collection: the
    sessions before it and after it stay as they were, in order, and the
    settings are kept.  The current-session pointer becomes null when it was
    this id and is unchanged otherwise. *)
Theorem C10_delete_removes_exactly_that_session :
  forall (st : Store) (chatId : string) (chat : Chat),
    getChat st chatId = Some chat ->
    exists data pre post,
      st = Some data
      /\ chats data = (pre ++ chat :: post)%list
      /\ chat_id chat = chatId
      /\ (forall c, In c pre -> chat_id c <> chatId)
      /\ snd (deleteChat st chatId) = true
      /\ getAllChats (fst (deleteChat st chatId)) = (pre ++ post)%list
      /\ (currentChatId data = Some chatId ->
          getCurrentChatId (fst (deleteChat st chatId)) = None)
      /\ (currentChatId data <> Some chatId ->
          getCurrentChatId (fst (deleteChat st chatId)) = currentChatId data)
      /\ option_map settings (fst (deleteChat st chatId))
         = Some (settings data).
Proof.
  intros st chatId chat. unfold getChat, getStorageData.
  destruct st as [data |]; [| discriminate].
  intros Hfind.
  destruct (find_split _ _ _ Hfind) as [pre [post [E [Hpre [Hid Hidx]]]]].
  exists data, pre, post.
  unfold deleteChat, getStorageData. rewrite Hidx. simpl.
  rewrite E, splice1_middle.
  repeat split.
  - now apply String.eqb_eq.
  - intros c Hc. apply String.eqb_neq. now apply Hpre.
  - intros ->. now rewrite String.eqb_refl.
  - intros Hcur. destruct (currentChatId data) as [c |]; [| reflexivity].
    destruct (String.eqb_spec c chatId); [subst; congruence | reflexivity].
Qed.

(** Deleting the current session of the sample store succeeds, leaves the
    older session alone and clears the pointer. *)
Lemma C10_delete_witness :
  snd (deleteChat Sample.store "chat_1") = true
  /\ getAllChats (fst (deleteChat Sample.store "chat_1"))
     = [Sample.older_chat]
  /\ getCurrentChatId (fst (deleteChat Sample.store "chat_1")) = None.
Proof.
  destruct (C10_delete_removes_exactly_that_session Sample.store "chat_1"
              Sample.fresh_chat eq_refl)
    as [data [pre [post [E [_ [_ [_ [Hok [_ [Hcur _]]]]]]]]]].
  split; [exact Hok |]. split; [reflexivity |].
  apply Hcur. injection E as <-. reflexivity.
Defined.

End Sessions.

(** ** Further properties of the matcher *)

Section MatcherProperties.

Import MessageMatcher.

Lemma trim_all_ws (s : string) : all_ws s = true -> JS.trim s = "".
Proof. intros H. unfold JS.trim. now rewrite trimStart_all_ws. Qed.

Lemma find_app_rules (p : Rule -> bool) (l1 l2 : list Rule) :
  find p (l1 ++ l2)%list
  = match find p l1 with
    | Some x => Some x
    | None => find p l2
    end.
Proof.
  induction l1 as [| x l1 IH]; simpl; [reflexivity |].
  destruct (p x); [reflexivity | exact IH].
Qed.

(** X1.  On a loaded matcher and an input that is not blank, [findMatch]
    returns a rule exactly when it is the first rule, in stored order, that
    matches the trimmed input, and returns null exactly when no rule of the
    set matches. *)
Theorem findMatch_returns_first_match :
  forall (mm : MessageMatcher.t) (input : string),
    isLoaded mm = true -> JS.trim input <> "" ->
    (forall r,
        findMatch mm input = Some r <->
        exists pre post,
          rules mm = (pre ++ r :: post)%list
          /\ (forall x, In x pre -> matchesRule (JS.trim input) x = false)
          /\ matchesRule (JS.trim input) r = true)
    /\ (findMatch mm input = None <->
        forall x, In x (rules mm) -> matchesRule (JS.trim input) x = false).
Proof.
  intros mm input Hl Hne. rewrite (findMatch_ready mm input Hl Hne). split.
  - intros r. split.
    + intros H. destruct (find_split _ _ _ H) as [pre [post [E [Hp [Hr _]]]]].
      now exists pre, post.
    + intros [pre [post [E [Hp Hr]]]]. rewrite E. now apply find_first.
  - split.
    + intros H x Hx. now apply (find_none _ _ H).
    + intros H. destruct (find _ (rules mm)) as [r |] eqn:F; [| reflexivity].
      apply find_some in F as [Hin Hm]. rewrite (H r Hin) in Hm. discriminate.
Qed.

Lemma findMatch_first_match_witness :
  findMatch Sample.fallback_matcher "How do I access the employee portal?"
  = Some Sample.catch_all_rule.
Proof.
  destruct (findMatch_returns_first_match Sample.fallback_matcher
              "How do I access the employee portal?" eq_refl) as [H _];
    [discriminate |].
  apply H. exists (firstn 5 getFallbackRules), [].
  split; [reflexivity |]. split; [| reflexivity].
  intros x [<- | [<- | [<- | [<- | [<- | []]]]]]; reflexivity.
Defined.

(** X2.  A matcher that has not loaded its rules, and any matcher given an
    input made of white space only (the empty input included), answers null,
    whatever its rules are, a catch-all included; [processInput] then gives
    the built-in apology with no follow-up prompts. *)
Theorem findMatch_blank_or_not_loaded :
  forall (mm : MessageMatcher.t) (input : string),
    isLoaded mm = false \/ all_ws input = true ->
    findMatch mm input = None /\ processInput mm input = apology.
Proof.
  intros mm input H.
  assert (E : findMatch mm input = None).
  { unfold findMatch. destruct H as [-> | H]; [reflexivity |].
    rewrite (trim_all_ws input H). now destruct (isLoaded mm). }
  split; [exact E |]. unfold processInput. now rewrite E.
Qed.

Lemma findMatch_blank_witness :
  findMatch Sample.fallback_matcher "  	 " = None
  /\ processInput MessageMatcher.new "Can you help with technical issues?"
     = apology.
Proof.
  split.
  - apply (findMatch_blank_or_not_loaded Sample.fallback_matcher "  	 ").
    right. reflexivity.
  - apply (findMatch_blank_or_not_loaded MessageMatcher.new
             "Can you help with technical issues?").
    left. reflexivity.
Defined.

(** X3.  White space before and after an input never changes the answer of
    [findMatch]. *)
Theorem findMatch_ignores_surrounding_white_space :
  forall (mm : MessageMatcher.t) (pad1 s pad2 : string),
    all_ws pad1 = true -> all_ws pad2 = true ->
    findMatch mm (pad1 ++ s ++ pad2) = findMatch mm s.
Proof.
  intros mm pad1 s pad2 H1 H2. unfold findMatch.
  now rewrite (trim_padded pad1 s pad2 H1 H2).
Qed.

Lemma findMatch_white_space_witness :
  findMatch Sample.fallback_matcher
    ("
  " ++ "Can you help with technical issues?" ++ "   ")
  = Some Sample.technical_rule.
Proof.
  rewrite (findMatch_ignores_surrounding_white_space Sample.fallback_matcher
             "
  " "Can you help with technical issues?" "   " eq_refl eq_refl).
  reflexivity.
Defined.

Lemma is_ws_lower_char (c : ascii) :
  JS.is_ws (JS.lower_char c) = JS.is_ws c.
Proof. destruct c as [[] [] [] [] [] [] [] []]; reflexivity. Qed.

Lemma toLowerCase_trimStart (s : string) :
  JS.toLowerCase (JS.trimStart s) = JS.trimStart (JS.toLowerCase s).
Proof.
  induction s as [| c s IH]; simpl; [reflexivity |].
  rewrite is_ws_lower_char. destruct (JS.is_ws c); [exact IH | reflexivity].
Qed.

Lemma toLowerCase_trimEnd (s : string) :
  JS.toLowerCase (JS.trimEnd s) = JS.trimEnd (JS.toLowerCase s).
Proof.
  induction s as [| c s IH]; simpl; [reflexivity |].
  rewrite <- IH, is_ws_lower_char.
  destruct (JS.trimEnd s); simpl; [destruct (JS.is_ws c) |]; reflexivity.
Qed.

Lemma toLowerCase_trim (s : string) :
  JS.toLowerCase (JS.trim s) = JS.trim (JS.toLowerCase s).
Proof.
  unfold JS.trim. now rewrite toLowerCase_trimEnd, toLowerCase_trimStart.
Qed.

Lemma toLowerCase_empty (s : string) : JS.toLowerCase s = "" <-> s = "".
Proof. destruct s; simpl; split; intros H; try reflexivity; discriminate. Qed.

(** X4.  When no rule of the set is case sensitive, two inputs that differ
    by letter case only get the same answer from [findMatch]. *)
Theorem findMatch_ignores_letter_case :
  forall (mm : MessageMatcher.t) (s t : string),
    (forall r, In r (rules mm) -> caseSensitiveOf r = false) ->
    eq_upto_case s t = true ->
    findMatch mm s = findMatch mm t.
Proof.
  intros mm s t Hcs Heq.
  apply eq_upto_case_lower in Heq.
  assert (Hl : JS.toLowerCase (JS.trim s) = JS.toLowerCase (JS.trim t))
    by (now rewrite !toLowerCase_trim, Heq).
  assert (Ht : JS.truthy (JS.trim s) = JS.truthy (JS.trim t)).
  { unfold JS.truthy. f_equal.
    destruct (String.eqb_spec (JS.trim s) "") as [Es | Es],
      (String.eqb_spec (JS.trim t) "") as [Et | Et]; try reflexivity.
    - rewrite Es in Hl. change (JS.toLowerCase "") with "" in Hl.
      symmetry in Hl. apply (proj1 (toLowerCase_empty _)) in Hl. congruence.
    - rewrite Et in Hl. change (JS.toLowerCase "") with "" in Hl.
      apply (proj1 (toLowerCase_empty _)) in Hl. congruence. }
  unfold findMatch. rewrite Ht.
  destruct (negb (isLoaded mm)); [reflexivity |].
  destruct (negb (JS.truthy (JS.trim t))); [reflexivity |].
  apply find_agree. intros r Hr. unfold matchesRule.
  rewrite (Hcs r Hr). simpl. now rewrite Hl.
Qed.

Lemma findMatch_letter_case_witness :
  findMatch Sample.fallback_matcher "can YOU help WITH technical ISSUES?"
  = Some Sample.technical_rule.
Proof.
  rewrite (findMatch_ignores_letter_case Sample.fallback_matcher
             "can YOU help WITH technical ISSUES?"
             "Can you help with technical issues?").
  - reflexivity.
  - intros r [<- | [<- | [<- | [<- | [<- | [<- | []]]]]]]; reflexivity.
  - reflexivity.
Defined.

(** X5.  A rule stored behind a wildcard rule is never reached: whatever
    [findMatch] returns is the wildcard rule or a rule stored before it, and
    on a loaded matcher a non-blank input always gets an answer. *)
Theorem findMatch_never_passes_a_wildcard :
  forall (mm : MessageMatcher.t) (pre post : list Rule) (w : Rule)
         (input : string),
    rules mm = (pre ++ w :: post)%list ->
    isWildcard w = true ->
    (forall r, findMatch mm input = Some r -> In r (pre ++ [w])%list)
    /\ (isLoaded mm = true -> JS.trim input <> "" ->
        findMatch mm input <> None).
Proof.
  intros mm pre post w input Hrules Hw.
  assert (F : find (matchesRule (JS.trim input)) (rules mm)
              = find (matchesRule (JS.trim input)) (pre ++ [w])%list).
  { rewrite Hrules, !find_app_rules. simpl.
    now rewrite (matchesRule_wildcard (JS.trim input) w Hw). }
  split.
  - intros r H. unfold findMatch in H.
    destruct (negb (isLoaded mm)); [discriminate |].
    destruct (negb (JS.truthy (JS.trim input))); [discriminate |].
    rewrite F in H. now apply find_some in H.
  - intros Hl Hne. rewrite (findMatch_ready mm input Hl Hne), F.
    rewrite find_app_rules. simpl.
    rewrite (matchesRule_wildcard (JS.trim input) w Hw).
    destruct (find _ pre); discriminate.
Qed.

Lemma findMatch_wildcard_witness :
  findMatch Sample.shadowing_matcher "Can you help with technical issues?"
  = Some Sample.eager_catch_all.
Proof.
  destruct (findMatch_never_passes_a_wildcard Sample.shadowing_matcher
              [] [Sample.technical_rule] Sample.eager_catch_all
              "Can you help with technical issues?" eq_refl eq_refl)
    as [H _].
  destruct (findMatch Sample.shadowing_matcher
              "Can you help with technical issues?") as [r |] eqn:F;
    [| discriminate F].
  destruct (H r eq_refl) as [<- | []]. reflexivity.
Defined.

(** X6.  A rule with a legacy array match that is not case sensitive matches
    an input exactly when the input equals one of the terms up to letter
    case; an asterisk among the terms is an ordinary term, not a
    wildcard. *)
Theorem matchesRule_legacy_array :
  forall (r : Rule) (terms : list string) (input : string),
    rmatch r = MArray terms -> caseSensitiveOf r = false ->
    (matchesRule input r = true <->
     exists term, In term terms /\ eq_upto_case input term = true)
    /\ isWildcard r = false.
Proof.
  intros r terms input Hm Hcs. unfold matchesRule, isWildcard.
  rewrite Hm, Hcs. simpl. split; [| reflexivity].
  rewrite existsb_exists. split; intros [term [Hin H]]; exists term;
    (split; [exact Hin |]).
  - apply eq_upto_case_lower. now apply String.eqb_eq.
  - apply String.eqb_eq. now apply eq_upto_case_lower.
Qed.

Lemma matchesRule_legacy_array_witness :
  matchesRule "HELLO" Sample.legacy_rule = true
  /\ matchesRule "Hello there" Sample.legacy_rule = false.
Proof.
  destruct (matchesRule_legacy_array Sample.legacy_rule ["Hello"; "*"]
              "HELLO" eq_refl eq_refl) as [[_ H] _].
  split; [| reflexivity].
  apply H. exists "Hello". split; [now left | reflexivity].
Defined.

(** X7.  The priority sort returns a rearrangement of its input in
    ascending order of [priority || 999]; rules with the same key keep the
    order they had; sorting a sorted list changes nothing. *)
Theorem sortByPriority_contract :
  forall rs : list Rule,
    Permutation (sortByPriority rs) rs
    /\ ascending effective_priority (sortByPriority rs)
    /\ (forall k,
          filter (fun x => (effective_priority x =? k)%Z) (sortByPriority rs)
          = filter (fun x => (effective_priority x =? k)%Z) rs)
    /\ sortByPriority (sortByPriority rs) = sortByPriority rs.
Proof.
  intros rs. repeat split.
  - apply sortByPriority_perm.
  - apply sortByPriority_ascending.
  - intros k. apply sortByPriority_stable.
  - symmetry. apply sortByPriority_unique.
    + apply sortByPriority_ascending.
    + intros k. reflexivity.
Qed.

Lemma dispatchStorageNotices_matcher (chat : bool) (e : StorageEvent)
  (mm : MessageMatcher.t) :
  fst (dispatchStorageNotices chat e mm) = dispatchStorage e mm.
Proof.
  unfold dispatchStorageNotices, dispatchStorage.
  induction (listeners mm) as [| n IH]; [reflexivity |].
  simpl. rewrite IH. unfold onStorage, storageListener.
  destruct (key e) as [k |]; [| reflexivity].
  destruct (newValue e) as [| p]; [reflexivity |].
  destruct (k =? "chatRules"); [| reflexivity].
  destruct p; reflexivity.
Qed.

(** An accepted rules change makes every registered listener post the
    notice, provided a chat manager is there to show it. *)
Lemma dispatchStorageNotices_accepted (chat : bool) (rs : list Rule)
  (mm : MessageMatcher.t) :
  snd (dispatchStorageNotices chat
         (mkEvent (Some "chatRules") (Text (JRules rs))) mm)
  = if chat
    then repeat "Chat rules updated from admin panel." (listeners mm)
    else [].
Proof.
  unfold dispatchStorageNotices.
  induction (listeners mm) as [| n IH]; [now destruct chat |].
  simpl. simpl in IH. rewrite IH. destruct chat; [| reflexivity].
  symmetry. apply repeat_cons.
Qed.

(** X8.  Loading the rules again from the same sources leaves the rule set
    and the readiness as they were and registers one more storage listener.
    A later storage event leaves the same rule set behind as it did with one
    listener less, but the listeners do not replace one another: where a
    chat manager is present, an accepted rules change posts the notice "Chat
    rules updated from admin panel." once per registered listener, hence
    once more after every reload; without a chat manager nothing is
    posted. *)
Theorem reloadRules_keeps_rules_repeats_notice :
  forall (env : Env) (mm : MessageMatcher.t) (e : StorageEvent)
         (rs : list Rule),
    let loaded := snd (loadRules env mm) in
    let reloaded := snd (reloadRules env loaded) in
    let change := mkEvent (Some "chatRules") (Text (JRules rs)) in
    fst (reloadRules env loaded) = fst (loadRules env mm)
    /\ rules reloaded = rules loaded
    /\ isReady reloaded = true
    /\ listeners reloaded = S (listeners loaded)
    /\ (forall chat,
          rules (fst (dispatchStorageNotices chat e reloaded))
          = rules (fst (dispatchStorageNotices chat e loaded)))
    /\ snd (dispatchStorageNotices true change loaded)
       = repeat "Chat rules updated from admin panel." (S (listeners mm))
    /\ snd (dispatchStorageNotices true change reloaded)
       = "Chat rules updated from admin panel."
         :: snd (dispatchStorageNotices true change loaded)
    /\ snd (dispatchStorageNotices false change reloaded) = [].
Proof.
  intros env mm e rs loaded reloaded change.
  assert (H : exists rs0, loadRules env mm
                          = (fst (loadRules env mm), install rs0 mm)
                          /\ reloadRules env loaded
                             = (fst (loadRules env mm), install rs0 loaded)).
  { unfold reloadRules, loadRules, loadRules_try.
    destruct env as [[| [| | | rs0]] [| | [| | | rs']]]; simpl; eauto. }
  destruct H as [rs0 [E1 E2]].
  assert (L1 : loaded = install rs0 mm) by (unfold loaded; now rewrite E1).
  assert (L2 : reloaded = install rs0 loaded)
    by (unfold reloaded; now rewrite E2).
  rewrite E2. split; [reflexivity |].
  unfold change. rewrite !dispatchStorageNotices_accepted.
  rewrite L2, L1.
  split; [reflexivity |]. split; [reflexivity |]. split; [reflexivity |].
  split; [| split; [reflexivity | split; reflexivity]].
  intros chat. rewrite !dispatchStorageNotices_matcher.
  rewrite !dispatchStorage_once by discriminate.
  unfold onStorage, storageListener.
  destruct (key e) as [k |]; [| reflexivity].
  destruct (newValue e) as [| p]; [reflexivity |].
  destruct (k =? "chatRules"); [| reflexivity].
  destruct p; reflexivity.
Qed.

(** A context that fell back to the embedded rules and reloaded them once
    posts the notice twice for one rules change. *)
Lemma reloadRules_notice_witness :
  snd (dispatchStorageNotices true
         (mkEvent (Some "chatRules") (Text (JRules [Sample.five_rule])))
         (snd (reloadRules (mkEnv Absent NetworkError)
                 Sample.fallback_matcher)))
  = ["Chat rules updated from admin panel.";
     "Chat rules updated from admin panel."].
Proof.
  destruct (reloadRules_keeps_rules_repeats_notice
              (mkEnv Absent NetworkError) MessageMatcher.new
              (mkEvent None Absent) [Sample.five_rule])
    as [_ [_ [_ [_ [_ [H1 [H2 _]]]]]]].
  unfold Sample.fallback_matcher. rewrite H2, H1. reflexivity.
Defined.

(** X9.  A storage event for another key, an event without a new value,
    and an event whose new value does not parse or holds no rules array
    leave a context exactly as it was. *)
Theorem storage_event_without_rules_is_ignored :
  forall (e : StorageEvent) (mm : MessageMatcher.t),
    key e <> Some "chatRules"
    \/ (forall rs, newValue e <> Text (JRules rs)) ->
    dispatchStorage e mm = mm.
Proof.
  intros e mm H.
  assert (E : forall m, onStorage e m = m).
  { intros m. unfold onStorage, storageListener.
    destruct (key e) as [k |]; [| reflexivity].
    destruct (newValue e) as [| p]; [reflexivity |].
    destruct (String.eqb_spec k "chatRules") as [-> | _]; [| reflexivity].
    destruct H as [H | H]; [now elim H |].
    destruct p as [| | | rs]; try reflexivity. now elim (H rs). }
  unfold dispatchStorage.
  induction (listeners mm) as [| n IH]; [reflexivity |].
  simpl. now rewrite IH, E.
Qed.

Lemma storage_event_ignored_witness :
  dispatchStorage (mkEvent (Some "chatRules") (Text SyntaxError))
    Sample.fallback_matcher
  = Sample.fallback_matcher
  /\ dispatchStorage
       (mkEvent (Some "mockChatAssistant_v2")
          (Text (JRules [Sample.five_rule])))
       Sample.fallback_matcher
     = Sample.fallback_matcher.
Proof.
  split.
  - apply (storage_event_without_rules_is_ignored
             (mkEvent (Some "chatRules") (Text SyntaxError))).
    right. discriminate.
  - apply (storage_event_without_rules_is_ignored
             (mkEvent (Some "mockChatAssistant_v2")
                (Text (JRules [Sample.five_rule])))).
    left. discriminate.
Defined.

(** X10.  An override whose rules array is empty is accepted like any
    other: the matcher is ready with no rule at all, neither the fetched
    nor the embedded rules are consulted, and every input is answered with
    the built-in apology. *)
Theorem empty_override_answers_with_apology :
  forall (f : Fetched) (mm0 : MessageMatcher.t) (input : string),
    let loaded := loadRules (mkEnv (Text (JRules [])) f) mm0 in
    fst loaded = [Override]
    /\ isReady (snd loaded) = true
    /\ getAllRules (snd loaded) = []
    /\ findMatch (snd loaded) input = None
    /\ processInput (snd loaded) input = apology.
Proof.
  intros f mm0 input loaded.
  assert (F : findMatch (snd loaded) input = None).
  { unfold findMatch. simpl.
    now destruct (negb (JS.truthy (JS.trim input))). }
  repeat split; try exact F.
  unfold processInput. now rewrite F.
Qed.

End MatcherProperties.

(** ** Further properties of the session store *)

Section StoreProperties.

Import StorageManager.

Lemma appendToChat_bounded (fr : Fresh) (m : MessageIn) (c : Chat) :
  chat_bounded (appendToChat fr m c).
Proof.
  destruct (appendToChat_messages fr m c) as [Hm Hc].
  split; [exact Hc |]. rewrite Hm, slice_last_length. lia.
Qed.

Lemma update_first_Forall {A : Type} (P : A -> Prop) (p : A -> bool)
  (f : A -> A) (l : list A) :
  (forall x, P (f x)) -> Forall P l -> Forall P (update_first p f l).
Proof.
  intros Hf. induction 1 as [| x l Hx Hl IH]; simpl; [constructor |].
  destruct (p x); constructor; auto.
Qed.

Lemma update_first_length {A : Type} (p : A -> bool) (f : A -> A)
  (l : list A) :
  length (update_first p f l) = length l.
Proof.
  induction l as [| x l IH]; simpl; [reflexivity |].
  destruct (p x); simpl; congruence.
Qed.

Lemma update_first_ids (p : Chat -> bool) (f : Chat -> Chat)
  (l : list Chat) :
  (forall x, chat_id (f x) = chat_id x) ->
  map chat_id (update_first p f l) = map chat_id l.
Proof.
  intros Hf. induction l as [| x l IH]; simpl; [reflexivity |].
  destruct (p x); simpl; [now rewrite Hf | now rewrite IH].
Qed.

Lemma Forall_firstn_skipn {A : Type} (P : A -> Prop) (n : nat)
  (l : list A) :
  Forall P l -> Forall P (firstn n l) /\ Forall P (skipn n l).
Proof.
  intros H. rewrite <- (firstn_skipn n l) in H.
  now apply Forall_app in H.
Qed.

Lemma apply_op_bounded (st : Store) (op : StoreOp) :
  bounded st -> bounded (apply_op st op).
Proof.
  destruct st as [data |]; [| destruct op; intros; exact I].
  intros [Hlen Hall]. destruct op as [ttl fr | chatId m fr | chatId | |];
    cbn [apply_op].
  - unfold createNewChat. cbn -[firstn Nat.ltb maxChats].
    match goal with
    | |- context [mkChat ?a ?b ?c ?d ?e ?f] =>
        set (chat := mkChat a b c d e f)
    end.
    assert (Hnew : Forall chat_bounded (chat :: chats data)).
    { constructor; [| exact Hall]. split; simpl; [reflexivity | lia]. }
    change (S (length (chats data))) with (length (chat :: chats data)).
    destruct (Nat.ltb_spec maxChats (length (chat :: chats data)))
      as [H | H]; cbn -[firstn maxChats].
    + split; [apply firstn_le_length |].
      now apply (Forall_firstn_skipn chat_bounded maxChats _ Hnew).
    + split; [exact H | exact Hnew].
  - unfold addMessageToChat. simpl.
    destruct (find (has_id chatId) (chats data)); simpl;
      [| now split].
    split; [now rewrite update_first_length |].
    apply update_first_Forall; [apply appendToChat_bounded | exact Hall].
  - unfold deleteChat. simpl.
    destruct (findIndex (has_id chatId) (chats data)) as [i |]; simpl;
      [| now split].
    unfold splice1. split.
    + rewrite length_app, length_firstn, length_skipn. lia.
    + apply Forall_app. split.
      * now apply (Forall_firstn_skipn chat_bounded i _ Hall).
      * now apply (Forall_firstn_skipn chat_bounded (S i) _ Hall).
  - simpl. split; [apply Nat.le_0_l | constructor].
  - simpl. now split.
Qed.

(** X11.  The limits of the store are an invariant.  Starting from a store
    within its limits (none at all, or the empty one that [init] creates),
    after [init] and any sequence of [createNewChat], [addMessageToChat],
    [deleteChat], [clearAllChats] and [setCurrentChat] calls, whatever their
    arguments, the store holds at most 50 chats, every chat holds at most
    100 messages, and every [messageCount] is the length of its message
    list. *)
Theorem store_limits_are_invariant :
  forall (st : Store) (now : string) (ops : list StoreOp),
    bounded st -> bounded (run_ops (fst (init st now)) ops).
Proof.
  intros st now ops Hb.
  assert (H0 : bounded (fst (init st now))).
  { destruct st as [data |]; simpl; [exact Hb |].
    split; [unfold maxChats; lia | constructor]. }
  unfold run_ops. revert H0. generalize (fst (init st now)).
  induction ops as [| op ops IH]; intros s Hs; simpl; [exact Hs |].
  apply IH. now apply apply_op_bounded.
Qed.

Lemma store_limits_witness :
  bounded
    (run_ops (fst (init None "2024-01-01T08:00:00.000Z"))
       [OpCreate None Sample.fresh;
        OpAppend "msg_1" Sample.hello Sample.fresh;
        OpSetCurrent "chat_7";
        OpDelete "msg_1"]).
Proof.
  apply (store_limits_are_invariant None "2024-01-01T08:00:00.000Z").
  exact I.
Defined.

(** X12.  On a readable store [createNewChat] returns the generated id and
    puts a new, empty chat with this id in front of the collection, of which
    it keeps the 49 most recent chats; the new chat is the current one and
    is the chat that [getChat] finds under the id.  The title is the one
    given, and "New Chat" when none or an empty one is given.  Without a
    readable store it returns null and changes nothing. *)
Theorem createNewChat_puts_chat_in_front :
  forall (data : StorageData) (ttl : option string) (fr : Fresh),
    (exists chat,
        createNewChat (Some data) ttl fr
        = (Some (mkData (chat :: firstn 49 (chats data))
                   (Some (fresh_id fr)) (settings data)),
           Some (fresh_id fr))
        /\ getChat (fst (createNewChat (Some data) ttl fr)) (fresh_id fr)
           = Some chat
        /\ chat_id chat = fresh_id fr
        /\ messages chat = [] /\ messageCount chat = 0
        /\ (forall t, ttl = Some t -> t <> "" -> title chat = t)
        /\ (ttl = None \/ ttl = Some "" -> title chat = "New Chat"))
    /\ createNewChat None ttl fr = (None, None).
Proof.
  intros data ttl fr. split; [| reflexivity].
  eexists. split; [| split].
  - unfold createNewChat. cbn -[firstn Nat.ltb maxChats].
    match goal with
    | |- context [mkChat ?a ?b ?c ?d ?e ?f] =>
        set (chat := mkChat a b c d e f)
    end.
    change (S (length (chats data))) with (length (chat :: chats data)).
    destruct (Nat.ltb_spec maxChats (length (chat :: chats data)))
      as [H | H]; cbn -[firstn maxChats].
    + reflexivity.
    + rewrite firstn_all2; [reflexivity |].
      simpl in H. unfold maxChats in H. lia.
  - unfold createNewChat, getChat. cbn -[firstn Nat.ltb maxChats].
    destruct (maxChats <? S (length (chats data)))%nat;
      cbn -[firstn]; unfold has_id, maxChats; rewrite ?firstn_cons;
      cbn -[firstn]; now rewrite String.eqb_refl.
  - simpl. repeat split.
    + intros t -> Ht. apply truthy_true in Ht. now rewrite Ht.
    + intros [-> | ->]; reflexivity.
Qed.

(** X13.  [addMessageToChat] touches one chat only: the chats keep their
    ids and their order, every chat stored under another id is found as it
    was, and the current-chat pointer and the settings stay, whether the
    call succeeds or not. *)
Theorem addMessageToChat_leaves_the_rest :
  forall (st : Store) (chatId : string) (m : MessageIn) (fr : Fresh),
    let st' := fst (addMessageToChat st chatId m fr) in
    map chat_id (getAllChats st') = map chat_id (getAllChats st)
    /\ (forall other, other <> chatId -> getChat st' other = getChat st other)
    /\ getCurrentChatId st' = getCurrentChatId st
    /\ option_map settings st' = option_map settings st.
Proof.
  intros st chatId m fr st'. unfold st'. repeat split.
  - unfold addMessageToChat, getAllChats, getStorageData.
    destruct st as [data |]; [| reflexivity].
    destruct (find (has_id chatId) (chats data)); [| reflexivity].
    simpl. apply update_first_ids. intros x. apply appendToChat_id.
  - intros other Hne. apply addMessageToChat_other. congruence.
  - unfold addMessageToChat, getCurrentChatId, getStorageData.
    destruct st as [data |]; [| reflexivity].
    destruct (find (has_id chatId) (chats data)); reflexivity.
  - unfold addMessageToChat, getStorageData.
    destruct st as [data |]; [| reflexivity].
    destruct (find (has_id chatId) (chats data)); reflexivity.
Qed.

(** X14.  The title of a chat changes only on a user message with content
    that reaches a chat titled "New Chat": a chat with another title keeps
    it, and a message that is not a user message, or has no content, leaves
    the title alone. *)
Theorem addMessageToChat_keeps_given_title :
  forall (st : Store) (chatId : string) (chat : Chat) (m : MessageIn)
         (fr : Fresh),
    getChat st chatId = Some chat ->
    title chat <> "New Chat" \/ in_type m <> "user" \/ in_content m = "" ->
    option_map title (getChat (fst (addMessageToChat st chatId m fr)) chatId)
    = Some (title chat).
Proof.
  intros st chatId chat m fr Hchat H.
  destruct (addMessageToChat_found st chatId m fr chat Hchat) as [_ ->].
  simpl. rewrite appendToChat_title. f_equal.
  destruct H as [H | [H | H]].
  - apply String.eqb_neq in H. now rewrite H.
  - apply String.eqb_neq in H. rewrite H. now rewrite andb_false_r.
  - rewrite H. now rewrite andb_false_r.
Qed.

Lemma addMessageToChat_title_witness :
  option_map title
    (getChat (fst (addMessageToChat Sample.store "chat_0" Sample.hello
                     Sample.fresh)) "chat_0")
  = Some "Benefits".
Proof.
  apply (addMessageToChat_keeps_given_title Sample.store "chat_0"
           Sample.older_chat Sample.hello Sample.fresh eq_refl).
  left. discriminate.
Defined.

(** X15.  [deleteChat] on an id that identifies no stored chat returns
    false and leaves the store as it was. *)
Theorem deleteChat_unknown_is_refused :
  forall (st : Store) (chatId : string),
    getChat st chatId = None -> deleteChat st chatId = (st, false).
Proof.
  intros st chatId. unfold getChat, deleteChat, getStorageData.
  destruct st as [data |]; [| reflexivity].
  intros H.
  destruct (findIndex (has_id chatId) (chats data)) as [i |] eqn:F;
    [| reflexivity].
  exfalso. revert i F. induction (chats data) as [| c l IH]; simpl in *;
    [discriminate |].
  destruct (has_id chatId c); [discriminate |].
  intros i F. destruct (findIndex (has_id chatId) l) as [j |];
    [eapply IH; eauto | discriminate].
Qed.

Lemma deleteChat_unknown_witness :
  deleteChat Sample.store "chat_9" = (Sample.store, false).
Proof.
  apply (deleteChat_unknown_is_refused Sample.store "chat_9"). reflexivity.
Defined.

(** [setCurrentChat] does not look at the chats: on a readable store
    it succeeds for every id, stored or not, [getCurrentChatId] returns that
    id afterwards, and the chats and the settings are untouched.  Deleting
    the chat of that id afterwards, when there is one, resets the pointer to
    null. *)
Theorem setCurrentChat_then_getCurrentChatId :
  forall (data : StorageData) (chatId : string),
    let st' := fst (setCurrentChat (Some data) chatId) in
    snd (setCurrentChat (Some data) chatId) = true
    /\ getCurrentChatId st' = Some chatId
    /\ getAllChats st' = chats data
    /\ option_map settings st' = Some (settings data)
    /\ (getChat (Some data) chatId <> None ->
        getCurrentChatId (fst (deleteChat st' chatId)) = None).
Proof.
  intros data chatId st'. repeat split.
  intros H. unfold st', setCurrentChat, deleteChat. simpl.
  destruct (find (has_id chatId) (chats data)) as [c |] eqn:F;
    [| now elim H].
  destruct (find_split _ _ _ F) as [pre [post [_ [_ [_ ->]]]]].
  simpl. now rewrite String.eqb_refl.
Qed.

(** After [clearAllChats] on a readable store there is no chat and no
    current chat, the settings are kept, and every id is unknown: [getChat]
    finds nothing and [addMessageToChat] is refused. *)
Theorem clearAllChats_forgets_every_chat :
  forall (data : StorageData) (chatId : string) (m : MessageIn) (fr : Fresh),
    let st' := fst (clearAllChats (Some data)) in
    snd (clearAllChats (Some data)) = true
    /\ getAllChats st' = []
    /\ getCurrentChatId st' = None
    /\ option_map settings st' = Some (settings data)
    /\ getChat st' chatId = None
    /\ addMessageToChat st' chatId m fr = (st', false).
Proof. intros data chatId m fr st'. repeat split. Qed.

(** [init] creates the empty store, version "2.0", when there is
    none, and never overwrites a store that can be read; running it again
    changes nothing. *)
Theorem init_creates_once :
  forall (st : Store) (now later : string),
    (st = None ->
     fst (init st now) = Some (mkData [] None (mkSettings "2.0" now)))
    /\ (st <> None -> fst (init st now) = st)
    /\ fst (init (fst (init st now)) later) = fst (init st now).
Proof.
  intros st now later. destruct st as [data |]; repeat split;
    try reflexivity; intros H; try discriminate H. now elim H.
Qed.

End StoreProperties.

(** ** Properties of the derived chat title *)

Section TitleProperties.

Import StorageManager.

Lemma string_app_assoc (a b c : string) : (a ++ b) ++ c = a ++ (b ++ c).
Proof. induction a as [| x a IH]; simpl; [reflexivity | now rewrite IH]. Qed.

Lemma string_app_length (a b : string) :
  String.length (a ++ b) = String.length a + String.length b.
Proof. induction a as [| x a IH]; simpl; [reflexivity | now rewrite IH]. Qed.

Lemma single_spaced_cons_non_ws (c : ascii) (s : string) :
  JS.is_ws c = false -> single_spaced s = true ->
  single_spaced (String c s) = true.
Proof.
  intros Hc Hs. cbn [single_spaced]. rewrite Hc, Hs. simpl.
  now destruct s.
Qed.

Lemma collapse_from_spaced (b : bool) (s : string) :
  single_spaced (JS.collapse_from b s) = true
  /\ (b = true -> starts_non_ws (JS.collapse_from b s) = true).
Proof.
  revert b. induction s as [| c s IH]; intros b; simpl; [now split |].
  destruct (JS.is_ws c) eqn:Hc.
  - destruct b; [apply IH |].
    split; [| discriminate].
    destruct (IH true) as [H1 H2]. specialize (H2 eq_refl).
    cbn [single_spaced]. rewrite H1.
    destruct (JS.collapse_from true s) as [| d t]; [reflexivity |].
    simpl in H2. apply negb_true_iff in H2. now rewrite H2.
  - split.
    + apply single_spaced_cons_non_ws; [exact Hc | apply IH].
    + intros _. simpl. now rewrite Hc.
Qed.

Lemma collapse_from_length (b : bool) (s : string) :
  String.length (JS.collapse_from b s) <= String.length s.
Proof.
  revert b. induction s as [| c s IH]; intros b; simpl; [lia |].
  pose proof (IH true). pose proof (IH false).
  destruct (JS.is_ws c); [destruct b |]; simpl; lia.
Qed.

Lemma collapse_from_fixes_spaced (s : string) :
  single_spaced s = true ->
  JS.collapse_from false s = s
  /\ (starts_non_ws s = true -> JS.collapse_from true s = s).
Proof.
  induction s as [| c s IH]; [now split |].
  cbn [single_spaced]. rewrite !andb_true_iff. intros [[Hc Hp] Hs].
  destruct (IH Hs) as [IH1 IH2]. simpl.
  destruct (JS.is_ws c) eqn:Wc.
  - simpl in Hc. apply Ascii.eqb_eq in Hc. subst c. split.
    + rewrite IH2; [reflexivity |].
      destruct s as [| d t]; [reflexivity |]. simpl in Hp |- *. exact Hp.
    + simpl. discriminate.
  - now rewrite IH1.
Qed.

Lemma single_spaced_ellipsis (s : string) :
  single_spaced s = true -> single_spaced (s ++ "...") = true.
Proof.
  induction s as [| c s IH]; [reflexivity |].
  cbn [single_spaced]. rewrite !andb_true_iff. intros [[Hc Hp] Hs].
  change (String c s ++ "...") with (String c (s ++ "...")).
  cbn [single_spaced]. rewrite Hc, (IH Hs).
  destruct s as [| d t]; simpl.
  - now rewrite andb_false_r.
  - simpl in Hp. now rewrite Hp.
Qed.

Lemma upper_char_spaced (c : ascii) :
  JS.is_ws c = false ->
  single_spaced (JS.upper_char c) = true
  /\ starts_non_ws (JS.upper_char c) = true
  /\ 1 <= String.length (JS.upper_char c) <= 2.
Proof.
  destruct c as [[] [] [] [] [] [] [] []]; intros H;
    try discriminate H; repeat split; simpl; try reflexivity; lia.
Qed.

Lemma single_spaced_app_non_ws (a s : string) :
  single_spaced a = true -> single_spaced s = true ->
  (forall c, In c (list_ascii_of_string a) -> JS.is_ws c = false) ->
  single_spaced (a ++ s) = true.
Proof.
  intros Ha Hs Hall. induction a as [| c a IH]; [exact Hs |].
  change (String c a ++ s) with (String c (a ++ s)).
  apply single_spaced_cons_non_ws.
  - apply Hall. now left.
  - apply IH.
    + cbn [single_spaced] in Ha. now apply andb_true_iff in Ha as [_ Ha].
    + intros d Hd. apply Hall. now right.
Qed.

Lemma upper_char_non_ws (c d : ascii) :
  JS.is_ws c = false -> In d (list_ascii_of_string (JS.upper_char c)) ->
  JS.is_ws d = false.
Proof.
  destruct c as [[] [] [] [] [] [] [] []]; intros H;
    try discriminate H; simpl; intros [<- | [<- | []]] || intros [<- | []];
    reflexivity.
Qed.

Lemma capitalize_spaced (s : string) :
  single_spaced s = true -> starts_non_ws s = true ->
  single_spaced (JS.capitalize s) = true.
Proof.
  destruct s as [| c s]; [reflexivity |].
  intros Hs Hc. simpl in Hc. apply negb_true_iff in Hc.
  unfold JS.capitalize.
  apply single_spaced_app_non_ws.
  - now apply upper_char_spaced.
  - cbn [single_spaced] in Hs. now apply andb_true_iff in Hs as [_ Hs].
  - intros d. now apply upper_char_non_ws.
Qed.

Lemma capitalize_length (s : string) :
  String.length (JS.capitalize s) <= S (String.length s).
Proof.
  destruct s as [| c s]; simpl; [lia |].
  rewrite string_app_length.
  assert (String.length (JS.upper_char c) <= 2).
  { destruct c as [[] [] [] [] [] [] [] []]; simpl; lia. }
  lia.
Qed.

Lemma take_length (n : nat) (s : string) : String.length (JS.take n s) <= n.
Proof.
  revert s. induction n as [| n IH]; intros [| c s]; simpl; try lia.
  specialize (IH s). lia.
Qed.

Lemma take_all (n : nat) (s : string) :
  String.length s <= n -> JS.take n s = s.
Proof.
  revert s. induction n as [| n IH]; intros [| c s]; simpl;
    try reflexivity; try lia.
  intros H. rewrite IH; [reflexivity | lia].
Qed.

Lemma take_starts_non_ws (n : nat) (s : string) :
  starts_non_ws s = true -> starts_non_ws (JS.take n s) = true.
Proof. destruct n, s; simpl; auto. Qed.

Lemma trimEnd_starts_non_ws (s : string) :
  starts_non_ws s = true -> starts_non_ws (JS.trimEnd s) = true.
Proof.
  destruct s as [| c s]; [reflexivity |]. simpl. intros H.
  destruct (JS.trimEnd s); [| exact H].
  apply negb_true_iff in H. rewrite H. simpl. now rewrite H.
Qed.

Lemma trim_starts_non_ws (s : string) : starts_non_ws (JS.trim s) = true.
Proof.
  unfold JS.trim. apply trimEnd_starts_non_ws.
  induction s as [| c s IH]; [reflexivity |]. simpl.
  destruct (JS.is_ws c) eqn:Hc; [exact IH |]. simpl. now rewrite Hc.
Qed.

Lemma collapse_ws_starts_non_ws (s : string) :
  starts_non_ws s = true -> starts_non_ws (JS.collapse_ws s) = true.
Proof.
  destruct s as [| c s]; [reflexivity |]. unfold JS.collapse_ws. simpl.
  intros H. apply negb_true_iff in H. rewrite H. simpl. now rewrite H.
Qed.

(** X16.  A derived title is never empty, is at most 34 characters long,
    and is a single line: its only white space is single plain spaces, with
    no line break, tab or run of spaces left from the message. *)
Theorem generateChatTitle_is_a_short_single_line :
  forall content : string,
    generateChatTitle content <> ""
    /\ String.length (generateChatTitle content) <= 34
    /\ single_spaced (generateChatTitle content) = true.
Proof.
  intros content. unfold generateChatTitle.
  set (cut := JS.collapse_ws (JS.take 30 (JS.trim content))).
  assert (Hs : single_spaced cut = true)
    by (unfold cut, JS.collapse_ws; apply collapse_from_spaced).
  assert (Hn : starts_non_ws cut = true).
  { unfold cut. apply collapse_ws_starts_non_ws, take_starts_non_ws,
      trim_starts_non_ws. }
  assert (Hl : String.length cut <= 30).
  { unfold cut, JS.collapse_ws.
    pose proof (collapse_from_length false (JS.take 30 (JS.trim content))).
    pose proof (take_length 30 (JS.trim content)). lia. }
  set (full := if (30 <? String.length content)%nat then cut ++ "..."
               else cut).
  assert (Hfs : single_spaced full = true)
    by (unfold full; destruct (30 <? _)%nat;
        [now apply single_spaced_ellipsis | exact Hs]).
  assert (Hfn : starts_non_ws full = true).
  { unfold full. destruct (30 <? _)%nat; [| exact Hn].
    destruct cut; [reflexivity | exact Hn]. }
  assert (Hfl : String.length full <= 33).
  { unfold full. destruct (30 <? _)%nat; [| lia].
    rewrite string_app_length. simpl. lia. }
  destruct (JS.truthy (JS.capitalize full)) eqn:T.
  - apply truthy_true in T. split; [exact T |]. split.
    + pose proof (capitalize_length full). lia.
    + now apply capitalize_spaced.
  - repeat split; [discriminate | simpl; lia].
Qed.

Lemma capitalize_ellipsis (s : string) :
  ends_with_ellipsis (JS.capitalize (s ++ "...")).
Proof.
  destruct s as [| c s].
  - exists "". reflexivity.
  - exists (JS.upper_char c ++ s). simpl. now rewrite string_app_assoc.
Qed.

(** X17.  The ellipsis follows the length of the message as given, not of
    what is left after trimming: the title of every message longer than 30
    characters ends with "...", also when nothing was cut off. *)
Theorem generateChatTitle_long_content_gets_ellipsis :
  forall content : string,
    30 < String.length content ->
    ends_with_ellipsis (generateChatTitle content).
Proof.
  intros content H. unfold generateChatTitle.
  apply Nat.ltb_lt in H. rewrite H.
  destruct (capitalize_ellipsis
              (JS.collapse_ws (JS.take 30 (JS.trim content)))) as [t E].
  rewrite E.
  replace (JS.truthy (t ++ "...")) with true; [now exists t |].
  symmetry. apply truthy_true. destruct t; discriminate.
Qed.

Lemma generateChatTitle_ellipsis_witness :
  generateChatTitle "   Hi                            " = "Hi..."
  /\ ends_with_ellipsis
       (generateChatTitle "   Hi                            ").
Proof.
  split; [reflexivity |].
  apply (generateChatTitle_long_content_gets_ellipsis
           "   Hi                            ").
  simpl. lia.
Defined.

Lemma trim_length (s : string) :
  String.length (JS.trim s) <= String.length s.
Proof.
  unfold JS.trim.
  assert (E : forall t, String.length (JS.trimEnd t) <= String.length t).
  { induction t as [| c t IH]; simpl; [lia |].
    destruct (JS.trimEnd t); [destruct (JS.is_ws c) |]; simpl in *; lia. }
  assert (S : String.length (JS.trimStart s) <= String.length s).
  { induction s as [| c s IH]; simpl; [lia |].
    destruct (JS.is_ws c); simpl; lia. }
  specialize (E (JS.trimStart s)). lia.
Qed.

(** X18.  A message of at most 30 characters that is already tidy (no white
    space at its ends, single plain spaces inside) becomes the title with
    nothing but its first code unit put in upper case: a small letter is
    replaced by its capital, 32 code units below; the sharp s U+00DF is
    replaced by "SS"; with any other first code unit the title is the
    message as it stands.  The micro sign U+00B5 and U+00FF, whose capitals
    lie outside U+0000..U+00FF, are left aside.  A blank message of at most
    30 characters gives "New Chat". *)
Theorem generateChatTitle_of_short_content :
  forall content : string,
    String.length content <= 30 ->
    (forall (c : ascii) (rest : string),
        content = String c rest ->
        JS.trim content = content ->
        single_spaced content = true ->
        (small_letter c = true ->
         generateChatTitle content
         = String (ascii_of_nat (nat_of_ascii c - 32)) rest)
        /\ (nat_of_ascii c = 223 ->
            generateChatTitle content = "SS" ++ rest)
        /\ (small_letter c = false -> nat_of_ascii c <> 223 ->
            capital_out_of_range c = false ->
            generateChatTitle content = content))
    /\ (all_ws content = true -> generateChatTitle content = "New Chat").
Proof.
  intros content Hlen. split.
  - intros c rest -> Htrim Hs.
    assert (E : generateChatTitle (String c rest) = JS.upper_char c ++ rest).
    { unfold generateChatTitle.
      apply Nat.ltb_ge in Hlen. rewrite Hlen, Htrim.
      apply Nat.ltb_ge in Hlen. rewrite (take_all 30 _ Hlen).
      unfold JS.collapse_ws.
      destruct (collapse_from_fixes_spaced _ Hs) as [-> _].
      replace (JS.truthy (JS.capitalize (String c rest))) with true;
        [reflexivity |].
      symmetry. apply truthy_true.
      simpl. destruct c as [[] [] [] [] [] [] [] []]; discriminate. }
    rewrite E. clear.
    destruct c as [[] [] [] [] [] [] [] []];
      (split; [| split]); intros; try reflexivity;
      repeat match goal with
             | H : _ = _ |- _ => vm_compute in H; discriminate H
             | H : _ <> _ |- _ => now elim H
             end.
  - intros Hb. unfold generateChatTitle.
    apply Nat.ltb_ge in Hlen. rewrite Hlen.
    now rewrite (trim_all_ws content Hb).
Qed.

Lemma generateChatTitle_short_witness :
  generateChatTitle "how do I reset my password?"
  = "How do I reset my password?"
  /\ generateChatTitle "2 questions" = "2 questions"
  /\ generateChatTitle "  	 " = "New Chat".
Proof.
  destruct (generateChatTitle_of_short_content "how do I reset my password?")
    as [H _]; [simpl; lia |].
  destruct (H "h"%char "ow do I reset my password?" eq_refl eq_refl eq_refl)
    as [H1 _].
  destruct (generateChatTitle_of_short_content "2 questions")
    as [K _]; [simpl; lia |].
  destruct (K "2"%char " questions" eq_refl eq_refl eq_refl) as [_ [_ K3]].
  destruct (generateChatTitle_of_short_content "  	 ") as [_ H'];
    [simpl; lia |].
  split; [| split].
  - rewrite H1; reflexivity.
  - apply K3; [reflexivity | discriminate | reflexivity].
  - apply H'. reflexivity.
Defined.

End TitleProperties.

(** ** Properties of response delivery *)

Section DeliveryProperties.

Import MessageMatcher ChatManager.

Lemma filterE_In (p : Rule -> Exc bool) (l kept : list Rule) (x : Rule) :
  filterE p l = Ok kept -> In x kept -> In x l /\ p x = Ok true.
Proof.
  revert kept. induction l as [| y l IH]; simpl; intros kept H Hin.
  - injection H as <-. destruct Hin.
  - destruct (p y) as [b |] eqn:Py; [| discriminate H]. simpl in H.
    destruct (filterE p l) as [rest |]; [| discriminate H]. simpl in H.
    injection H as <-.
    destruct b.
    + destruct Hin as [<- | Hin]; [tauto |].
      destruct (IH rest eq_refl Hin). tauto.
    + destruct (IH rest eq_refl Hin). tauto.
Qed.

Lemma findImageAlternative_image (cm : ChatManager.t) (msg : string)
  (alt : Response) :
  findImageAlternative cm msg = Ok (Some alt) ->
  resp_type alt = "image" /\ resp_followup alt = None
  /\ exists r, In r (getAllRules (messageMatcher cm))
               /\ rtype r = "image" /\ rvalue r = resp_value alt.
Proof.
  unfold findImageAlternative.
  destruct (find _ (getAllRules (messageMatcher cm))) as [r |] eqn:F.
  - intros H. injection H as <-. repeat split.
    apply find_some in F as [Hin F]. apply andb_true_iff in F as [Ht _].
    apply String.eqb_eq in Ht. now exists r.
  - destruct (filterE isGenericImageRule (getAllRules (messageMatcher cm)))
      as [[| r rest] |] eqn:G; simpl; try discriminate.
    intros H. injection H as <-. repeat split.
    destruct (filterE_In _ _ _ r G (or_introl eq_refl)) as [Hin Hp].
    exists r. repeat split; [exact Hin |].
    unfold isGenericImageRule in Hp.
    destruct (String.eqb_spec (rtype r) "image"); [assumption | discriminate].
Qed.

(** X19.  In image mode a text response is either delivered as it stands,
    as text, or replaced by an image: the value shown is then the value of
    an image rule of the set, and the follow-up prompts of the text
    response are gone, from the message shown and from the message
    stored. *)
Theorem deliver_image_upgrade :
  forall (cm : ChatManager.t) (response : Response) (msg : string)
         (d : Delivery),
    isImageMode cm = true -> resp_type response = "text" ->
    deliver cm response msg = Ok d ->
    (shown_isImage d = false
     /\ shown_value d = resp_value response
     /\ StorageManager.in_responseType (stored d) = Some "text")
    \/ (shown_isImage d = true
        /\ (exists r, In r (getAllRules (messageMatcher cm))
                      /\ rtype r = "image" /\ rvalue r = shown_value d)
        /\ shown_followup d = None
        /\ StorageManager.in_followup (stored d) = Some []
        /\ StorageManager.in_responseType (stored d) = Some "image").
Proof.
  intros cm response msg d Hmode Htype. unfold deliver.
  rewrite Hmode, Htype. simpl.
  destruct (findImageAlternative cm msg) as [[alt |] |] eqn:F; simpl;
    try discriminate.
  - destruct (findImageAlternative_image cm msg alt F) as [_ [Hf Hr]].
    intros H. injection H as <-. right. simpl. rewrite Hf. tauto.
  - intros H. injection H as <-. left. simpl. tauto.
Qed.

Lemma deliver_image_upgrade_witness :
  exists d,
    deliver Sample.demo_manager
      (processInput (messageMatcher Sample.demo_manager)
         "Can you help with technical issues?")
      "Can you help with technical issues?" = Ok d
    /\ shown_value d = "assets/images/demo.png"
    /\ shown_followup d = None.
Proof.
  destruct (deliver Sample.demo_manager
              (processInput (messageMatcher Sample.demo_manager)
                 "Can you help with technical issues?")
              "Can you help with technical issues?") as [d |] eqn:E;
    [| discriminate E].
  exists d. split; [reflexivity |].
  destruct (deliver_image_upgrade Sample.demo_manager
              (processInput (messageMatcher Sample.demo_manager)
                 "Can you help with technical issues?")
              "Can you help with technical issues?" d
              eq_refl eq_refl E) as [[H _] | [_ [_ [Hf _]]]].
  - injection E as <-. discriminate H.
  - split; [| exact Hf]. injection E as <-. reflexivity.
Defined.

(** In text mode delivery never fails and never looks at the rules:
    the response is delivered with its own value and follow-up prompts, and
    it is shown as an image exactly when its type is image. *)
Theorem deliver_in_text_mode :
  forall (cm : ChatManager.t) (response : Response) (msg : string),
    isImageMode cm = false ->
    exists d,
      deliver cm response msg = Ok d
      /\ shown_value d = resp_value response
      /\ shown_isImage d = (resp_type response =? "image")
      /\ StorageManager.in_content (stored d) = resp_value response
      /\ StorageManager.in_followup (stored d)
         = Some (match resp_followup response with
                 | Some f => f
                 | None => []
                 end).
Proof.
  intros cm response msg Hmode. unfold deliver. rewrite Hmode. simpl.
  destruct (resp_type response =? "image"); simpl; eexists;
    repeat split.
Qed.

Lemma deliver_in_text_mode_witness :
  exists d,
    deliver (manager Sample.session)
      (mkResponse "image" "assets/images/org.png" None) "anything" = Ok d
    /\ shown_isImage d = true.
Proof.
  destruct (deliver_in_text_mode (manager Sample.session)
              (mkResponse "image" "assets/images/org.png" None) "anything"
              eq_refl) as [d [E [_ [H _]]]].
  exists d. split; [exact E | exact H].
Defined.

End DeliveryProperties.

(** ** Properties of the message pipeline *)

Section PipelineProperties.

Import MessageMatcher ChatManager.

Lemma deliver_stores_assistant_message (cm : ChatManager.t)
  (response : Response) (msg : string) (d : Delivery) :
  deliver cm response msg = Ok d ->
  StorageManager.in_type (stored d) = "assistant"
  /\ StorageManager.in_content (stored d) = shown_value d.
Proof.
  unfold deliver. intros H.
  match type of H with
  | bind ?c _ = _ => destruct c as [choice |]; [| discriminate H]
  end.
  simpl in H. injection H as <-. split; reflexivity.
Qed.

Lemma handleResponse_delivered (cm : ChatManager.t)
  (st : StorageManager.Store) (fr : StorageManager.Fresh)
  (response : Response) (msg : string) (d : Delivery) :
  deliver cm response msg = Ok d ->
  handleResponse cm st fr response msg
  = Ok (d, if truthy_id (currentChatId cm)
           then addToCurrent st (currentChatId cm) (stored d) fr
           else st).
Proof.
  intros H. unfold handleResponse. rewrite H. simpl.
  destruct (currentChatId cm) as [c |]; simpl; [| reflexivity].
  now destruct (JS.truthy c).
Qed.


(** What [processUserMessage] does once the current chat is settled. *)
Lemma processUserMessage_delivered (s : Session) (tk : Ticks)
  (msg : string) (d : Delivery) :
  isInitialized s = true ->
  truthy_id (currentChatId (manager s)) = true ->
  deliver (manager s) (processInput (messageMatcher (manager s)) msg) msg
  = Ok d ->
  processUserMessage s tk msg
  = mkSession (manager s) (isInitialized s)
      (messageHistory s ++ [user_entry tk msg; reply_entry tk d])%list
      (addToCurrent
         (addToCurrent (store s) (currentChatId (manager s)) (user_in msg)
            (user_meta tk))
         (currentChatId (manager s)) (stored d) (reply_meta tk))
      (ui s
       ++ [ShowLoading; RemoveLoading;
           AddMessage (shown_value d) "assistant" (shown_isImage d)
             (shown_followup d);
           announcement d])%list.
Proof.
  intros Hinit Hcur Hd. unfold processUserMessage.
  rewrite Hinit, Hcur. simpl. unfold handleResponseAll. simpl.
  rewrite (handleResponse_delivered _ _ _ _ _ d Hd), Hcur. simpl.
  unfold user_entry, reply_entry, announcement, user_in.
  rewrite <- !app_assoc, ?Hinit. reflexivity.
Qed.


(** Without a current chat, [processUserMessage] goes on as it does on the
    session that [createNewChat] leaves. *)
Lemma processUserMessage_creates (s : Session) (tk : Ticks) (msg : string) :
  isInitialized s = true ->
  truthy_id (currentChatId (manager s)) = false ->
  let created :=
    StorageManager.createNewChat (store s) None (new_chat tk) in
  truthy_id (snd created) = true \/ snd created = None ->
  processUserMessage s tk msg
  = processUserMessage (with_current s (snd created) (fst created)) tk msg.
Proof.
  intros Hinit Hcur created H. unfold processUserMessage.
  cbn [with_current isInitialized manager currentChatId messageMatcher
       isImageMode store messageHistory ui].
  rewrite Hinit, Hcur. cbn [negb]. fold created.
  destruct H as [H | H].
  - now rewrite H.
  - assert (Es : store s = None).
    { unfold created, StorageManager.createNewChat,
        StorageManager.getStorageData in H.
      destruct (store s); [discriminate H | reflexivity]. }
    unfold created. rewrite Es. reflexivity.
Qed.



Lemma createNewChat_untitled (data : StorageManager.StorageData)
  (fr : StorageManager.Fresh) :
  StorageManager.createNewChat (Some data) None fr
  = (Some (StorageManager.mkData
             (StorageManager.mkChat (StorageManager.fresh_id fr) "New Chat"
                [] (StorageManager.fresh_stamp fr)
                (StorageManager.fresh_updated fr) 0
              :: firstn 49 (StorageManager.chats data))
             (Some (StorageManager.fresh_id fr))
             (StorageManager.settings data)),
     Some (StorageManager.fresh_id fr)).
Proof.
  unfold StorageManager.createNewChat.
  cbn -[firstn Nat.ltb StorageManager.maxChats].
  match goal with
  | |- context [StorageManager.mkChat ?a ?b ?c ?d ?e ?f] =>
      set (chat := StorageManager.mkChat a b c d e f)
  end.
  change (S (length (StorageManager.chats data)))
    with (length (chat :: StorageManager.chats data)).
  destruct (Nat.ltb_spec StorageManager.maxChats
              (length (chat :: StorageManager.chats data))) as [H | H];
    cbn -[firstn StorageManager.maxChats].
  - reflexivity.
  - rewrite firstn_all2; [reflexivity |].
    simpl in H. unfold StorageManager.maxChats in H. lia.
Qed.

Lemma addMessageToChat_head (c : StorageManager.Chat)
  (rest : list StorageManager.Chat) (cur : option string)
  (set : StorageManager.Settings) (m : StorageManager.MessageIn)
  (fr : StorageManager.Fresh) :
  StorageManager.addMessageToChat
    (Some (StorageManager.mkData (c :: rest) cur set))
    (StorageManager.chat_id c) m fr
  = (Some (StorageManager.mkData
             (StorageManager.appendToChat fr m c :: rest) cur set),
     true).
Proof.
  unfold StorageManager.addMessageToChat. simpl.
  unfold StorageManager.has_id. now rewrite String.eqb_refl.
Qed.

(** X21.  An initialized chat manager without a current chat, on a
    readable store, first creates a chat: the new chat goes in front of the
    collection, of which the 49 most recent chats are kept, becomes the
    current chat of the manager and of the store, holds the user's message
    and the reply, and is titled after the user's message. *)
Theorem processUserMessage_opens_a_chat :
  forall (s : Session) (tk : Ticks) (msg : string)
         (data : StorageManager.StorageData) (d : Delivery),
    isInitialized s = true ->
    truthy_id (currentChatId (manager s)) = false ->
    store s = Some data ->
    StorageManager.fresh_id (new_chat tk) <> "" ->
    msg <> "" ->
    deliver (manager s) (processInput (messageMatcher (manager s)) msg) msg
    = Ok d ->
    let s' := processUserMessage s tk msg in
    let chatId := StorageManager.fresh_id (new_chat tk) in
    currentChatId (manager s') = Some chatId
    /\ StorageManager.getCurrentChatId (store s') = Some chatId
    /\ exists chat',
        StorageManager.getAllChats (store s')
        = chat' :: firstn 49 (StorageManager.chats data)
        /\ StorageManager.chat_id chat' = chatId
        /\ StorageManager.title chat'
           = StorageManager.generateChatTitle msg
        /\ StorageManager.messages chat'
           = [StorageManager.withMeta (user_meta tk) (user_in msg);
              StorageManager.withMeta (reply_meta tk) (stored d)]
        /\ StorageManager.messageCount chat' = 2.
Proof.
  intros s tk msg data d Hinit Hcur Hst Hid Hmsg Hd s' chatId.
  assert (Ht : JS.truthy chatId = true) by (now apply truthy_true).
  assert (Hm : JS.truthy msg = true) by (now apply truthy_true).
  destruct (deliver_stores_assistant_message _ _ _ _ Hd) as [Hty _].
  pose proof (createNewChat_untitled data (new_chat tk)) as Hc.
  unfold s'. rewrite processUserMessage_creates; try assumption;
    rewrite Hst, Hc; [| left; exact Ht].
  cbn [fst snd].
  rewrite (processUserMessage_delivered _ tk msg d);
    [| exact Hinit | exact Ht | exact Hd].
  cbn [with_current manager store currentChatId addToCurrent].
  set (blank := StorageManager.mkChat _ _ _ _ _ _).
  set (rest := firstn 49 (StorageManager.chats data)).
  pose proof (addMessageToChat_head blank rest (Some chatId)
                (StorageManager.settings data) (user_in msg) (user_meta tk))
    as E1.
  pose proof (addMessageToChat_head
                (StorageManager.appendToChat (user_meta tk) (user_in msg)
                   blank)
                rest (Some chatId) (StorageManager.settings data) (stored d)
                (reply_meta tk)) as E2.
  rewrite appendToChat_id in E2.
  change (StorageManager.chat_id blank) with chatId in E1, E2.
  fold chatId. rewrite E1. cbn [fst]. rewrite E2. cbn [fst].
  split; [reflexivity |]. split; [reflexivity |].
  eexists. split; [reflexivity |].
  rewrite !appendToChat_id, !appendToChat_title.
  unfold StorageManager.appendToChat, user_in, blank. simpl.
  rewrite Hty, Hm. simpl. rewrite andb_false_r. repeat split.
Qed.

Lemma processUserMessage_opens_witness :
  exists chat',
    StorageManager.getAllChats
      (store (processUserMessage Sample.idle_session Sample.ticks
                "Hello there, how are you doing today?"))
    = [chat'; Sample.fresh_chat; Sample.older_chat]
    /\ StorageManager.chat_id chat' = "chat_2"
    /\ StorageManager.title chat' = "Hello there, how are you doing...".
Proof.
  destruct (deliver (manager Sample.idle_session)
              (processInput (messageMatcher (manager Sample.idle_session))
                 "Hello there, how are you doing today?")
              "Hello there, how are you doing today?") as [d |] eqn:Hd;
    [| discriminate Hd].
  destruct (processUserMessage_opens_a_chat Sample.idle_session Sample.ticks
              "Hello there, how are you doing today?" _ d
              eq_refl eq_refl eq_refl)
    as [_ [_ [chat' [G [I [T _]]]]]];
    [discriminate | discriminate | exact Hd |].
  exists chat'. split; [exact G |]. split; [exact I | exact T].
Defined.



(** X23.  Without a readable store the chat manager still answers: the
    store stays absent, no chat becomes current, and the reply is shown and
    announced as usual. *)
Theorem processUserMessage_without_store :
  forall (s : Session) (tk : Ticks) (msg : string) (d : Delivery),
    isInitialized s = true ->
    store s = None ->
    truthy_id (currentChatId (manager s)) = false ->
    deliver (manager s) (processInput (messageMatcher (manager s)) msg) msg
    = Ok d ->
    let s' := processUserMessage s tk msg in
    store s' = None
    /\ currentChatId (manager s') = None
    /\ messageHistory s'
       = (messageHistory s ++ [user_entry tk msg; reply_entry tk d])%list
    /\ ui s'
       = (ui s
          ++ [ShowLoading; RemoveLoading;
              AddMessage (shown_value d) "assistant" (shown_isImage d)
                (shown_followup d);
              announcement d])%list.
Proof.
  intros s tk msg d Hinit Hst Hcur Hd s'.
  unfold s', processUserMessage. rewrite Hinit, Hcur, Hst. simpl.
  unfold handleResponseAll. simpl.
  rewrite (handleResponse_delivered
             (ChatManager.mk (messageMatcher (manager s))
                (isImageMode (manager s)) None) _ _ _ _ d Hd).
  simpl. unfold user_entry, reply_entry, announcement.
  now rewrite <- !app_assoc.
Qed.

Lemma processUserMessage_without_store_witness :
  store (processUserMessage Sample.storeless_session Sample.ticks
           "Can you help with technical issues?") = None
  /\ In (AddMessage (rvalue Sample.technical_rule) "assistant" false
           (followup Sample.technical_rule))
        (ui (processUserMessage Sample.storeless_session Sample.ticks
               "Can you help with technical issues?")).
Proof.
  destruct (deliver (manager Sample.storeless_session)
              (processInput
                 (messageMatcher (manager Sample.storeless_session))
                 "Can you help with technical issues?")
              "Can you help with technical issues?") as [d |] eqn:Hd;
    [| discriminate Hd].
  destruct (processUserMessage_without_store Sample.storeless_session
              Sample.ticks "Can you help with technical issues?" d
              eq_refl eq_refl eq_refl Hd) as [Hs [_ [_ Hu]]].
  split; [exact Hs |]. rewrite Hu. injection Hd as <-.
  simpl. tauto.
Defined.

End PipelineProperties.

(** ** Properties of the special commands *)

Section CommandProperties.

Import MessageMatcher ChatManager.

Lemma lower_char_slash (c : ascii) : JS.lower_char c = "/"%char -> c = "/"%char.
Proof.
  destruct c as [[] [] [] [] [] [] [] []]; intros H;
    try reflexivity; discriminate H.
Qed.

Lemma trimEnd_keeps_head (c : ascii) (s : string) :
  JS.is_ws c = false -> exists t, JS.trimEnd (String c s) = String c t.
Proof.
  intros H. simpl. destruct (JS.trimEnd s) as [| d t].
  - rewrite H. now exists "".
  - now exists (String d t).
Qed.

(** A command word of the trimmed input starts with a slash only when the
    trimmed input does. *)
Lemma command_starts_with_slash (input rest : string) :
  JS.trim (JS.toLowerCase (JS.trim input)) = String "/" rest ->
  prefix "/" (JS.trim input) = true.
Proof.
  pose proof (trim_starts_non_ws input) as Hn.
  destruct (JS.trim input) as [| c s]; [discriminate |].
  simpl in Hn. apply negb_true_iff in Hn.
  unfold JS.trim. cbn [JS.toLowerCase JS.trimStart].
  rewrite is_ws_lower_char, Hn.
  destruct (trimEnd_keeps_head (JS.lower_char c) (JS.toLowerCase s))
    as [t ->]; [now rewrite is_ws_lower_char |].
  intros H. injection H as H _. apply lower_char_slash in H. subst c.
  now destruct s.
Qed.

(** X24.  An input that is one of the words /clear, /help, /history and
    /rules, in any letter case and with any white space around it, is a
    command: it is answered by one system message, after the chat area and
    the history have been cleared in the case of /clear, and nothing else
    happens: no message is matched, stored or added to the history.  Every
    other input, one that starts with a slash included, is processed as a
    message, trimmed. *)
Theorem processUserInput_special_commands :
  forall (s : Session) (tk : Ticks) (input : string),
    let command := JS.trim (JS.toLowerCase (JS.trim input)) in
    let s' := processUserInput s tk input in
    (In command ["/clear"; "/help"; "/history"; "/rules"] ->
     store s' = store s
     /\ manager s' = manager s
     /\ isInitialized s' = isInitialized s
     /\ messageHistory s'
        = (if command =? "/clear" then [] else messageHistory s)
     /\ exists text,
         ui s'
         = (ui s
            ++ (if command =? "/clear" then [ClearChatUI; FocusInput]
                else [])
            ++ [AddMessage text "system" false None])%list)
    /\ (~ In command ["/clear"; "/help"; "/history"; "/rules"] ->
        s' = processUserMessage s tk (JS.trim input)).
Proof.
  intros s tk input command s'. split.
  - intros Hin.
    assert (Hp : prefix "/" (JS.trim input) = true).
    { destruct Hin as [H | [H | [H | [H | []]]]];
        symmetry in H; now apply command_starts_with_slash in H. }
    unfold s', processUserInput. rewrite Hp.
    unfold handleSpecialCommand. fold command.
    destruct Hin as [<- | [<- | [<- | [<- | []]]]]; simpl;
      repeat split; eexists; rewrite <- ?app_assoc; reflexivity.
  - intros Hnot. unfold s', processUserInput.
    destruct (prefix "/" (JS.trim input)); [| reflexivity].
    unfold handleSpecialCommand. fold command.
    destruct (String.eqb_spec command "/clear") as [E | _];
      [elim Hnot; simpl; auto |].
    destruct (String.eqb_spec command "/help") as [E | _];
      [elim Hnot; simpl; auto |].
    destruct (String.eqb_spec command "/history") as [E | _];
      [elim Hnot; simpl; auto |].
    destruct (String.eqb_spec command "/rules") as [E | _];
      [elim Hnot; simpl; auto 6 |].
    reflexivity.
Qed.

Lemma processUserInput_commands_witness :
  store (processUserInput Sample.session Sample.ticks "  /RULES ")
  = Sample.store
  /\ ui (processUserInput Sample.session Sample.ticks "  /RULES ")
     = [AddMessage "Loaded 6 matching rules." "system" false None]
  /\ processUserInput Sample.session Sample.ticks "/rule"
     = processUserMessage Sample.session Sample.ticks "/rule".
Proof.
  destruct (processUserInput_special_commands Sample.session Sample.ticks
              "  /RULES ") as [H _].
  destruct (processUserInput_special_commands Sample.session Sample.ticks
              "/rule") as [_ H'].
  split; [apply H; simpl; tauto |].
  split; [reflexivity |].
  apply H'. simpl. intros [E | [E | [E | [E | []]]]]; discriminate E.
Defined.

End CommandProperties.

(** ** Properties of the sidebar and of the start-up *)

Section SidebarProperties.

Import ChatManager SidebarManager.

Lemma deleteChat_found (st : StorageManager.Store) (chatId : string)
  (chat : StorageManager.Chat) :
  StorageManager.getChat st chatId = Some chat ->
  exists data pre post,
    st = Some data
    /\ StorageManager.chats data = (pre ++ chat :: post)%list
    /\ (forall c, In c pre -> StorageManager.chat_id c <> chatId)
    /\ fst (StorageManager.deleteChat st chatId)
       = Some (StorageManager.mkData (pre ++ post)
                 (match StorageManager.currentChatId data with
                  | Some c => if c =? chatId then None else Some c
                  | None => None
                  end)
                 (StorageManager.settings data))
    /\ snd (StorageManager.deleteChat st chatId) = true.
Proof.
  unfold StorageManager.getChat, StorageManager.getStorageData.
  destruct st as [data |]; [| discriminate]. intros Hfind.
  destruct (find_split _ _ _ Hfind) as [pre [post [E [Hpre [_ Hidx]]]]].
  exists data, pre, post.
  unfold StorageManager.deleteChat, StorageManager.getStorageData.
  rewrite Hidx. simpl. rewrite E, splice1_middle. repeat split.
  intros c Hc. apply String.eqb_neq. now apply Hpre.
Qed.

(** What [selectChat] does with a stored chat. *)
Lemma selectChat_found (w : SidebarManager.t) (innerWidth : Z)
  (chatId : string) (chat : StorageManager.Chat)
  (data : StorageManager.StorageData) :
  store (session w) = Some data ->
  StorageManager.getChat (Some data) chatId = Some chat ->
  selectChat w innerWidth chatId
  = SidebarManager.mk
      (mkSession
         (ChatManager.mk (messageMatcher (manager (session w)))
            (isImageMode (manager (session w))) (Some chatId))
         (isInitialized (session w))
         (map entry_of (StorageManager.messages chat))
         (Some (StorageManager.mkData (StorageManager.chats data)
                  (Some chatId) (StorageManager.settings data)))
         (ui (session w)
          ++ ClearChatUI
             :: flat_map render (StorageManager.messages chat))%list)
      (Some chatId)
      (if (innerWidth <=? 768)%Z then true else isCollapsed w).
Proof.
  intros Hst Hchat. unfold selectChat, loadChat. rewrite Hst, Hchat.
  unfold collapse_on_mobile, collapseSidebar, with_store. simpl.
  now destruct (innerWidth <=? 768)%Z.
Qed.

(** X25.  Selecting a chat that is not stored changes nothing.  Selecting
    a stored chat makes it the selected chat of the sidebar, the current
    chat of the chat manager and the current chat of the store at once; the
    chat manager's history becomes the messages of the chat, and the chats
    themselves are untouched. *)
Theorem selectChat_aligns_the_pointers :
  forall (w : SidebarManager.t) (innerWidth : Z) (chatId : string),
    let st := store (session w) in
    let w' := selectChat w innerWidth chatId in
    (StorageManager.getChat st chatId = None -> w' = w)
    /\ (forall chat,
           StorageManager.getChat st chatId = Some chat ->
           getSelectedChatId w' = Some chatId
           /\ ChatManager.getCurrentChatId (session w') = Some chatId
           /\ StorageManager.getCurrentChatId (store (session w'))
              = Some chatId
           /\ StorageManager.getAllChats (store (session w'))
              = StorageManager.getAllChats st
           /\ messageHistory (session w')
              = map entry_of (StorageManager.messages chat)).
Proof.
  intros w innerWidth chatId st w'. split.
  - intros H. unfold w', selectChat. fold st. now rewrite H.
  - intros chat H.
    destruct st as [data |] eqn:Hst; [| discriminate H].
    unfold w'. rewrite (selectChat_found w innerWidth chatId chat data Hst H).
    unfold st in Hst. rewrite ?Hst. repeat split.
Qed.

(** What the sidebar's [createNewChat] does on a readable store. *)
Lemma sidebar_createNewChat_found (w : SidebarManager.t) (innerWidth : Z)
  (fr : StorageManager.Fresh) (data : StorageManager.StorageData) :
  store (session w) = Some data ->
  StorageManager.fresh_id fr <> "" ->
  let blank :=
    StorageManager.mkChat (StorageManager.fresh_id fr) "New Chat" []
      (StorageManager.fresh_stamp fr) (StorageManager.fresh_updated fr) 0 in
  createNewChat w innerWidth fr
  = SidebarManager.mk
      (mkSession
         (ChatManager.mk (messageMatcher (manager (session w)))
            (isImageMode (manager (session w)))
            (Some (StorageManager.fresh_id fr)))
         (isInitialized (session w)) []
         (Some (StorageManager.mkData
                  (blank :: firstn 49 (StorageManager.chats data))
                  (Some (StorageManager.fresh_id fr))
                  (StorageManager.settings data)))
         (ui (session w) ++ [ClearChatUI])%list)
      (Some (StorageManager.fresh_id fr))
      (if (innerWidth <=? 768)%Z then true else isCollapsed w).
Proof.
  intros Hst Hid blank. apply truthy_true in Hid.
  unfold createNewChat. rewrite Hst, createNewChat_untitled.
  cbn [fst snd]. rewrite Hid.
  erewrite (selectChat_found _ innerWidth (StorageManager.fresh_id fr) blank);
    [| reflexivity
     | unfold StorageManager.getChat; cbn -[firstn];
       unfold StorageManager.has_id; cbn -[firstn];
       now rewrite String.eqb_refl].
  unfold collapse_on_mobile, collapseSidebar, with_store.
  cbn -[firstn]. now destruct (innerWidth <=? 768)%Z.
Qed.

(** X26.  Deleting the selected chat in the sidebar removes it from the
    store and opens a new, empty chat in its place: the new chat is in
    front of the remaining chats and is the selected chat, the chat
    manager's current chat and the store's current chat, and the chat
    manager's history is empty.  Deleting another stored chat leaves the
    selection, the chat manager and its history alone. *)
Theorem sidebar_deleteChat_replaces_the_selected_chat :
  forall (w : SidebarManager.t) (innerWidth : Z) (chatId : string)
         (chat : StorageManager.Chat) (fr : StorageManager.Fresh),
    StorageManager.getChat (store (session w)) chatId = Some chat ->
    StorageManager.fresh_id fr <> "" ->
    let w' := deleteChat w innerWidth chatId fr in
    exists data pre post,
      store (session w) = Some data
      /\ StorageManager.chats data = (pre ++ chat :: post)%list
      /\ (forall c, In c pre -> StorageManager.chat_id c <> chatId)
      /\ (selectedChatId w = Some chatId ->
          getSelectedChatId w' = Some (StorageManager.fresh_id fr)
          /\ ChatManager.getCurrentChatId (session w')
             = Some (StorageManager.fresh_id fr)
          /\ StorageManager.getCurrentChatId (store (session w'))
             = Some (StorageManager.fresh_id fr)
          /\ messageHistory (session w') = []
          /\ StorageManager.getAllChats (store (session w'))
             = StorageManager.mkChat (StorageManager.fresh_id fr)
                 "New Chat" [] (StorageManager.fresh_stamp fr)
                 (StorageManager.fresh_updated fr) 0
               :: firstn 49 (pre ++ post))
      /\ (selectedChatId w <> Some chatId ->
          getSelectedChatId w' = selectedChatId w
          /\ manager (session w') = manager (session w)
          /\ messageHistory (session w') = messageHistory (session w)
          /\ StorageManager.getAllChats (store (session w'))
             = (pre ++ post)%list).
Proof.
  intros w innerWidth chatId chat fr Hchat Hid w'.
  destruct (deleteChat_found _ _ _ Hchat)
    as [data [pre [post [Hst [Hchats [Hpre [Hdel Hok]]]]]]].
  exists data, pre, post.
  split; [exact Hst |]. split; [exact Hchats |]. split; [exact Hpre |].
  split.
  - intros Hsel. unfold w', deleteChat. rewrite Hok, Hsel, String.eqb_refl.
    rewrite (sidebar_createNewChat_found _ innerWidth fr
               (StorageManager.mkData (pre ++ post)
                  (match StorageManager.currentChatId data with
                   | Some c => if c =? chatId then None else Some c
                   | None => None
                   end)
                  (StorageManager.settings data)));
      [| unfold with_store; simpl; exact Hdel | exact Hid].
    repeat split.
  - intros Hsel. unfold w', deleteChat. rewrite Hok.
    assert (E : match selectedChatId w with
                | Some selected =>
                    if chatId =? selected
                    then createNewChat
                           (with_store w
                              (fst (StorageManager.deleteChat
                                      (store (session w)) chatId)))
                           innerWidth fr
                    else with_store w
                           (fst (StorageManager.deleteChat
                                   (store (session w)) chatId))
                | None =>
                    with_store w
                      (fst (StorageManager.deleteChat
                              (store (session w)) chatId))
                end
                = with_store w
                    (fst (StorageManager.deleteChat (store (session w))
                            chatId))).
    { destruct (selectedChatId w) as [sel |]; [| reflexivity].
      destruct (String.eqb_spec chatId sel) as [-> | _];
        [now elim Hsel | reflexivity]. }
    rewrite E, Hdel. unfold with_store. simpl. repeat split.
Qed.

(** Deleting the selected fresh chat of the sample sidebar leaves a new
    chat in front of the older one. *)
Lemma sidebar_deleteChat_witness :
  map StorageManager.chat_id
    (StorageManager.getAllChats
       (store (session (deleteChat Sample.sidebar 1024 "chat_1"
                          (new_chat Sample.ticks)))))
  = ["chat_2"; "chat_0"]
  /\ getSelectedChatId
       (deleteChat Sample.sidebar 1024 "chat_1" (new_chat Sample.ticks))
     = Some "chat_2".
Proof.
  destruct (sidebar_deleteChat_replaces_the_selected_chat Sample.sidebar
              1024 "chat_1" Sample.fresh_chat (new_chat Sample.ticks)
              eq_refl)
    as [data [pre [post [_ [_ [_ [H _]]]]]]]; [discriminate |].
  destruct (H eq_refl) as [Hsel _].
  split; [reflexivity | exact Hsel].
Defined.

(** X27.  Clearing all chats in the sidebar, on a readable store, leaves
    exactly one chat: a new, empty chat titled "New Chat", which is the
    selected chat, the chat manager's current chat and the store's current
    chat; the chat manager's history is empty and the settings are kept. *)
Theorem sidebar_clearAllChats_starts_afresh :
  forall (w : SidebarManager.t) (innerWidth : Z) (fr : StorageManager.Fresh)
         (data : StorageManager.StorageData),
    store (session w) = Some data ->
    StorageManager.fresh_id fr <> "" ->
    let w' := clearAllChats w innerWidth fr in
    StorageManager.getAllChats (store (session w'))
    = [StorageManager.mkChat (StorageManager.fresh_id fr) "New Chat" []
         (StorageManager.fresh_stamp fr) (StorageManager.fresh_updated fr) 0]
    /\ getSelectedChatId w' = Some (StorageManager.fresh_id fr)
    /\ ChatManager.getCurrentChatId (session w')
       = Some (StorageManager.fresh_id fr)
    /\ StorageManager.getCurrentChatId (store (session w'))
       = Some (StorageManager.fresh_id fr)
    /\ messageHistory (session w') = []
    /\ option_map StorageManager.settings (store (session w'))
       = Some (StorageManager.settings data).
Proof.
  intros w innerWidth fr data Hst Hid w'.
  unfold w', clearAllChats. rewrite Hst. cbn [StorageManager.clearAllChats
    StorageManager.getStorageData StorageManager.saveStorageData fst snd].
  rewrite (sidebar_createNewChat_found _ innerWidth fr
             (StorageManager.mkData [] None (StorageManager.settings data)));
    [| reflexivity | exact Hid].
  repeat split.
Qed.

Lemma sidebar_clearAllChats_witness :
  map StorageManager.chat_id
    (StorageManager.getAllChats
       (store (session (clearAllChats Sample.sidebar 1024
                          (new_chat Sample.ticks)))))
  = ["chat_2"].
Proof.
  destruct (sidebar_clearAllChats_starts_afresh Sample.sidebar 1024
              (new_chat Sample.ticks) _ eq_refl) as [H _];
    [discriminate |].
  rewrite H. reflexivity.
Defined.

Lemma resume_found (w : SidebarManager.t) (innerWidth : Z)
  (chatId : string) (chat : StorageManager.Chat)
  (data : StorageManager.StorageData) :
  store (session w) = Some data ->
  StorageManager.getChat (Some data) chatId = Some chat ->
  let w' :=
    selectChat (App.with_session w (fst (loadChat (session w) chatId)))
      innerWidth chatId in
  getSelectedChatId w' = Some chatId
  /\ ChatManager.getCurrentChatId (session w') = Some chatId
  /\ StorageManager.getCurrentChatId (store (session w')) = Some chatId
  /\ StorageManager.getChat (store (session w')) chatId = Some chat
  /\ StorageManager.getAllChats (store (session w'))
     = StorageManager.chats data.
Proof.
  intros Hst Hchat w'. unfold w'.
  erewrite (selectChat_found _ innerWidth chatId chat data);
    [repeat split; exact Hchat | | exact Hchat].
  unfold App.with_session, loadChat. rewrite Hst, Hchat. reflexivity.
Qed.

Lemma start_found (w : SidebarManager.t) (innerWidth : Z)
  (fr : StorageManager.Fresh) (data : StorageManager.StorageData) :
  store (session w) = Some data ->
  StorageManager.chats data = [] ->
  StorageManager.fresh_id fr <> "" ->
  let started := startNewChat (session w) None fr in
  let w' :=
    App.selectIfAny (App.with_session w (fst started)) innerWidth
      (snd started) in
  let blank :=
    StorageManager.mkChat (StorageManager.fresh_id fr) "New Chat" []
      (StorageManager.fresh_stamp fr) (StorageManager.fresh_updated fr) 0 in
  getSelectedChatId w' = Some (StorageManager.fresh_id fr)
  /\ ChatManager.getCurrentChatId (session w')
     = Some (StorageManager.fresh_id fr)
  /\ StorageManager.getCurrentChatId (store (session w'))
     = Some (StorageManager.fresh_id fr)
  /\ StorageManager.getChat (store (session w')) (StorageManager.fresh_id fr)
     = Some blank
  /\ StorageManager.getAllChats (store (session w')) = [blank].
Proof.
  intros Hst Hchats Hid started w' blank.
  assert (G : StorageManager.getChat
                (Some (StorageManager.mkData [blank]
                         (Some (StorageManager.fresh_id fr))
                         (StorageManager.settings data)))
                (StorageManager.fresh_id fr) = Some blank).
  { unfold StorageManager.getChat. simpl. unfold StorageManager.has_id.
    simpl. now rewrite String.eqb_refl. }
  unfold w', started, startNewChat. cbn [truthy_id].
  rewrite Hst, createNewChat_untitled, Hchats.
  cbn [fst snd firstn App.selectIfAny].
  erewrite (selectChat_found _ innerWidth (StorageManager.fresh_id fr)
              blank); [| reflexivity | exact G].
  repeat split. exact G.
Qed.

(** X28.  After [initializeChat] on a readable store one stored chat is the
    selected chat of the sidebar, the current chat of the chat manager and
    the current chat of the store at once.  It is the chat the store named
    as current when that chat is stored.  No stored chat is lost: the
    collection stays as it was, and when it was empty it now holds one new,
    empty chat, which is the chat resumed. *)
Theorem initializeChat_resumes_a_stored_chat :
  forall (w : SidebarManager.t) (innerWidth : Z) (fr : StorageManager.Fresh)
         (data : StorageManager.StorageData),
    store (session w) = Some data ->
    StorageManager.fresh_id fr <> "" ->
    let w' := App.initializeChat w innerWidth fr in
    exists chatId chat,
      getSelectedChatId w' = Some chatId
      /\ ChatManager.getCurrentChatId (session w') = Some chatId
      /\ StorageManager.getCurrentChatId (store (session w')) = Some chatId
      /\ StorageManager.getChat (store (session w')) chatId = Some chat
      /\ StorageManager.getAllChats (store (session w'))
         = match StorageManager.chats data with
           | [] => [chat]
           | _ :: _ => StorageManager.chats data
           end
      /\ (StorageManager.chats data = [] ->
          chatId = StorageManager.fresh_id fr
          /\ StorageManager.messages chat = [])
      /\ (forall c stored,
             StorageManager.currentChatId data = Some c -> c <> "" ->
             StorageManager.getChat (Some data) c = Some stored ->
             chatId = c).
Proof.
  intros w innerWidth fr data Hst Hid w'.
  (* resuming a stored chat *)
  assert (Hresume :
            forall chatId chat,
              StorageManager.getChat (Some data) chatId = Some chat ->
              w' = selectChat
                     (App.with_session w
                        (fst (loadChat (session w) chatId)))
                     innerWidth chatId ->
              (forall c stored,
                  StorageManager.currentChatId data = Some c -> c <> "" ->
                  StorageManager.getChat (Some data) c = Some stored ->
                  chatId = c) ->
              exists chatId chat,
                getSelectedChatId w' = Some chatId
                /\ ChatManager.getCurrentChatId (session w') = Some chatId
                /\ StorageManager.getCurrentChatId (store (session w'))
                   = Some chatId
                /\ StorageManager.getChat (store (session w')) chatId
                   = Some chat
                /\ StorageManager.getAllChats (store (session w'))
                   = match StorageManager.chats data with
                     | [] => [chat]
                     | _ :: _ => StorageManager.chats data
                     end
                /\ (StorageManager.chats data = [] ->
                    chatId = StorageManager.fresh_id fr
                    /\ StorageManager.messages chat = [])
                /\ (forall c stored,
                       StorageManager.currentChatId data = Some c ->
                       c <> "" ->
                       StorageManager.getChat (Some data) c = Some stored ->
                       chatId = c)).
  { intros chatId chat Hchat Hw Hnamed.
    destruct (resume_found w innerWidth chatId chat data Hst Hchat)
      as [H1 [H2 [H3 [H4 H5]]]].
    rewrite <- Hw in H1, H2, H3, H4, H5.
    exists chatId, chat.
    assert (Hne : StorageManager.chats data <> []).
    { intros E. unfold StorageManager.getChat in Hchat. simpl in Hchat.
      rewrite E in Hchat. discriminate Hchat. }
    repeat split; try assumption.
    - rewrite H5. destruct (StorageManager.chats data); [now elim Hne |].
      reflexivity.
    - now elim Hne.
    - now elim Hne. }
  (* the way taken without a usable current chat *)
  assert (Hother :
            (forall c stored,
                StorageManager.currentChatId data = Some c -> c <> "" ->
                StorageManager.getChat (Some data) c = Some stored ->
                False) ->
            w' = match StorageManager.chats data with
                 | mostRecentChat :: _ =>
                     selectChat
                       (App.with_session w
                          (fst (loadChat (session w)
                                  (StorageManager.chat_id mostRecentChat))))
                       innerWidth (StorageManager.chat_id mostRecentChat)
                 | [] =>
                     App.selectIfAny
                       (App.with_session w
                          (fst (startNewChat (session w) None fr)))
                       innerWidth
                       (snd (startNewChat (session w) None fr))
                 end ->
            exists chatId chat,
              getSelectedChatId w' = Some chatId
              /\ ChatManager.getCurrentChatId (session w') = Some chatId
              /\ StorageManager.getCurrentChatId (store (session w'))
                 = Some chatId
              /\ StorageManager.getChat (store (session w')) chatId
                 = Some chat
              /\ StorageManager.getAllChats (store (session w'))
                 = match StorageManager.chats data with
                   | [] => [chat]
                   | _ :: _ => StorageManager.chats data
                   end
              /\ (StorageManager.chats data = [] ->
                  chatId = StorageManager.fresh_id fr
                  /\ StorageManager.messages chat = [])
              /\ (forall c stored,
                     StorageManager.currentChatId data = Some c ->
                     c <> "" ->
                     StorageManager.getChat (Some data) c = Some stored ->
                     chatId = c)).
  { intros Hno Hw.
    destruct (StorageManager.chats data) as [| c0 rest] eqn:Hchats.
    - destruct (start_found w innerWidth fr data Hst Hchats Hid)
        as [H1 [H2 [H3 [H4 H5]]]].
      rewrite <- Hw in H1, H2, H3, H4, H5.
      eexists. eexists.
      split; [exact H1 |]. split; [exact H2 |]. split; [exact H3 |].
      split; [exact H4 |]. split; [exact H5 |].
      split; [intros _; split; reflexivity |].
      intros c stored E1 E2 E3. exfalso. eapply Hno; eauto.
    - assert (Hhead : StorageManager.getChat (Some data)
                        (StorageManager.chat_id c0) = Some c0).
      { unfold StorageManager.getChat. simpl. rewrite Hchats. simpl.
        unfold StorageManager.has_id. now rewrite String.eqb_refl. }
      apply (Hresume _ _ Hhead); [exact Hw |].
      intros c stored E1 E2 E3. exfalso. eapply Hno; eauto. }
  assert (Hw : w' = App.initializeChat w innerWidth fr) by reflexivity.
  unfold App.initializeChat in Hw. rewrite Hst in Hw.
  cbn [StorageManager.getCurrentChatId StorageManager.getAllChats
       StorageManager.getStorageData] in Hw.
  destruct (StorageManager.currentChatId data) as [c |] eqn:Hc.
  - destruct (JS.truthy c) eqn:Tc.
    + destruct (StorageManager.getChat (Some data) c) as [stored |] eqn:G.
      * apply (Hresume c stored G); [exact Hw |].
        intros c' stored' E _ _. now injection E.
      * apply Hother; [| exact Hw].
        intros c' stored E _ G'. injection E as <-. congruence.
    + apply Hother; [| exact Hw].
      intros c' stored E Hne _. injection E as <-.
      apply truthy_true in Hne. congruence.
  - apply Hother; [discriminate | exact Hw].
Qed.

Lemma initializeChat_witness :
  getSelectedChatId
    (App.initializeChat
       (SidebarManager.mk Sample.idle_session None false) 1024
       (new_chat Sample.ticks))
  = Some "chat_1".
Proof.
  destruct (initializeChat_resumes_a_stored_chat
              (SidebarManager.mk Sample.idle_session None false) 1024
              (new_chat Sample.ticks) _ eq_refl)
    as [chatId [chat [H [_ [_ [_ [_ [_ Hnamed]]]]]]]]; [discriminate |].
  rewrite H. f_equal.
  apply (Hnamed "chat_1" Sample.fresh_chat); [reflexivity | | reflexivity].
  discriminate.
Defined.

(** X29.  The label of a date depends on the whole 24-hour periods elapsed
    since it, not on calendar days: the time of day within the first 24
    hours, "Yesterday" within the next 24 hours, a number of days from two
    days up to seven days, and the calendar date from seven days on.  A
    date in the future gets a negative number of days. *)
Theorem formatDate_counts_elapsed_days :
  forall date now : Z,
    let elapsed := (now - date)%Z in
    let day := 86400000%Z in
    (formatDate date now = TimeOfDay <-> (0 <= elapsed < day)%Z)
    /\ (formatDate date now = Yesterday
        <-> (day <= elapsed < 2 * day)%Z)
    /\ (forall n,
           formatDate date now = DaysAgo n
           <-> (n * day <= elapsed < (n + 1) * day)%Z
               /\ (n < 0 \/ 2 <= n < 7)%Z)
    /\ (formatDate date now = CalendarDate <-> (7 * day <= elapsed)%Z).
Proof.
  intros date now elapsed day. unfold formatDate. fold elapsed.
  change (1000 * 60 * 60 * 24)%Z with day.
  pose proof (Z.div_mod elapsed day) as Hdm.
  pose proof (Z.mod_pos_bound elapsed day) as Hm.
  assert (Hd : (day = 86400000)%Z) by reflexivity.
  set (q := (elapsed / day)%Z) in *.
  set (r := (elapsed mod day)%Z) in *.
  specialize (Hdm ltac:(lia)). specialize (Hm ltac:(lia)).
  destruct (Z.eqb_spec q 0); [| destruct (Z.eqb_spec q 1);
    [| destruct (Z.ltb_spec q 7)]];
    repeat split; intros; try discriminate; try lia;
    try (exfalso; lia);
    try match goal with
        | H : DaysAgo _ = DaysAgo _ |- _ => injection H as <-
        end; try lia.
  f_equal. lia.
Qed.

End SidebarProperties.

(** ** Properties of the send handler *)

Section SendProperties.

Import ChatManager.

Lemma trimStart_fixes (s : string) :
  starts_non_ws s = true -> JS.trimStart s = s.
Proof.
  destruct s as [| c s]; [reflexivity |]. simpl. intros H.
  apply negb_true_iff in H. now rewrite H.
Qed.

Lemma trimEnd_idem (s : string) : JS.trimEnd (JS.trimEnd s) = JS.trimEnd s.
Proof.
  induction s as [| c s IH]; [reflexivity |]. simpl.
  destruct (JS.trimEnd s) as [| d t] eqn:E.
  - destruct (JS.is_ws c) eqn:Hc; [reflexivity |]. simpl. now rewrite Hc.
  - rewrite ?E in IH.
    change (JS.trimEnd (String c (String d t)))
      with (match JS.trimEnd (String d t) with
            | EmptyString =>
                if JS.is_ws c then EmptyString else String c EmptyString
            | String a b => String c (String a b)
            end).
    now rewrite IH.
Qed.

Lemma trim_idem (s : string) : JS.trim (JS.trim s) = JS.trim s.
Proof.
  unfold JS.trim at 1.
  rewrite (trimStart_fixes (JS.trim s) (trim_starts_non_ws s)).
  unfold JS.trim. apply trimEnd_idem.
Qed.

(** X30.  The send handler ignores an input field that holds white space
    only.  Otherwise it disables the send button, shows the trimmed text as
    the user's message, clears the field and hands the trimmed text on; a
    text that does not start with a slash is processed as a message as it
    stands. *)
Theorem handleSendMessage_sends_the_trimmed_text :
  forall (s : Session) (tk : Ticks) (value : string),
    (all_ws value = true -> App.handleSendMessage s tk value = s)
    /\ (JS.trim value <> "" ->
        let shown :=
          log s [SetSendButtonState false;
                 AddMessage (JS.trim value) "user" false None;
                 ClearInput] in
        App.handleSendMessage s tk value
        = processUserInput shown tk (JS.trim value)
        /\ (prefix "/" (JS.trim value) = false ->
            App.handleSendMessage s tk value
            = processUserMessage shown tk (JS.trim value))).
Proof.
  intros s tk value. unfold App.handleSendMessage, UIManager.getInputValue.
  split.
  - intros H. now rewrite (trim_all_ws value H).
  - intros H. apply truthy_true in H. rewrite H. simpl negb.
    split; [reflexivity |].
    intros Hp. unfold processUserInput. now rewrite trim_idem, Hp.
Qed.

Lemma handleSendMessage_witness :
  App.handleSendMessage Sample.session Sample.ticks "   " = Sample.session
  /\ In (AddMessage "Can you help with technical issues?" "user" false None)
        (ui (App.handleSendMessage Sample.session Sample.ticks
               "  Can you help with technical issues?  ")).
Proof.
  destruct (handleSendMessage_sends_the_trimmed_text Sample.session
              Sample.ticks "   ") as [H _].
  split; [apply H; reflexivity |].
  destruct (handleSendMessage_sends_the_trimmed_text Sample.session
              Sample.ticks "  Can you help with technical issues?  ")
    as [_ H'].
  destruct H' as [_ H']; [discriminate |].
  rewrite H' by reflexivity. simpl. tauto.
Defined.

End SendProperties.
